(** * bcachefs inline compression (libbcachefs/compress.c)

    A shallow embedding of the compression data path of bcachefs:
    the decompression dispatch [__bio_uncompress] and its two entry
    points, the shrink-to-fit compressor [__bio_compress] with its
    wrapper [bch2_bio_compress], and the feature gate
    [bch2_check_set_has_compressed_data] with the pool set-up of
    [__bch2_fs_compress_init].

    C integers are [Z] with the conversions written out, buffers are
    lists of bytes, [BUG()] is an outcome of its own, and the three
    codec libraries (lz4, zlib, zstd) are a record of functions the
    development is parametric in.

    A last part embeds the bucket and superblock arithmetic that the
    tools' libbcachefs.c runs when it formats a device. *)

From Stdlib Require Import ZArith List Lia Bool Sorted.
From Stdlib Require Import Strings.Byte.
Import ListNotations.
Local Open Scope Z_scope.

(** ** C integer types *)

Module CInt.

Definition wrap (w z : Z) : Z := z mod 2 ^ w.

Definition swrap (w z : Z) : Z :=
  (z + 2 ^ (w - 1)) mod 2 ^ w - 2 ^ (w - 1).

(** [(int) z], [(unsigned) z] and [(size_t) z] on an LP64 target. *)
Definition to_int : Z -> Z := swrap 32.
Definition to_unsigned : Z -> Z := wrap 32.
Definition to_size_t : Z -> Z := wrap 64.

(** errno values used by this file. *)
Definition EIO : Z := 5.
Definition ENOMEM : Z := 12.

(** [round_down(x, y)] is [x & ~(y - 1)] and [round_up(x, y)] is
    [((x - 1) | (y - 1)) + 1], both at the width of [x] (a [size_t]
    everywhere in this file); they are meant for [y] a power of two. *)
Definition round_down (x y : Z) : Z := Z.land x (Z.lnot (y - 1)).

Definition round_up (x y : Z) : Z :=
  to_size_t (Z.lor (to_size_t (x - 1)) (y - 1) + 1).

End CInt.

Import CInt.

(** ** Outcomes

    [BUG()] and a failed [BUG_ON] stop the kernel thread: the call
    does not return.  Every function that can reach one has an
    [outcome] as its result. *)

Inductive outcome (A : Type) : Type :=
| Ret (a : A)
| Bug.

Arguments Ret {A} a.
Arguments Bug {A}.

Definition bind {A B : Type} (m : outcome A) (k : A -> outcome B) : outcome B :=
  match m with
  | Ret a => k a
  | Bug => Bug
  end.

Notation "x <- m ;; k" := (bind m (fun x => k))
  (at level 61, m at next level, right associativity).

Definition BUG_ON {A : Type} (cond : bool) (k : outcome A) : outcome A :=
  if cond then Bug else k.

(** ** Bytes and buffers *)

Definition byte_of_Z (z : Z) : byte :=
  match Byte.of_N (Z.to_N (z mod 256)) with
  | Some b => b
  | None => x00
  end.

Definition Z_of_byte (b : byte) : Z := Z.of_N (Byte.to_N b).

(** Storing [cpu_to_le32(v)] through a [__le32] pointer [p] puts these
    four bytes at [p]; [le32_to_cpup(p)] reads them back.  A byte
    missing from a mapping shorter than four bytes is read as zero. *)
Definition cpu_to_le32 (v : Z) : list byte :=
  [byte_of_Z v; byte_of_Z (v / 2 ^ 8); byte_of_Z (v / 2 ^ 16); byte_of_Z (v / 2 ^ 24)].

Definition le32_to_cpup (p : list byte) : Z :=
  Z_of_byte (nth 0 p x00)
  + 2 ^ 8 * Z_of_byte (nth 1 p x00)
  + 2 ^ 16 * Z_of_byte (nth 2 p x00)
  + 2 ^ 24 * Z_of_byte (nth 3 p x00).

(** A store of [data] at offset [off] of [buf].  The list is the
    mapping: bytes that would land past its end are outside the model
    and are dropped. *)
Definition write_at (off : nat) (data buf : list byte) : list byte :=
  firstn off buf ++ firstn (length buf - off) data ++ skipn (off + length data) buf.

Definition memset0 (off n : nat) (buf : list byte) : list byte :=
  write_at off (repeat x00 n) buf.

(** An allocation of [n] bytes holding whatever [junk] was there. *)
Definition sized (n : nat) (junk : list byte) : list byte :=
  firstn n (junk ++ repeat x00 n).

(** The bytes [off, off + len) of a mapping. *)
Definition window (off len : Z) (buf : list byte) : list byte :=
  firstn (Z.to_nat len) (skipn (Z.to_nat off) buf).

(** A codec told to read [len] bytes at offset [off] of a mapping of
    [size] bytes stays inside it when this holds. *)
Definition in_bounds (size : Z) (w : Z * Z) : Prop :=
  0 <= fst w /\ 0 <= snd w /\ fst w + snd w <= size.

(** ** Filesystem state *)

Inductive bch_compression_type : Type :=
| BCH_COMPRESSION_NONE
| BCH_COMPRESSION_LZ4_OLD
| BCH_COMPRESSION_GZIP
| BCH_COMPRESSION_LZ4
| BCH_COMPRESSION_ZSTD.

Definition compression_type_eqb (a b : bch_compression_type) : bool :=
  match a, b with
  | BCH_COMPRESSION_NONE, BCH_COMPRESSION_NONE
  | BCH_COMPRESSION_LZ4_OLD, BCH_COMPRESSION_LZ4_OLD
  | BCH_COMPRESSION_GZIP, BCH_COMPRESSION_GZIP
  | BCH_COMPRESSION_LZ4, BCH_COMPRESSION_LZ4
  | BCH_COMPRESSION_ZSTD, BCH_COMPRESSION_ZSTD => true
  | _, _ => false
  end.

(** The option values of [BCH_COMPRESSION_TYPES()]. *)
Inductive bch_compression_opt : Type :=
| BCH_COMPRESSION_OPT_NONE
| BCH_COMPRESSION_OPT_LZ4
| BCH_COMPRESSION_OPT_GZIP
| BCH_COMPRESSION_OPT_ZSTD.

(** A [mempool_t]: not initialised, or initialised with elements of
    the given size. *)
Definition mempool : Type := option Z.

Definition mempool_initialized (p : mempool) : bool :=
  match p with Some _ => true | None => false end.

Inductive rw_t : Type := READ | WRITE.

Record bch_fs : Type := mk_fs {
  sb_features : Z;               (* c->sb.features *)
  sb_encoded_extent_max : Z;     (* c->sb.encoded_extent_max, sectors *)
  disk_sb_features : Z;          (* c->disk_sb.sb->features[0] *)
  opts_block_size : Z;           (* c->opts.block_size, sectors *)
  compression_bounce : rw_t -> mempool;
  compress_workspace : bch_compression_type -> mempool;
  decompress_workspace : mempool;
  zstd_params : Z;               (* max_extent the parameters were derived for *)
  sb_lock : bool                 (* held? *)
}.

(** [block_bytes(c)] is [c->opts.block_size << 9]. *)
Definition block_bytes (c : bch_fs) : Z := Z.shiftl (opts_block_size c) 9.

(** ** Bios and bounce buffers *)

(** What the scans of [__bio_map_or_bounce] find in the page
    fragments: one fragment that covers the whole range, fragments
    that are whole pages but for the ends, or anything else.

    The bios of this development are those whose fragments after the
    first begin at the start of their page.  The second scan is meant
    to refuse any other bio, but it tests [!first && bv.bv_offset]
    with a [first] that is never cleared, so what it compares is the
    end of each fragment with the page size only; a bio with a
    fragment that begins inside its page, behind one that ends at a
    page end, would be handed to [vmap] and seen through it at other
    offsets.  Such a bio has no counterpart here, and what is proved
    of a mapping for its own sake says nothing of the bytes seen
    through a [vmap].  The scan itself is embedded as it is written
    further down, as [page_run_scan]. *)
Inductive bio_layout : Type := SingleVec | PageRuns | Scattered.

Record bio : Type := mk_bio {
  bi_size : Z;                   (* bi_iter.bi_size *)
  bi_data : list byte;           (* the bytes the iterator covers *)
  bi_layout : bio_layout;
  bi_vcnt : Z;
  bi_max_vecs : Z
}.

Definition set_bi_size (n : Z) (x : bio) : bio :=
  mk_bio n (bi_data x) (bi_layout x) (bi_vcnt x) (bi_max_vecs x).

Definition set_bi_data (d : list byte) (x : bio) : bio :=
  mk_bio (bi_size x) d (bi_layout x) (bi_vcnt x) (bi_max_vecs x).

(** [bio_sectors(bio)] and [bvec_iter_sectors(iter)]. *)
Definition sectors (size : Z) : Z := Z.shiftr size 9.

Inductive bbuf_type : Type := BB_NONE | BB_VMAP | BB_KMALLOC | BB_VMALLOC | BB_MEMPOOL.

Record bbuf : Type := mk_bbuf {
  b : list byte;
  type : bbuf_type;
  rw : rw_t
}.

Definition is_BB_NONE (t : bbuf_type) : bool :=
  match t with BB_NONE => true | _ => false end.

(** The buffer is the bio's own memory for these two. *)
Definition aliases_bio (t : bbuf_type) : bool :=
  match t with BB_NONE | BB_VMAP => true | _ => false end.

(** What the allocators answer, and what a fresh allocation holds. *)
Record alloc_env : Type := mk_alloc {
  kmalloc_ok : Z -> bool;
  mempool_nowait_ok : rw_t -> bool;
  vmalloc_ok : Z -> bool;
  mempool_noio_ok : rw_t -> bool;
  vmap_ok : bool;
  fresh : Z -> list byte
}.

(** [memcpy_to_bio(bio, iter, src)] with [iter.bi_size = n], [src]
    being the buffer from the source pointer to its end.  The C copies
    [n] bytes whatever the length of that buffer; here the copy ends
    where the buffer ends, so a statement on what a copy leaves holds
    of the code where [n] bytes are there to copy, and says so unless
    the caller has allocated that many. *)
Definition memcpy_to_bio (x : bio) (n : Z) (src : list byte) : bio :=
  set_bi_data (write_at 0 (firstn (Z.to_nat n) src) (bi_data x)) x.

(** ** Extent metadata *)

Record bch_csum : Type := mk_csum { lo : Z; hi : Z }.

(** The fields of [struct bch_extent_crc_unpacked] this file reads or
    writes; sizes and offset are in sectors. *)
Record bch_extent_crc_unpacked : Type := mk_crc {
  csum_type : Z;
  compression_type : bch_compression_type;
  compressed_size : Z;
  uncompressed_size : Z;
  offset : Z;
  live_size : Z;
  csum : bch_csum
}.

(** ** The codec libraries

    What a codec call returns and what it stored at its output
    pointer.  The first argument of every entry is the memory at the
    source pointer; the sizes follow in the order of the C
    prototypes. *)

Record codec_ret : Type := mk_codec_ret {
  c_ret : Z;
  c_out : list byte
}.

Record lz4_compressed : Type := mk_lz4_compressed {
  lz4_ret : Z;                   (* bytes stored, 0 on failure *)
  lz4_consumed : Z;              (* what [*srcSizePtr] holds afterwards *)
  lz4_out : list byte
}.

Record deflated : Type := mk_deflated {
  deflate_ret : Z;               (* of [zlib_deflate(&strm, Z_FINISH)] *)
  deflate_end_ret : Z;           (* of [zlib_deflateEnd(&strm)] *)
  total_out : Z;
  deflate_out : list byte
}.

Record codec_lib : Type := mk_codec_lib {
  LZ4_decompress_safe_partial : list byte -> Z -> Z -> Z -> codec_ret;
  zlib_inflate : list byte -> Z -> Z -> codec_ret;
  ZSTD_decompressDCtx : list byte -> Z -> Z -> codec_ret;
  LZ4_compress_destSize : list byte -> Z -> Z -> lz4_compressed;
  zlib_deflate : list byte -> Z -> Z -> deflated;
  ZSTD_compressCCtx : list byte -> Z -> Z -> codec_ret;
  ZSTD_isError : Z -> bool
}.

(** zlib.h *)
Definition Z_OK : Z := 0.
Definition Z_STREAM_END : Z := 1.

(** The libraries document their return value as the number of bytes
    stored; a call that keeps to it satisfies this. *)
Definition reports_length (r : codec_ret) : Prop :=
  Z.of_nat (length (c_out r)) = c_ret r.

(** ** Decompression *)

Record uncompressed : Type := mk_uncompressed {
  u_ret : Z;                     (* 0 or -EIO *)
  u_stored : list byte;          (* what the codec stored at dst_data *)
  u_dst : list byte;             (* the destination afterwards *)
  u_read : Z * Z                 (* offset and length of the source range the codec was given *)
}.

Section Compress.

Variable lib : codec_lib.
Variable mem : alloc_env.
Variable PAGE_SECTORS : Z.

Definition __bounce_alloc (c : bch_fs) (size : Z) (rw : rw_t) : outcome bbuf :=
  let bytes := sized (Z.to_nat size) (fresh mem size) in
  BUG_ON (Z.shiftl (sb_encoded_extent_max c) 9 <? size)
    (if kmalloc_ok mem size then Ret (mk_bbuf bytes BB_KMALLOC rw)
     else if mempool_nowait_ok mem rw then Ret (mk_bbuf bytes BB_MEMPOOL rw)
     else if vmalloc_ok mem size then Ret (mk_bbuf bytes BB_VMALLOC rw)
     else if mempool_noio_ok mem rw then Ret (mk_bbuf bytes BB_MEMPOOL rw)
     else Bug).

(** [start] is the size of the iterator the caller passes.  The two
    scans over the page fragments are summed up in [bi_layout]; a
    failure to allocate the page array or to [vmap] it is [vmap_ok]
    being false. *)
Definition __bio_map_or_bounce (c : bch_fs) (x : bio) (start : Z) (rw : rw_t)
  : outcome bbuf :=
  let bounce :=
    ret <- __bounce_alloc c start rw ;;
    Ret (match rw with
         | READ => mk_bbuf (write_at 0 (firstn (Z.to_nat start) (bi_data x)) (b ret))
                     (type ret) READ
         | WRITE => ret
         end) in
  BUG_ON (sb_encoded_extent_max c <? sectors start)
    (match bi_layout x with
     | SingleVec => Ret (mk_bbuf (bi_data x) BB_NONE rw)
     | PageRuns =>
         if vmap_ok mem then Ret (mk_bbuf (bi_data x) BB_VMAP rw) else bounce
     | Scattered => bounce
     end).

Definition bio_map_or_bounce (c : bch_fs) (x : bio) (rw : rw_t) : outcome bbuf :=
  __bio_map_or_bounce c x (bi_size x) rw.

Definition uncompress_dst_len (crc : bch_extent_crc_unpacked) : Z :=
  to_size_t (Z.shiftl (uncompressed_size crc) 9).

Definition __bio_uncompress (c : bch_fs) (src : bio) (dst_data : list byte)
    (crc : bch_extent_crc_unpacked) : outcome uncompressed :=
  let src_len := bi_size src in
  let dst_len := uncompress_dst_len crc in
  src_data <- bio_map_or_bounce c src READ ;;
  match compression_type crc with
  | BCH_COMPRESSION_LZ4_OLD
  | BCH_COMPRESSION_LZ4 =>
      let r := LZ4_decompress_safe_partial lib (b src_data)
                 (to_int src_len) (to_int dst_len) (to_int dst_len) in
      let ret := to_int (c_ret r) in
      Ret (mk_uncompressed
             (if to_size_t ret =? dst_len then 0 else - EIO)
             (c_out r) (write_at 0 (c_out r) dst_data)
             (0, to_int src_len))
  | BCH_COMPRESSION_GZIP =>
      let r := zlib_inflate lib (b src_data)
                 (to_unsigned src_len) (to_unsigned dst_len) in
      let ret := to_int (c_ret r) in
      Ret (mk_uncompressed
             (if ret =? Z_STREAM_END then 0 else - EIO)
             (c_out r) (write_at 0 (c_out r) dst_data)
             (0, to_unsigned src_len))
  | BCH_COMPRESSION_ZSTD =>
      let src_len := le32_to_cpup (b src_data) in
      let r := ZSTD_decompressDCtx lib (skipn 4 (b src_data)) src_len dst_len in
      let len := to_size_t (c_ret r) in
      Ret (mk_uncompressed
             (if len =? dst_len then 0 else - EIO)
             (c_out r) (write_at 0 (c_out r) dst_data)
             (4, src_len))
  | BCH_COMPRESSION_NONE => Bug
  end.

Definition extent_too_big (c : bch_fs) (crc : bch_extent_crc_unpacked) : bool :=
  (sb_encoded_extent_max c <? uncompressed_size crc)
  || (sb_encoded_extent_max c <? compressed_size crc).

Definition DIV_ROUND_UP (n d : Z) : Z := (n + d - 1) / d.

(** Returns the value of the call, the bio and [*crc] afterwards. *)
Definition bch2_bio_uncompress_inplace (c : bch_fs) (x : bio)
    (crc : bch_extent_crc_unpacked)
  : outcome (Z * bio * bch_extent_crc_unpacked) :=
  let dst_len := uncompress_dst_len crc in
  BUG_ON (bi_vcnt x =? 0)
  (BUG_ON (bi_max_vecs x <? DIV_ROUND_UP (live_size crc) PAGE_SECTORS)
  (if extent_too_big c crc then Ret (- EIO, x, crc)
   else
     data <- __bounce_alloc c (to_unsigned dst_len) WRITE ;;
     r <- __bio_uncompress c x (b data) crc ;;
     if negb (u_ret r =? 0) then Ret (- EIO, x, crc)
     else
       let n := to_unsigned (Z.shiftl (live_size crc) 9) in
       let x' := memcpy_to_bio (set_bi_size n x) n
                   (skipn (Z.to_nat (Z.shiftl (offset crc) 9)) (u_dst r)) in
       Ret (0, x',
            mk_crc 0 BCH_COMPRESSION_NONE (live_size crc) (live_size crc) 0
              (live_size crc) (mk_csum 0 0)))).

(** [dst_iter] is the size of the destination iterator.  Returns the
    value of the call, the destination bio afterwards and the source
    range the codec was given, if one was called. *)
Definition bch2_bio_uncompress (c : bch_fs) (src dst : bio) (dst_iter : Z)
    (crc : bch_extent_crc_unpacked)
  : outcome (Z * bio * option (Z * Z)) :=
  let dst_len := uncompress_dst_len crc in
  if extent_too_big c crc then Ret (- EIO, dst, None)
  else
    dst_data <- (if dst_len =? dst_iter
                 then __bio_map_or_bounce c dst dst_iter WRITE
                 else __bounce_alloc c (to_unsigned dst_len) WRITE) ;;
    r <- __bio_uncompress c src (b dst_data) crc ;;
    let dst1 := if aliases_bio (type dst_data)
                then set_bi_data (u_dst r) dst else dst in
    let dst2 := if (u_ret r =? 0) && negb (is_BB_NONE (type dst_data))
                then memcpy_to_bio dst1 dst_iter
                       (skipn (Z.to_nat (Z.shiftl (offset crc) 9)) (u_dst r))
                else dst1 in
    Ret (u_ret r, dst2, Some (u_read r)).

(** ** Compression *)

(** One call of a codec on the first [src_len] bytes of [src] with
    [dst_len] bytes of room at [dst]: the value returned and the
    destination afterwards.  A positive value is the length stored, a
    negative one the codec's hint of how much source would fit, zero a
    plain failure. *)
Definition attempt_compress (dst : list byte) (dst_len : Z)
    (src : list byte) (src_len : Z) (compression_type : bch_compression_type)
  : outcome (Z * list byte) :=
  match compression_type with
  | BCH_COMPRESSION_LZ4 =>
      let r := LZ4_compress_destSize lib src (to_int src_len) (to_int dst_len) in
      let len := to_int (lz4_consumed r) in
      let ret := to_int (lz4_ret r) in
      let dst' := write_at 0 (lz4_out r) dst in
      if to_size_t len <? src_len then Ret (to_int (- len), dst')
      else Ret (ret, dst')
  | BCH_COMPRESSION_GZIP =>
      let r := zlib_deflate lib src (to_unsigned src_len) (to_unsigned dst_len) in
      let dst' := write_at 0 (deflate_out r) dst in
      if negb (to_int (deflate_ret r) =? Z_STREAM_END) then Ret (0, dst')
      else if negb (to_int (deflate_end_ret r) =? Z_OK) then Ret (0, dst')
      else Ret (to_int (total_out r), dst')
  | BCH_COMPRESSION_ZSTD =>
      let r := ZSTD_compressCCtx lib src src_len (to_size_t (dst_len - 4)) in
      let len := to_size_t (c_ret r) in
      let dst' := write_at 4 (c_out r) dst in
      if ZSTD_isError lib len then Ret (0, dst')
      else Ret (to_int (len + 4), write_at 0 (cpu_to_le32 len) dst')
  | _ => Bug
  end.

(** How the search loop was left: [ret = 0] or [ret = -1]. *)
Inductive loop_end : Type := Fit | GiveUp.

Record loop_state : Type := mk_loop {
  l_src_len : Z;                 (* *src_len *)
  l_dst_len : Z;                 (* *dst_len *)
  l_dst : list byte;             (* dst_data.b *)
  l_attempts : list (Z * Z)      (* source and destination size of every codec call so far *)
}.

(** The size the loop retries with after a call that returned
    [ret <= 0]. *)
Definition next_src_len (bb ret src_len dst_len : Z) : Z :=
  let s := if ret <? 0 then to_size_t (to_int (- ret))
           else to_size_t (src_len - to_size_t (src_len - dst_len) / 2) in
  round_down s bb.

(** One turn of the [while (1)] of [__bio_compress], [bb] being
    [block_bytes(c)]: the loop is left, the thread dies in [BUG_ON],
    or the loop goes round again. *)
Inductive turn : Type :=
| Leave (e : loop_end) (st : loop_state)
| Crash
| Again (st : loop_state).

Definition loop_body (bb : Z) (t : bch_compression_type) (src : list byte)
    (st : loop_state) : turn :=
  let src_len := l_src_len st in
  let dst_len := l_dst_len st in
  if src_len <=? bb then Leave GiveUp st
  else
    match attempt_compress (l_dst st) dst_len src src_len t with
    | Bug => Crash
    | Ret (ret, dst') =>
        let tried := l_attempts st ++ [(src_len, dst_len)] in
        if 0 <? ret then
          Leave Fit (mk_loop src_len (to_size_t ret) dst' tried)
        else if src_len <=? dst_len then
          Leave GiveUp (mk_loop src_len dst_len dst' tried)
        else if src_len <=? to_size_t (to_int (- ret)) then Crash
        else Again (mk_loop (next_src_len bb ret src_len dst_len) dst_len dst' tried)
    end.

(** The loop has no bound of its own, so the model counts turns and
    answers [None] when it runs out of them. *)
Fixpoint compress_loop (fuel : nat) (bb : Z) (t : bch_compression_type)
    (src : list byte) (st : loop_state) : option (outcome (loop_end * loop_state)) :=
  match fuel with
  | O => None
  | S fuel' =>
      match loop_body bb t src st with
      | Leave e st' => Some (Ret (e, st'))
      | Crash => Some Bug
      | Again st' => compress_loop fuel' bb t src st'
      end
  end.

(** What a call of the compressor leaves behind: the codec id it
    returns ([BCH_COMPRESSION_NONE], zero, for incompressible data),
    [*dst_len] and [*src_len], both bios, and the codec calls made. *)
Record compressed : Type := mk_compressed {
  k_type : bch_compression_type;
  k_dst_len : Z;
  k_src_len : Z;
  k_dst : bio;
  k_src : bio;
  k_attempts : list (Z * Z)
}.

(** The part of [__bio_compress] after the loop. *)
Definition compress_finish (c : bch_fs) (dst src : bio) (dst_type : bbuf_type)
    (t : bch_compression_type) (e : loop_end) (st : loop_state)
  : outcome compressed :=
  let bb := block_bytes c in
  let src_len := l_src_len st in
  let dst_len := l_dst_len st in
  let through := if aliases_bio dst_type then set_bi_data (l_dst st) dst else dst in
  let incompressible :=
    Ret (mk_compressed BCH_COMPRESSION_NONE dst_len src_len through src
           (l_attempts st)) in
  match e with
  | GiveUp => incompressible
  | Fit =>
      if src_len <=? round_up dst_len bb then incompressible
      else
        let pad := to_unsigned (round_up dst_len bb - dst_len) in
        let buf := memset0 (Z.to_nat dst_len) (Z.to_nat pad) (l_dst st) in
        let dst_len := to_size_t (dst_len + pad) in
        let dst1 := if aliases_bio dst_type then set_bi_data buf dst else dst in
        let dst2 := if is_BB_NONE dst_type then dst1
                    else memcpy_to_bio dst1 (bi_size dst) buf in
        BUG_ON ((dst_len =? 0) || (bi_size dst <? dst_len))
        (BUG_ON ((src_len =? 0) || (bi_size src <? src_len))
        (BUG_ON (negb (Z.land dst_len (bb - 1) =? 0))
        (BUG_ON (negb (Z.land src_len (bb - 1) =? 0))
        (Ret (mk_compressed t dst_len src_len dst2 src (l_attempts st))))))
  end.

(** [dst_len] and [src_len] are what the caller's [*dst_len] and
    [*src_len] hold on entry.  [compression_type] is one of the
    enumerators, so [BUG_ON(compression_type >= BCH_COMPRESSION_NR)]
    cannot fire. *)
Definition __bio_compress (fuel : nat) (c : bch_fs) (dst : bio) (dst_len : Z)
    (src : bio) (src_len : Z) (compression_type : bch_compression_type)
  : option (outcome compressed) :=
  if negb (mempool_initialized (compress_workspace c compression_type)) then Some Bug
  else if sectors (bi_size src) <=? opts_block_size c then
    Some (Ret (mk_compressed BCH_COMPRESSION_NONE dst_len src_len dst src []))
  else
    match bio_map_or_bounce c dst WRITE with
    | Bug => Some Bug
    | Ret dst_data =>
        match bio_map_or_bounce c src READ with
        | Bug => Some Bug
        | Ret src_data =>
            match compress_loop fuel (block_bytes c) compression_type (b src_data)
                    (mk_loop (bi_size src) (bi_size dst) (b dst_data) []) with
            | None => None
            | Some Bug => Some Bug
            | Some (Ret (e, st)) =>
                Some (compress_finish c dst src (type dst_data) compression_type e st)
            end
        end
    end.

Definition clamp_src (c : bch_fs) (src : bio) : bio :=
  set_bi_size (Z.min (bi_size src)
                 (to_unsigned (Z.shiftl (sb_encoded_extent_max c) 9))) src.

Definition clamp_dst (c : bch_fs) (dst src : bio) : bio :=
  set_bi_size (Z.min (bi_size dst) (bi_size (clamp_src c src))) dst.

Definition bch2_bio_compress (fuel : nat) (c : bch_fs) (dst : bio) (dst_len : Z)
    (src : bio) (src_len : Z) (compression_type : bch_compression_type)
  : option (outcome compressed) :=
  let orig_dst := bi_size dst in
  let orig_src := bi_size src in
  let src1 := clamp_src c src in
  let dst1 := clamp_dst c dst src in
  let compression_type :=
    if compression_type_eqb compression_type BCH_COMPRESSION_LZ4_OLD
    then BCH_COMPRESSION_LZ4 else compression_type in
  match __bio_compress fuel c dst1 dst_len src1 src_len compression_type with
  | None => None
  | Some Bug => Some Bug
  | Some (Ret r) =>
      Some (Ret (mk_compressed (k_type r) (k_dst_len r) (k_src_len r)
                   (set_bi_size orig_dst (k_dst r))
                   (set_bi_size orig_src (k_src r))
                   (k_attempts r)))
  end.

End Compress.

(** ** Pools and the feature gate *)

(** Constants of headers that are not part of this file: the bit
    numbers of the three codec features, the workspace sizes the codec
    libraries ask for, and [get_order]. *)
Record bch_format : Type := mk_format {
  BCH_FEATURE_LZ4 : Z;
  BCH_FEATURE_GZIP : Z;
  BCH_FEATURE_ZSTD : Z;
  LZ4_MEM_COMPRESS : Z;
  zlib_deflate_workspacesize : Z;
  zlib_inflate_workspacesize : Z;
  ZSTD_CCtxWorkspaceBound : Z -> Z;   (* of the parameters for a given max_extent *)
  ZSTD_DCtxWorkspaceBound : Z;
  get_order : Z -> Z
}.

Inductive pool_id : Type :=
| BouncePool (rw : rw_t)
| CompressPool (t : bch_compression_type)
| DecompressPool.

(** What happens under [sb_lock], in order. *)
Inductive gate_event : Type :=
| EvLock
| EvPoolInit (p : pool_id) (size ret : Z)
| EvSetFeature (f : Z)
| EvWriteSuper (ret : Z)
| EvUnlock.

(** The answers of the allocator to the three [mempool_init_*] calls
    (0 or a negative errno) and of the superblock write. *)
Record gate_env : Type := mk_gate_env {
  mempool_init_ret : pool_id -> Z -> Z;
  write_super_ret : Z
}.

Definition get_pool (c : bch_fs) (p : pool_id) : mempool :=
  match p with
  | BouncePool rw => compression_bounce c rw
  | CompressPool t => compress_workspace c t
  | DecompressPool => decompress_workspace c
  end.

Definition rw_eqb (x y : rw_t) : bool :=
  match x, y with READ, READ | WRITE, WRITE => true | _, _ => false end.

Definition set_pool (c : bch_fs) (p : pool_id) (m : mempool) : bch_fs :=
  match p with
  | BouncePool rw =>
      mk_fs (sb_features c) (sb_encoded_extent_max c) (disk_sb_features c)
        (opts_block_size c)
        (fun rw' => if rw_eqb rw' rw then m else compression_bounce c rw')
        (compress_workspace c) (decompress_workspace c) (zstd_params c) (sb_lock c)
  | CompressPool t =>
      mk_fs (sb_features c) (sb_encoded_extent_max c) (disk_sb_features c)
        (opts_block_size c) (compression_bounce c)
        (fun t' => if compression_type_eqb t' t then m else compress_workspace c t')
        (decompress_workspace c) (zstd_params c) (sb_lock c)
  | DecompressPool =>
      mk_fs (sb_features c) (sb_encoded_extent_max c) (disk_sb_features c)
        (opts_block_size c) (compression_bounce c) (compress_workspace c)
        m (zstd_params c) (sb_lock c)
  end.

Definition set_zstd_params (c : bch_fs) (p : Z) : bch_fs :=
  mk_fs (sb_features c) (sb_encoded_extent_max c) (disk_sb_features c)
    (opts_block_size c) (compression_bounce c) (compress_workspace c)
    (decompress_workspace c) p (sb_lock c).

Definition set_sb_lock (c : bch_fs) (l : bool) : bch_fs :=
  mk_fs (sb_features c) (sb_encoded_extent_max c) (disk_sb_features c)
    (opts_block_size c) (compression_bounce c) (compress_workspace c)
    (decompress_workspace c) (zstd_params c) l.

Definition set_disk_sb_features (c : bch_fs) (f : Z) : bch_fs :=
  mk_fs (sb_features c) (sb_encoded_extent_max c) f
    (opts_block_size c) (compression_bounce c) (compress_workspace c)
    (decompress_workspace c) (zstd_params c) (sb_lock c).

Definition set_sb_features (c : bch_fs) (f : Z) : bch_fs :=
  mk_fs f (sb_encoded_extent_max c) (disk_sb_features c)
    (opts_block_size c) (compression_bounce c) (compress_workspace c)
    (decompress_workspace c) (zstd_params c) (sb_lock c).

(** A row of the local table [compression_types]. *)
Record compression_row : Type := mk_row {
  feature : Z;
  row_type : bch_compression_type;
  row_compress_workspace : Z;
  row_decompress_workspace : Z
}.

(** [1 << feature] is an [int], widened to the [u64] it is and-ed with. *)
Definition feature_mask (bit : Z) : Z := to_size_t (to_int (Z.shiftl 1 bit)).

(** [1ULL << feature]. *)
Definition feature_flag (bit : Z) : Z := to_size_t (Z.shiftl 1 bit).

Section Gate.

Variable fmt : bch_format.
Variable env : gate_env.

Definition compression_types (max_extent : Z) : list compression_row :=
  [ mk_row (BCH_FEATURE_LZ4 fmt) BCH_COMPRESSION_LZ4 (LZ4_MEM_COMPRESS fmt) 0;
    mk_row (BCH_FEATURE_GZIP fmt) BCH_COMPRESSION_GZIP
      (zlib_deflate_workspacesize fmt) (zlib_inflate_workspacesize fmt);
    mk_row (BCH_FEATURE_ZSTD fmt) BCH_COMPRESSION_ZSTD
      (ZSTD_CCtxWorkspaceBound fmt max_extent) (ZSTD_DCtxWorkspaceBound fmt) ].

(** One guarded [mempool_init_*]: nothing to do for a pool that is
    initialised, else the allocator's answer, with the pool in place
    when the answer is 0. *)
Definition init_pool (p : pool_id) (size : Z) (c : bch_fs)
  : Z * bch_fs * list gate_event :=
  if mempool_initialized (get_pool c p) then (0, c, [])
  else
    let ret := mempool_init_ret env p size in
    (ret, if ret =? 0 then set_pool c p (Some size) else c, [EvPoolInit p size ret]).

Definition has_feature (features : Z) (i : compression_row) : bool :=
  negb (Z.land features (feature_mask (feature i)) =? 0).

(** The second loop: the value of [ret], [decompress_workspace_size]
    and the state when it is left. *)
Fixpoint init_compress_workspaces (features : Z) (rows : list compression_row)
    (decompress_workspace_size : Z) (c : bch_fs)
  : Z * Z * bch_fs * list gate_event :=
  match rows with
  | [] => (0, decompress_workspace_size, c, [])
  | i :: rest =>
      let size := Z.max decompress_workspace_size (row_decompress_workspace i) in
      if negb (has_feature features i) then
        init_compress_workspaces features rest size c
      else
        match init_pool (CompressPool (row_type i)) (row_compress_workspace i) c with
        | (ret, c', evs) =>
            if negb (ret =? 0) then (ret, size, c', evs)
            else
              match init_compress_workspaces features rest size c' with
              | (ret', size', c'', evs') => (ret', size', c'', evs ++ evs')
              end
        end
  end.

Definition __bch2_fs_compress_init (c : bch_fs) (features : Z)
  : Z * bch_fs * list gate_event :=
  let max_extent := to_size_t (Z.shiftl (sb_encoded_extent_max c) 9) in
  let order := get_order fmt max_extent in
  let rows := compression_types max_extent in
  let c := set_zstd_params c max_extent in
  if negb (existsb (has_feature features) rows) then (0, c, [])
  else
    match init_pool (BouncePool READ) order c with
    | (ret, c1, ev1) =>
        if negb (ret =? 0) then (ret, c1, ev1)
        else
          match init_pool (BouncePool WRITE) order c1 with
          | (ret, c2, ev2) =>
              if negb (ret =? 0) then (ret, c2, ev1 ++ ev2)
              else
                match init_compress_workspaces features rows 0 c2 with
                | (ret, size, c3, ev3) =>
                    if negb (ret =? 0) then (ret, c3, ev1 ++ ev2 ++ ev3)
                    else
                      match init_pool DecompressPool size c3 with
                      | (ret, c4, ev4) => (ret, c4, ev1 ++ ev2 ++ ev3 ++ ev4)
                      end
                end
          end
    end.

(** Modelled from the spec: [bch2_write_super] (super-io.c is not part
    of the sources).  It is the "flush now" primitive of the durable
    feature bitset: it publishes the superblock buffer, after which
    the cached copy [c->sb] agrees with it, and it can fail. *)
Definition bch2_write_super (c : bch_fs) : Z * bch_fs :=
  (write_super_ret env, set_sb_features c (disk_sb_features c)).

Definition __bch2_check_set_has_compressed_data (c : bch_fs) (f : Z)
  : Z * bch_fs * list gate_event :=
  if Z.land (sb_features c) f =? f then (0, c, [])
  else
    let c := set_sb_lock c true in
    if Z.land (sb_features c) f =? f then (0, set_sb_lock c false, [EvLock; EvUnlock])
    else
      match __bch2_fs_compress_init c (Z.lor (sb_features c) f) with
      | (ret, c1, evs) =>
          if negb (ret =? 0) then
            (ret, set_sb_lock c1 false, [EvLock] ++ evs ++ [EvUnlock])
          else
            let c2 := set_disk_sb_features c1 (Z.lor (disk_sb_features c1) f) in
            let '(_, c3) := bch2_write_super c2 in
            (0, set_sb_lock c3 false,
             [EvLock] ++ evs ++ [EvSetFeature f; EvWriteSuper (write_super_ret env); EvUnlock])
      end.

(** The row of [bch2_compression_opt_to_feature]; [BCH_FEATURE_NONE]
    is defined as 0 for the table. *)
Definition bch2_compression_opt_to_feature (o : bch_compression_opt) : Z :=
  match o with
  | BCH_COMPRESSION_OPT_NONE => 0
  | BCH_COMPRESSION_OPT_LZ4 => BCH_FEATURE_LZ4 fmt
  | BCH_COMPRESSION_OPT_GZIP => BCH_FEATURE_GZIP fmt
  | BCH_COMPRESSION_OPT_ZSTD => BCH_FEATURE_ZSTD fmt
  end.

Definition bch2_check_set_has_compressed_data (c : bch_fs)
    (compression_type : bch_compression_opt) : Z * bch_fs * list gate_event :=
  match compression_type with
  | BCH_COMPRESSION_OPT_NONE => (0, c, [])
  | _ => __bch2_check_set_has_compressed_data c
           (feature_flag (bch2_compression_opt_to_feature compression_type))
  end.

End Gate.

(** ** Releasing a mapping, tearing down, mounting *)

(** What [bio_unmap_or_unbounce] hands back, and to whom. *)
Inductive release : Type :=
| Nothing
| Vunmap
| Kfree
| Vfree
| MempoolFree (pool : rw_t).      (* into c->compression_bounce[pool] *)

Definition bio_unmap_or_unbounce (buf : bbuf) : release :=
  match type buf with
  | BB_NONE => Nothing
  | BB_VMAP => Vunmap
  | BB_KMALLOC => Kfree
  | BB_VMALLOC => Vfree
  | BB_MEMPOOL => MempoolFree (rw buf)
  end.

(** [mempool_exit] on every pool. *)
Definition bch2_fs_compress_exit (c : bch_fs) : bch_fs :=
  mk_fs (sb_features c) (sb_encoded_extent_max c) (disk_sb_features c)
    (opts_block_size c) (fun _ => None) (fun _ => None) None
    (zstd_params c) (sb_lock c).

(** [compression] and [background_compression] are the two fields of
    [c->opts] the function reads. *)
Definition bch2_fs_compress_init (fmt : bch_format) (env : gate_env) (c : bch_fs)
    (compression background_compression : bch_compression_opt)
  : Z * bch_fs * list gate_event :=
  let f := sb_features c in
  let f := match compression with
           | BCH_COMPRESSION_OPT_NONE => f
           | _ => Z.lor f (feature_flag (bch2_compression_opt_to_feature fmt compression))
           end in
  let f := match background_compression with
           | BCH_COMPRESSION_OPT_NONE => f
           | _ => Z.lor f (feature_flag
                             (bch2_compression_opt_to_feature fmt background_compression))
           end in
  __bch2_fs_compress_init fmt env c f.

(** ** The scan for page runs

    The second loop of [__bio_map_or_bounce] over the fragments that
    [__bio_for_each_segment] yields, each inside one page: the bytes
    of its page, where it begins in the page, and its length. *)

Record bio_vec : Type := mk_bvec {
  bv_page : list byte;
  bv_offset : Z;
  bv_len : Z
}.

(** [None] is [goto bounce], otherwise the value of [nr_pages] behind
    the loop.  [first] is handed on as the loop finds it: the function
    sets it when it declares it and never again. *)
Fixpoint scan_segments (PAGE_SIZE : Z) (first : bool) (prev_end nr_pages : Z)
    (segs : list bio_vec) : option Z :=
  match segs with
  | [] => Some nr_pages
  | bv :: rest =>
      if (negb first && negb (bv_offset bv =? 0)) || negb (prev_end =? PAGE_SIZE)
      then None
      else scan_segments PAGE_SIZE first
             (to_unsigned (bv_offset bv + bv_len bv)) (to_unsigned (nr_pages + 1)) rest
  end.

Definition page_run_scan (PAGE_SIZE : Z) (segs : list bio_vec) : option Z :=
  scan_segments PAGE_SIZE true (to_unsigned PAGE_SIZE) 0 segs.

(** The bytes the fragments cover, in their order. *)
Definition segment_bytes (segs : list bio_vec) : list byte :=
  flat_map (fun bv => window (bv_offset bv) (bv_len bv) (bv_page bv)) segs.

(** The memory at [data + bio_iter_offset(bio, start)], [data] being
    the [vmap] of the pages of the fragments, which lays them out one
    behind the other. *)
Definition vmap_view (segs : list bio_vec) : list byte :=
  skipn (Z.to_nat (match segs with [] => 0 | bv :: _ => bv_offset bv end))
    (concat (map bv_page segs)).

(** The fragment lies inside its page of [PAGE_SIZE] bytes. *)
Definition in_page (PAGE_SIZE : Z) (bv : bio_vec) : Prop :=
  Z.of_nat (length (bv_page bv)) = PAGE_SIZE
  /\ 0 <= bv_offset bv
  /\ 0 <= bv_len bv
  /\ bv_offset bv + bv_len bv <= PAGE_SIZE.

(** The fragment ends where its page ends. *)
Definition ends_page (PAGE_SIZE : Z) (bv : bio_vec) : bool :=
  to_unsigned (bv_offset bv + bv_len bv) =? PAGE_SIZE.

(** * Formatting a device (libbcachefs.c of the tools)

    The arithmetic of [bch2_format]: the smallest device for a bucket
    size, the choice of a bucket size, and the placement of the two
    superblocks.  [die()] ends the process; a division by zero or a
    shift by a negative count is undefined in C and an ending of its
    own here. *)

Inductive death : Type :=
| TooSmall                (* "cannot format %s, too small" *)
| BucketBelowBlock        (* "Bucket size cannot be smaller than block size" *)
| BucketBelowBtreeNode    (* "Bucket size cannot be smaller than btree node size" *)
| NotEnoughBuckets        (* "Not enough buckets" *)
| NoSpaceForSuperblocks.  (* "insufficient space for superblocks" *)

Inductive ending (A : Type) : Type :=
| Returns (a : A)
| Dies (why : death)
| Undefined.

Arguments Returns {A} a.
Arguments Dies {A} why.
Arguments Undefined {A}.

Definition BCH_MIN_NR_NBUCKETS : Z := Z.shiftl 1 10.

(** The product is of an [int] and an [unsigned], so it is computed
    at 32 bits and widened afterwards. *)
Definition min_size (bucket_size : Z) : Z :=
  to_unsigned (BCH_MIN_NR_NBUCKETS * bucket_size).

(** [ilog2(n)] and [rounddown_pow_of_two(n)] of linux/log2.h, for
    [n >= 1]; for 0 the second shifts by -1. *)
Definition ilog2 (n : Z) : Z := Z.log2 n.
Definition rounddown_pow_of_two (n : Z) : Z := Z.shiftl 1 (Z.log2 n).

(** [round_up(x, y)] and [round_down(x, y)] for a [u64 x] and an
    [unsigned y]: the mask [y - 1] is computed at 32 bits and then
    widened to the type of [x]. *)
Definition round_mask (y : Z) : Z := to_unsigned (y - 1).

Definition round_up_u64 (x y : Z) : Z :=
  to_size_t (Z.lor (to_size_t (x - 1)) (round_mask y) + 1).

Definition round_down_u64 (x y : Z) : Z := Z.land x (Z.lnot (round_mask y)).

(** The fields of [struct bch_sb_layout] that [init_layout] sets to
    something other than zero or a constant; [sb_offset] holds the
    entries written, as numbers. *)
Record bch_sb_layout : Type := mk_layout {
  layout_type : Z;
  nr_superblocks : Z;
  sb_max_size_bits : Z;
  sb_offset : list Z
}.

(** The fields of [struct format_opts] and [struct dev_opts] the
    bucket arithmetic reads or writes; sizes are in sectors. *)
Record format_opts : Type := mk_format_opts {
  fo_block_size : Z;
  fo_btree_node_size : Z
}.

Record dev_opts : Type := mk_dev {
  dev_size : Z;
  dev_bucket_size : Z;
  dev_nbuckets : Z;
  dev_sb_offset : Z;
  dev_sb_end : Z
}.

(** The [do { bucket_size /= 2; } while (size < min_size(bucket_size))]
    of [bch2_pick_bucket_size], counting turns. *)
Fixpoint halve_bucket (fuel : nat) (size bucket_size : Z) : option Z :=
  match fuel with
  | O => None
  | S fuel' =>
      let bucket_size := bucket_size / 2 in
      if size <? min_size bucket_size then halve_bucket fuel' size bucket_size
      else Some bucket_size
  end.

Section Format.

(** [BCH_SB_SECTOR] comes from bcachefs_format.h; [device_sectors] is
    [get_size(dev->path, dev->fd) >> 9]. *)
Variable BCH_SB_SECTOR : Z.
Variable device_sectors : Z.

Definition init_layout (block_size start end_ : Z) : ending bch_sb_layout :=
  let start := if negb (start =? BCH_SB_SECTOR) then round_up_u64 start block_size
               else start in
  let end_ := round_down_u64 end_ block_size in
  if end_ <=? start then Dies NoSpaceForSuperblocks
  else
    let sb_size := to_unsigned (Z.min 128 (to_size_t (end_ - start / 2))) in
    let backup := to_size_t (start + sb_size) in
    let backup := round_up_u64 backup block_size in
    let backup := Z.min backup end_ in
    let sb_size := to_unsigned (Z.min (to_size_t (end_ - backup))
                                  (to_size_t (backup - start))) in
    if sb_size =? 0 then Undefined
    else
      let sb_size := rounddown_pow_of_two sb_size in
      if sb_size <? 8 then Dies NoSpaceForSuperblocks
      else Returns (mk_layout 0 2 (ilog2 sb_size) [start; backup]).

(** The bucket size chosen when the caller gave none. *)
Definition default_bucket_size (fuel : nat) (opts : format_opts) (size : Z)
  : option (ending Z) :=
  if size <? min_size (fo_block_size opts) then Some (Dies TooSmall)
  else
    let bucket_size := fo_block_size opts in
    let bucket_size := Z.max bucket_size (fo_btree_node_size opts) in
    let bucket_size := Z.max bucket_size 256 in
    if min_size bucket_size <=? size then
      if min_size bucket_size =? 0 then Some Undefined
      else
        let scale := to_unsigned (Z.max 1 (ilog2 (size / min_size bucket_size) / 4)) in
        let scale := to_unsigned (rounddown_pow_of_two scale) in
        Some (Returns (Z.min (to_unsigned (bucket_size * scale)) (Z.shiftl 1 11)))
    else
      match halve_bucket fuel size bucket_size with
      | None => None
      | Some bucket_size => Some (Returns bucket_size)
      end.

Definition bch2_pick_bucket_size (fuel : nat) (opts : format_opts) (dev : dev_opts)
  : option (ending dev_opts) :=
  let dev := if dev_sb_offset dev =? 0
             then mk_dev (dev_size dev) (dev_bucket_size dev) (dev_nbuckets dev)
                    BCH_SB_SECTOR (BCH_SB_SECTOR + 256)
             else dev in
  let size := if dev_size dev =? 0 then device_sectors else dev_size dev in
  match (if dev_bucket_size dev =? 0 then default_bucket_size fuel opts size
         else Some (Returns (dev_bucket_size dev))) with
  | None => None
  | Some (Dies why) => Some (Dies why)
  | Some Undefined => Some Undefined
  | Some (Returns bucket_size) =>
      if bucket_size =? 0 then Some Undefined
      else
        let nbuckets := size / bucket_size in
        if bucket_size <? fo_block_size opts then Some (Dies BucketBelowBlock)
        else if bucket_size <? fo_btree_node_size opts then
          Some (Dies BucketBelowBtreeNode)
        else if nbuckets <? BCH_MIN_NR_NBUCKETS then Some (Dies NotEnoughBuckets)
        else Some (Returns (mk_dev size bucket_size nbuckets
                              (dev_sb_offset dev) (dev_sb_end dev)))
  end.

End Format.

(** ** Small codecs

    Stand-ins for the three libraries, small enough to run: deflate
    restricted to stored blocks (RFC 1951, section 3.2.4) in the zlib
    slot, and a codec that writes a run of zero bytes as its length in
    the lz4 and zstd slots.  They keep to the calling conventions of
    the libraries. *)

Module Toy.

Definition Z_BUF_ERROR : Z := -5.
Definition Z_DATA_ERROR : Z := -3.

Definition le16 (v : Z) : list byte := [byte_of_Z v; byte_of_Z (v / 2 ^ 8)].

(** The stored blocks for [data], at most 65535 bytes each. *)
Fixpoint stored_blocks (fuel : nat) (data : list byte) : list byte :=
  match fuel with
  | O => []
  | S fuel' =>
      let n := Z.min (Z.of_nat (length data)) 65535 in
      let final := Z.of_nat (length data) <=? 65535 in
      [if final then x01 else x00]
        ++ le16 n ++ le16 (65535 - n) ++ firstn (Z.to_nat n) data
        ++ (if final then [] else stored_blocks fuel' (skipn (Z.to_nat n) data))
  end.

Definition deflate_stored (src : list byte) (avail_in avail_out : Z) : deflated :=
  let data := window 0 avail_in src in
  let out := stored_blocks (S (Z.to_nat (Z.of_nat (length data) / 65535))) data in
  if Z.of_nat (length out) <=? avail_out
  then mk_deflated Z_STREAM_END Z_OK (Z.of_nat (length out)) out
  else mk_deflated Z_OK Z_OK avail_out (firstn (Z.to_nat avail_out) out).

Fixpoint inflate_blocks (fuel : nat) (input : list byte) (avail_out : Z)
    (acc : list byte) : codec_ret :=
  match fuel with
  | O => mk_codec_ret Z_BUF_ERROR acc
  | S fuel' =>
      match input with
      | hdr :: l0 :: l1 :: n0 :: n1 :: rest =>
          let len := Z_of_byte l0 + 2 ^ 8 * Z_of_byte l1 in
          let nlen := Z_of_byte n0 + 2 ^ 8 * Z_of_byte n1 in
          if negb (Z.land (Z.shiftr (Z_of_byte hdr) 1) 3 =? 0) then
            mk_codec_ret Z_DATA_ERROR acc
          else if negb (len + nlen =? 65535) then mk_codec_ret Z_DATA_ERROR acc
          else if Z.of_nat (length rest) <? len then mk_codec_ret Z_BUF_ERROR acc
          else if avail_out <? Z.of_nat (length acc) + len then
            mk_codec_ret Z_BUF_ERROR acc
          else
            let acc' := acc ++ firstn (Z.to_nat len) rest in
            if Z.testbit (Z_of_byte hdr) 0 then mk_codec_ret Z_STREAM_END acc'
            else inflate_blocks fuel' (skipn (Z.to_nat len) rest) avail_out acc'
      | _ => mk_codec_ret Z_BUF_ERROR acc
      end
  end.

Definition inflate_stored (src : list byte) (avail_in avail_out : Z) : codec_ret :=
  let input := window 0 avail_in src in
  inflate_blocks (length input) input avail_out [].

Definition is_zero (x : byte) : bool := Byte.eqb x x00.

Definition encode (data : list byte) : list byte :=
  if forallb is_zero data then x00 :: cpu_to_le32 (Z.of_nat (length data))
  else x01 :: data.

Definition decode (frame : list byte) : option (list byte) :=
  match frame with
  | x00 :: rest =>
      if (length rest =? 4)%nat then Some (repeat x00 (Z.to_nat (le32_to_cpup rest)))
      else None
  | x01 :: rest => Some rest
  | _ => None
  end.

(** zstd reports an error as a [size_t] just below [2 ^ 64]. *)
Definition zstd_error (code : Z) : Z := 2 ^ 64 - code.
Definition isError (len : Z) : bool := 2 ^ 64 - 120 <? len.

Definition compressCCtx (src : list byte) (srcSize dstCapacity : Z) : codec_ret :=
  let frame := encode (window 0 srcSize src) in
  if Z.of_nat (length frame) <=? dstCapacity
  then mk_codec_ret (Z.of_nat (length frame)) frame
  else mk_codec_ret (zstd_error 70) [].

Definition decompressDCtx (src : list byte) (srcSize dstCapacity : Z) : codec_ret :=
  match decode (window 0 srcSize src) with
  | Some out =>
      if Z.of_nat (length out) <=? dstCapacity
      then mk_codec_ret (Z.of_nat (length out)) out
      else mk_codec_ret (zstd_error 70) []
  | None => mk_codec_ret (zstd_error 20) []
  end.

Definition decompress_safe_partial (src : list byte)
    (compressedSize targetOutputSize dstCapacity : Z) : codec_ret :=
  match decode (window 0 compressedSize src) with
  | Some out =>
      let out := firstn (Z.to_nat (Z.min targetOutputSize dstCapacity)) out in
      mk_codec_ret (Z.of_nat (length out)) out
  | None => mk_codec_ret (-1) []
  end.

Definition compress_destSize (src : list byte) (srcSize targetDstSize : Z)
  : lz4_compressed :=
  let frame := encode (window 0 srcSize src) in
  if Z.of_nat (length frame) <=? targetDstSize
  then mk_lz4_compressed (Z.of_nat (length frame)) srcSize frame
  else
    let frame := x01 :: window 0 (targetDstSize - 1) src in
    mk_lz4_compressed (Z.of_nat (length frame)) (targetDstSize - 1) frame.

Definition lib : codec_lib :=
  mk_codec_lib decompress_safe_partial inflate_stored decompressDCtx
    compress_destSize deflate_stored compressCCtx isError.

(** Every allocation succeeds at the first tier. *)
Definition mem : alloc_env :=
  mk_alloc (fun _ => true) (fun _ => true) (fun _ => true) (fun _ => true) true
    (fun _ => []).

(** A filesystem with 512-byte blocks, extents of at most 128
    sectors, every pool in place and all three codec features set. *)
Definition fs : bch_fs :=
  mk_fs 7 128 7 1 (fun _ => Some 65536) (fun _ => Some 65536) (Some 65536) 65536 false.

(** The same before any codec was used. *)
Definition fresh_fs : bch_fs :=
  mk_fs 0 128 0 1 (fun _ => None) (fun _ => None) None 0 false.

Definition format : bch_format :=
  mk_format 0 1 2 16384 270000 43000 (fun _ => 500000) 160000 (fun _ => 4).

Definition zeros (n : nat) : list byte := repeat x00 n.

Definition bio_of (data : list byte) : bio :=
  mk_bio (Z.of_nat (length data)) data SingleVec 1 16.

End Toy.

(** ** Vocabulary of the statements *)

(** The codec calls of a search, each on a strictly smaller source
    than the one before. *)
Definition decreasing (attempts : list (Z * Z)) : Prop :=
  StronglySorted (fun a a' => fst a' < fst a) attempts.

(** What holds at the head of every turn of the search loop that
    started with [dst_len] bytes of room. *)
Definition loop_inv (dst_len : Z) (st : loop_state) : Prop :=
  l_dst_len st = dst_len
  /\ 0 <= l_src_len st < 2 ^ 32
  /\ decreasing (l_attempts st)
  /\ Forall (fun a => l_src_len st < fst a) (l_attempts st).

(** [x] rounded down and up to a multiple of [bb]. *)
Definition align_down (x bb : Z) : Z := bb * (x / bb).
Definition align_up (x bb : Z) : Z := bb * ((x + bb - 1) / bb).

(** A search that is offered one byte less than its two blocks of
    source, on data the codec cannot shrink. *)
Definition two_blocks : bio := Toy.bio_of (repeat x07 1024).
Definition one_byte_short : bio := Toy.bio_of (repeat xff 1023).

(** The destination buffer once the padding is written. *)
Definition padded (c : bch_fs) (st : loop_state) : list byte :=
  memset0 (Z.to_nat (l_dst_len st))
    (Z.to_nat (to_unsigned (round_up (l_dst_len st) (block_bytes c) - l_dst_len st)))
    (l_dst st).

(** The state a search was left in, [d] if it was not left. *)
Definition left_in (o : option (outcome (loop_end * loop_state))) (d : loop_state)
  : loop_state :=
  match o with
  | Some (Ret (_, st)) => st
  | _ => d
  end.

(** Two blocks the toy codec cannot shrink, with four blocks of room. *)
Definition dense_blocks : bio := Toy.bio_of (repeat x07 1024).
Definition roomy : bio := Toy.bio_of (repeat xff 2048).

Definition dense_search : option (outcome (loop_end * loop_state)) :=
  compress_loop Toy.lib 4 (block_bytes Toy.fs) BCH_COMPRESSION_ZSTD
    (bi_data dense_blocks)
    (mk_loop (bi_size dense_blocks) (bi_size roomy) (bi_data roomy) []).

(** Two blocks of zero bytes. *)
Definition zero_blocks : bio := Toy.bio_of (Toy.zeros 1024).

(** Every codec call so far was on at most [cap] bytes of source with
    [room] bytes of room, and so is the next. *)
Definition within (cap room : Z) (st : loop_state) : Prop :=
  l_dst_len st = room
  /\ 0 <= l_src_len st <= cap
  /\ Forall (fun a => fst a <= cap /\ snd a = room) (l_attempts st).

(** Four blocks of source, in a filesystem whose extents hold two. *)
Definition small_extents : bch_fs :=
  mk_fs 7 2 7 1 (fun _ => Some 1024) (fun _ => Some 1024) (Some 1024) 1024 false.
Definition four_blocks : bio := Toy.bio_of (Toy.zeros 2048).

(** Decompression as the specification has it: the destination
    receives exactly [uncompressed_size] bytes and the call succeeds,
    or the call fails with -EIO. *)
Definition fills_or_fails (crc : bch_extent_crc_unpacked) (r : uncompressed) : Prop :=
  (u_ret r = 0 /\ Z.of_nat (length (u_stored r)) = uncompress_dst_len crc)
  \/ u_ret r = - EIO.

(** One sector of zstd payload whose length prefix says 1000. *)
Definition overlong_prefix : bio := Toy.bio_of (cpu_to_le32 1000 ++ Toy.zeros 508).
Definition one_sector_zstd : bch_extent_crc_unpacked :=
  mk_crc 0 BCH_COMPRESSION_ZSTD 1 1 0 1 (mk_csum 0 0).
Definition one_sector : bio := Toy.bio_of (repeat xff 512).

(** One sector holding a deflate stream that is a single, final,
    empty stored block. *)
Definition empty_stream : bio :=
  Toy.bio_of ([x01; x00; x00; xff; xff] ++ Toy.zeros 507).
Definition one_sector_gzip : bch_extent_crc_unpacked :=
  mk_crc 0 BCH_COMPRESSION_GZIP 1 1 0 1 (mk_csum 0 0).

(** One sector of zstd payload as the compressor writes it for two
    blocks of zero bytes. *)
Definition zero_payload : bio :=
  Toy.bio_of (cpu_to_le32 5 ++ [x00] ++ cpu_to_le32 1024 ++ Toy.zeros 503).
Definition two_sectors_zstd : bch_extent_crc_unpacked :=
  mk_crc 0 BCH_COMPRESSION_ZSTD 1 2 0 2 (mk_csum 0 0).

(** The codec whose row of [compression_types] carries the feature
    of a compression option. *)
Definition codec_of_opt (o : bch_compression_opt) : bch_compression_type :=
  match o with
  | BCH_COMPRESSION_OPT_NONE => BCH_COMPRESSION_NONE
  | BCH_COMPRESSION_OPT_LZ4 => BCH_COMPRESSION_LZ4
  | BCH_COMPRESSION_OPT_GZIP => BCH_COMPRESSION_GZIP
  | BCH_COMPRESSION_OPT_ZSTD => BCH_COMPRESSION_ZSTD
  end.

(** Everything a codec borrows from exists. *)
Definition pools_ready (c : bch_fs) (t : bch_compression_type) : Prop :=
  mempool_initialized (compression_bounce c READ) = true
  /\ mempool_initialized (compression_bounce c WRITE) = true
  /\ mempool_initialized (compress_workspace c t) = true
  /\ mempool_initialized (decompress_workspace c) = true.

Definition is_pool_init (e : gate_event) : Prop :=
  match e with
  | EvPoolInit _ _ _ => True
  | _ => False
  end.

(** [c'] is [c] with, possibly, more pools: the feature words and the
    lock are the same and no pool went away. *)
Definition more_pools (c c' : bch_fs) : Prop :=
  disk_sb_features c' = disk_sb_features c
  /\ sb_features c' = sb_features c
  /\ sb_lock c' = sb_lock c
  /\ forall q, mempool_initialized (get_pool c q) = true ->
               mempool_initialized (get_pool c' q) = true.

(** The three feature bits fit the [int] that [1 << feature] is. *)
Definition format_ok (fmt : bch_format) : bool :=
  (0 <=? BCH_FEATURE_LZ4 fmt) && (BCH_FEATURE_LZ4 fmt <? 31)
  && (0 <=? BCH_FEATURE_GZIP fmt) && (BCH_FEATURE_GZIP fmt <? 31)
  && (0 <=? BCH_FEATURE_ZSTD fmt) && (BCH_FEATURE_ZSTD fmt <? 31).

(** Allocations that succeed, with a superblock write that fails or
    not. *)
Definition failing_flush : gate_env := mk_gate_env (fun _ _ => 0) (- EIO).
Definition no_memory : gate_env := mk_gate_env (fun _ _ => - ENOMEM) 0.

(** The metadata of an extent once it is stored uncompressed. *)
Definition uncompressed_crc (crc : bch_extent_crc_unpacked) : bch_extent_crc_unpacked :=
  mk_crc 0 BCH_COMPRESSION_NONE (live_size crc) (live_size crc) 0 (live_size crc)
    (mk_csum 0 0).

(** A checksummed zstd extent of one sector. *)
Definition garbage_zstd_crc : bch_extent_crc_unpacked :=
  mk_crc 1 BCH_COMPRESSION_ZSTD 1 1 0 1 (mk_csum 5 6).

(** Some tier of [__bounce_alloc] answers. *)
Definition alloc_available (mem : alloc_env) (size : Z) (rw : rw_t) : bool :=
  kmalloc_ok mem size || mempool_nowait_ok mem rw
  || vmalloc_ok mem size || mempool_noio_ok mem rw.

(** An allocator under pressure: only the bounce pools answer. *)
Definition tight_mem : alloc_env :=
  mk_alloc (fun _ => false) (fun _ => true) (fun _ => false) (fun _ => true) false
    (fun _ => [x2a; x2a]).

(** One sector spread over fragments that cannot be mapped in place. *)
Definition scattered : bio := mk_bio 512 (Toy.zeros 512) Scattered 2 16.

(** The codec id the wrapper passes on. *)
Definition current_id (t : bch_compression_type) : bch_compression_type :=
  if compression_type_eqb t BCH_COMPRESSION_LZ4_OLD then BCH_COMPRESSION_LZ4 else t.

(** The codec call of a turn on [src_len] bytes with [dst_len] bytes
    of room did not answer with a negative length. *)
Definition answers_length (lib : codec_lib) (t : bch_compression_type)
    (src : list byte) (src_len dst_len : Z) : Prop :=
  match t with
  | BCH_COMPRESSION_LZ4 =>
      0 <= to_int (lz4_ret (LZ4_compress_destSize lib src (to_int src_len)
                              (to_int dst_len)))
  | BCH_COMPRESSION_GZIP =>
      0 <= to_int (total_out (zlib_deflate lib src (to_unsigned src_len)
                                (to_unsigned dst_len)))
  | BCH_COMPRESSION_ZSTD =>
      0 <= to_int (to_size_t (c_ret (ZSTD_compressCCtx lib src src_len
                                       (to_size_t (dst_len - 4)))) + 4)
  | _ => False
  end.

Definition pool_id_eqb (p q : pool_id) : bool :=
  match p, q with
  | BouncePool x, BouncePool y => rw_eqb x y
  | CompressPool t, CompressPool u => compression_type_eqb t u
  | DecompressPool, DecompressPool => true
  | _, _ => false
  end.

(** The pool an event is about. *)
Definition ev_pool (e : gate_event) : option pool_id :=
  match e with
  | EvPoolInit p _ _ => Some p
  | _ => None
  end.

(** Everything of the filesystem state but the pools and the zstd
    parameters is the same. *)
Definition same_words (c c' : bch_fs) : Prop :=
  sb_features c' = sb_features c
  /\ sb_encoded_extent_max c' = sb_encoded_extent_max c
  /\ disk_sb_features c' = disk_sb_features c
  /\ opts_block_size c' = opts_block_size c
  /\ sb_lock c' = sb_lock c.

(** What a stretch of pool set-up that went from [c] to [c'] with the
    value [ret] and the events [evs] has done: it touched nothing but
    pools, every pool is as it was or was missing and is there now,
    every event is the one initialisation of a pool that was missing,
    and only a stretch that fails has a failed initialisation. *)
Definition setup_inv (c : bch_fs) (ret : Z) (c' : bch_fs) (evs : list gate_event)
  : Prop :=
  same_words c c'
  /\ zstd_params c' = zstd_params c
  /\ (forall q, get_pool c' q = get_pool c q
                \/ (get_pool c q = None
                    /\ exists size, get_pool c' q = Some size
                                    /\ In (EvPoolInit q size 0) evs))
  /\ (forall e, In e evs ->
                exists q size r,
                  e = EvPoolInit q size r /\ get_pool c q = None
                  /\ (r = 0 -> get_pool c' q = Some size)
                  /\ (r <> 0 -> ret = r))
  /\ NoDup (map ev_pool evs)
  /\ (ret <> 0 -> In ret (map (fun e => match e with
                                         | EvPoolInit _ _ r => r
                                         | _ => 0
                                         end) evs)).

(** The element size [__bch2_fs_compress_init] gives each pool. *)
Definition intended_size (fmt : bch_format) (max_extent : Z) (p : pool_id) : Z :=
  match p with
  | BouncePool _ => get_order fmt max_extent
  | CompressPool BCH_COMPRESSION_LZ4 => LZ4_MEM_COMPRESS fmt
  | CompressPool BCH_COMPRESSION_GZIP => zlib_deflate_workspacesize fmt
  | CompressPool BCH_COMPRESSION_ZSTD => ZSTD_CCtxWorkspaceBound fmt max_extent
  | CompressPool _ => 0
  | DecompressPool =>
      Z.max (Z.max (Z.max 0 0) (zlib_inflate_workspacesize fmt))
        (ZSTD_DCtxWorkspaceBound fmt)
  end.

Definition has_bit (features bit : Z) : bool :=
  negb (Z.land features (feature_mask bit) =? 0).

(** The pools a set of feature bits asks for. *)
Definition wanted (fmt : bch_format) (features : Z) (p : pool_id) : bool :=
  match p with
  | CompressPool BCH_COMPRESSION_LZ4 => has_bit features (BCH_FEATURE_LZ4 fmt)
  | CompressPool BCH_COMPRESSION_GZIP => has_bit features (BCH_FEATURE_GZIP fmt)
  | CompressPool BCH_COMPRESSION_ZSTD => has_bit features (BCH_FEATURE_ZSTD fmt)
  | CompressPool _ => false
  | BouncePool _ | DecompressPool =>
      has_bit features (BCH_FEATURE_LZ4 fmt)
      || has_bit features (BCH_FEATURE_GZIP fmt)
      || has_bit features (BCH_FEATURE_ZSTD fmt)
  end.

(** An allocator that answers every [mempool_init_*] with success. *)
Definition plenty : gate_env := mk_gate_env (fun _ _ => 0) 0.

(** The second of the two sectors a one-sector zstd payload expands
    to. *)
Definition second_sector_zstd : bch_extent_crc_unpacked :=
  mk_crc 0 BCH_COMPRESSION_ZSTD 1 2 1 1 (mk_csum 0 0).

(** A device of 256 MiB and one of 1 GiB, in sectors, with nothing
    chosen yet, and the options of a format with 4 KiB blocks and
    256 KiB btree nodes. *)
Definition small_device : dev_opts := mk_dev 524288 0 0 0 0.
Definition blank_device : dev_opts := mk_dev 2097152 0 0 0 0.
Definition usual_opts : format_opts := mk_format_opts 8 512.

(** Options with blocks of 2 GiB, in sectors. *)
Definition huge_blocks : format_opts := mk_format_opts 4194304 512.

(** Two pages of four bytes. *)
Definition page_a : list byte := [x01; x02; x03; x04].
Definition page_b : list byte := [x05; x06; x07; x08].

(** * Properties *)

(** ** C integers *)

Lemma to_size_t_small z : 0 <= z < 2 ^ 64 -> to_size_t z = z.
Proof. intros H. unfold to_size_t, wrap. now apply Z.mod_small. Qed.

Lemma to_int_small z : - 2 ^ 31 <= z < 2 ^ 31 -> to_int z = z.
Proof.
  intros H. unfold to_int, swrap.
  change (32 - 1) with 31.
  rewrite Z.mod_small; lia.
Qed.

Lemma to_unsigned_small z : 0 <= z < 2 ^ 32 -> to_unsigned z = z.
Proof. intros H. unfold to_unsigned, wrap. now apply Z.mod_small. Qed.

Lemma to_size_t_range z : 0 <= to_size_t z < 2 ^ 64.
Proof. unfold to_size_t, wrap. apply Z.mod_pos_bound. lia. Qed.

Lemma to_int_range z : - 2 ^ 31 <= to_int z < 2 ^ 31.
Proof.
  unfold to_int, swrap. change (32 - 1) with 31.
  pose proof (Z.mod_pos_bound (z + 2 ^ 31) (2 ^ 32) ltac:(lia)). lia.
Qed.

(** For a power of two the masks are the usual floor and ceiling. *)
Lemma round_down_pow2 x k :
  0 <= k -> round_down x (2 ^ k) = 2 ^ k * (x / 2 ^ k).
Proof.
  intros Hk. unfold round_down.
  rewrite <- Z.ldiff_land.
  replace (2 ^ k - 1) with (Z.ones k) by (rewrite Z.ones_equiv; lia).
  rewrite Z.ldiff_ones_r by assumption.
  rewrite Z.shiftl_mul_pow2, Z.shiftr_div_pow2 by assumption. lia.
Qed.

Lemma round_down_le x k : 0 <= k -> 0 <= x -> 0 <= round_down x (2 ^ k) <= x.
Proof.
  intros Hk Hx. rewrite round_down_pow2 by assumption.
  assert (0 < 2 ^ k) by (apply Z.pow_pos_nonneg; lia).
  pose proof (Z.mul_div_le x (2 ^ k) ltac:(lia)).
  pose proof (Z.div_pos x (2 ^ k) ltac:(lia) ltac:(lia)).
  nia.
Qed.

Lemma round_down_mod x k : 0 <= k -> round_down x (2 ^ k) mod 2 ^ k = 0.
Proof.
  intros Hk. rewrite round_down_pow2 by assumption.
  rewrite Z.mul_comm. apply Z.mod_mul.
  assert (0 < 2 ^ k) by (apply Z.pow_pos_nonneg; lia). lia.
Qed.

Lemma lor_ones a k :
  0 <= k -> 0 <= a -> Z.lor a (2 ^ k - 1) = 2 ^ k * (a / 2 ^ k) + (2 ^ k - 1).
Proof.
  intros Hk Ha.
  assert (Hp : 0 < 2 ^ k) by (apply Z.pow_pos_nonneg; lia).
  replace (2 ^ k - 1) with (Z.ones k) by (rewrite Z.ones_equiv; lia).
  pose proof (Z.add_lor_land a (Z.ones k)) as E.
  rewrite Z.land_ones in E by assumption.
  pose proof (Z.div_mod a (2 ^ k) ltac:(lia)). lia.
Qed.

Lemma round_up_pow2 x k :
  0 <= k -> 0 < x -> 2 ^ k * ((x - 1) / 2 ^ k) + 2 ^ k < 2 ^ 64 ->
  round_up x (2 ^ k) = 2 ^ k * ((x - 1) / 2 ^ k) + 2 ^ k.
Proof.
  intros Hk Hx Hb. unfold round_up.
  assert (Hp : 0 < 2 ^ k) by (apply Z.pow_pos_nonneg; lia).
  assert (Hq : 0 <= (x - 1) / 2 ^ k) by (apply Z.div_pos; lia).
  assert (Hx1 : 0 <= x - 1 < 2 ^ 64).
  { pose proof (Z.mul_div_le (x - 1) (2 ^ k) ltac:(lia)).
    pose proof (Z.mod_pos_bound (x - 1) (2 ^ k) ltac:(lia)).
    pose proof (Z.div_mod (x - 1) (2 ^ k) ltac:(lia)). lia. }
  rewrite (to_size_t_small (x - 1)) by assumption.
  rewrite lor_ones by lia.
  rewrite to_size_t_small; nia.
Qed.

(** ** Buffers *)

Lemma length_write_at off data buf :
  length (write_at off data buf) = length buf.
Proof.
  unfold write_at.
  rewrite !length_app, !length_firstn, length_skipn. lia.
Qed.

Lemma write_at_fits off data buf :
  (off + length data <= length buf)%nat ->
  write_at off data buf = firstn off buf ++ data ++ skipn (off + length data) buf.
Proof.
  intros H. unfold write_at.
  rewrite (firstn_all2 data) by lia. reflexivity.
Qed.

Lemma nth_error_write_at off data buf i :
  nth_error (write_at off data buf) i =
  if ((off <=? i) && (i <? off + length data) && (i <? length buf))%nat
  then nth_error data (i - off)
  else nth_error buf i.
Proof.
  destruct (Nat.ltb_spec i (length buf)) as [Hib | Hib].
  - unfold write_at. rewrite Bool.andb_true_r.
    destruct (Nat.leb_spec off i) as [Hoi | Hoi]; cbn [andb].
    + rewrite nth_error_app2 by (rewrite length_firstn; lia).
      rewrite length_firstn, Nat.min_l by lia.
      destruct (Nat.ltb_spec i (off + length data)) as [Hid | Hid].
      * rewrite nth_error_app1 by (rewrite length_firstn; lia).
        rewrite nth_error_firstn.
        destruct (Nat.ltb_spec (i - off) (length buf - off)); [reflexivity | lia].
      * rewrite nth_error_app2 by (rewrite length_firstn; lia).
        rewrite length_firstn, Nat.min_r by lia.
        rewrite nth_error_skipn. f_equal. lia.
    + rewrite nth_error_app1 by (rewrite length_firstn; lia).
      rewrite nth_error_firstn.
      destruct (Nat.ltb_spec i off); [reflexivity | lia].
  - rewrite Bool.andb_false_r.
    transitivity (@None byte).
    + apply nth_error_None. rewrite length_write_at. lia.
    + symmetry. apply nth_error_None. lia.
Qed.

Lemma write_at_whole data buf :
  length data = length buf -> write_at 0 data buf = data.
Proof.
  intros H. rewrite write_at_fits by (cbn; lia). cbn.
  rewrite H, skipn_all, app_nil_r. reflexivity.
Qed.

Lemma length_sized n junk : length (sized n junk) = n.
Proof.
  unfold sized. rewrite length_firstn, length_app, repeat_length. lia.
Qed.

Lemma Z_of_byte_of_Z z : Z_of_byte (byte_of_Z z) = z mod 256.
Proof.
  unfold Z_of_byte, byte_of_Z.
  pose proof (Z.mod_pos_bound z 256 ltac:(lia)) as Hb.
  destruct (Byte.of_N (Z.to_N (z mod 256))) as [x |] eqn:E.
  - apply Byte.to_of_N in E. rewrite E. lia.
  - apply Byte.of_N_None_iff in E. lia.
Qed.

Lemma Z_of_byte_range x : 0 <= Z_of_byte x < 256.
Proof.
  unfold Z_of_byte.
  pose proof (Byte.to_N_bounded x). lia.
Qed.

Lemma le32_roundtrip v rest :
  le32_to_cpup (cpu_to_le32 v ++ rest) = v mod 2 ^ 32.
Proof.
  unfold le32_to_cpup, cpu_to_le32. cbn [app nth].
  rewrite !Z_of_byte_of_Z.
  change (2 ^ 16) with (2 ^ 8 * 2 ^ 8).
  change (2 ^ 24) with (2 ^ 8 * 2 ^ 8 * 2 ^ 8).
  change (2 ^ 32) with (2 ^ 8 * 2 ^ 8 * 2 ^ 8 * 2 ^ 8).
  change (2 ^ 8) with 256.
  rewrite <- !Z.div_div by lia.
  pose proof (Z.div_mod v 256 ltac:(lia)).
  pose proof (Z.div_mod (v / 256) 256 ltac:(lia)).
  pose proof (Z.div_mod (v / 256 / 256) 256 ltac:(lia)).
  pose proof (Z.div_mod (v / 256 / 256 / 256) 256 ltac:(lia)).
  pose proof (Z.mod_pos_bound v 256 ltac:(lia)).
  pose proof (Z.mod_pos_bound (v / 256) 256 ltac:(lia)).
  pose proof (Z.mod_pos_bound (v / 256 / 256) 256 ltac:(lia)).
  pose proof (Z.mod_pos_bound (v / 256 / 256 / 256) 256 ltac:(lia)).
  apply Z.mod_unique with (q := v / 256 / 256 / 256 / 256); lia.
Qed.


(** ** Decompression in place *)

(** C10: when [bch2_bio_uncompress_inplace] returns, its value is 0 or
    -EIO; a nonzero value leaves [*crc] (and the bio) exactly as they
    were, and this is what happens for an extent larger than
    [encoded_extent_max] and for a decompression error; the metadata
    is rewritten to the uncompressed state only together with the
    value 0. *)
Theorem uncompress_inplace_failure_keeps_crc
    (lib : codec_lib) (mem : alloc_env) (PAGE_SECTORS : Z)
    (c : bch_fs) (x : bio) (crc : bch_extent_crc_unpacked)
    (ret : Z) (x' : bio) (crc' : bch_extent_crc_unpacked) :
  bch2_bio_uncompress_inplace lib mem PAGE_SECTORS c x crc = Ret (ret, x', crc') ->
  (ret = 0 \/ ret = - EIO)
  /\ (ret <> 0 -> crc' = crc /\ x' = x)
  /\ (extent_too_big c crc = true -> ret = - EIO)
  /\ (forall data r,
        __bounce_alloc mem c (to_unsigned (uncompress_dst_len crc)) WRITE = Ret data ->
        __bio_uncompress lib mem c x (b data) crc = Ret r ->
        u_ret r <> 0 -> extent_too_big c crc = false -> ret = - EIO)
  /\ (ret = 0 -> crc' = uncompressed_crc crc).
Proof.
  unfold bch2_bio_uncompress_inplace, BUG_ON.
  destruct (bi_vcnt x =? 0); [discriminate |].
  destruct (bi_max_vecs x <? DIV_ROUND_UP (live_size crc) PAGE_SECTORS);
    [discriminate |].
  assert (Hne : - EIO <> 0) by (unfold EIO; lia).
  destruct (extent_too_big c crc) eqn:Hbig.
  - intros [= <- <- <-].
    split; [now right |]. split; [now split |]. split; [reflexivity |].
    split; [discriminate | contradiction].
  - destruct (__bounce_alloc mem c _ WRITE) as [data |] eqn:Ha;
      cbn [bind]; [| discriminate].
    destruct (__bio_uncompress lib mem c x (b data) crc) as [r |] eqn:Hu;
      cbn [bind]; [| discriminate].
    destruct (u_ret r =? 0) eqn:Hr; cbn [negb].
    + intros [= <- <- <-]. apply Z.eqb_eq in Hr.
      split; [now left |]. split; [contradiction |]. split; [discriminate |].
      split; [| reflexivity].
      intros data' r' [= <-] Hu'. rewrite Hu in Hu'. injection Hu' as <-.
      contradiction.
    + intros [= <- <- <-].
      split; [now right |]. split; [now split |]. split; [reflexivity |].
      split; [reflexivity | contradiction].
Qed.

Lemma uncompress_inplace_failure_keeps_crc_witness :
  bch2_bio_uncompress_inplace Toy.lib Toy.mem 8 Toy.fs
    (Toy.bio_of (Toy.zeros 512)) garbage_zstd_crc
  = Ret (- EIO, Toy.bio_of (Toy.zeros 512), garbage_zstd_crc)
  /\ (- EIO <> 0 ->
      garbage_zstd_crc = garbage_zstd_crc
      /\ Toy.bio_of (Toy.zeros 512) = Toy.bio_of (Toy.zeros 512)).
Proof.
  assert (E : bch2_bio_uncompress_inplace Toy.lib Toy.mem 8 Toy.fs
                (Toy.bio_of (Toy.zeros 512)) garbage_zstd_crc
              = Ret (- EIO, Toy.bio_of (Toy.zeros 512), garbage_zstd_crc))
    by (vm_compute; reflexivity).
  split; [exact E |].
  exact (proj1 (proj2 (uncompress_inplace_failure_keeps_crc _ _ _ _ _ _ _ _ _ E))).
Defined.

(** ** The compressor: one block or less *)

Lemma sectors_le_block (c : bch_fs) (n : Z) :
  n <= block_bytes c -> sectors n <= opts_block_size c.
Proof.
  unfold block_bytes, sectors. intros H.
  rewrite Z.shiftl_mul_pow2 in H by lia.
  rewrite Z.shiftr_div_pow2 by lia.
  rewrite <- (Z.div_mul (opts_block_size c) (2 ^ 9)) by lia.
  apply Z.div_le_mono; lia.
Qed.

Lemma set_bi_size_restore (n : Z) (x : bio) :
  set_bi_size (bi_size x) (set_bi_size n x) = x.
Proof. destruct x; reflexivity. Qed.

(** C8: a source of at most one block is declared incompressible: the
    call returns codec id 0 ([BCH_COMPRESSION_NONE]), no codec is
    invoked, and neither the bios nor the caller's lengths change.
    The codec's workspace pool has to exist, as the function asserts
    on entry. *)
Theorem compress_one_block_is_incompressible
    (lib : codec_lib) (mem : alloc_env) (fuel : nat) (c : bch_fs)
    (dst : bio) (dst_len : Z) (src : bio) (src_len : Z)
    (t : bch_compression_type) :
  bi_size src <= block_bytes c ->
  mempool_initialized
    (compress_workspace c
       (if compression_type_eqb t BCH_COMPRESSION_LZ4_OLD
        then BCH_COMPRESSION_LZ4 else t)) = true ->
  bch2_bio_compress lib mem fuel c dst dst_len src src_len t
  = Some (Ret (mk_compressed BCH_COMPRESSION_NONE dst_len src_len dst src []))
  /\ __bio_compress lib mem fuel c dst dst_len src src_len
       (if compression_type_eqb t BCH_COMPRESSION_LZ4_OLD
        then BCH_COMPRESSION_LZ4 else t)
     = Some (Ret (mk_compressed BCH_COMPRESSION_NONE dst_len src_len dst src [])).
Proof.
  intros Hsize Hpool.
  assert (Hs : forall n, n <= bi_size src -> (sectors n <=? opts_block_size c) = true).
  { intros n Hn. apply Z.leb_le. apply sectors_le_block. lia. }
  split.
  - unfold bch2_bio_compress, __bio_compress.
    rewrite Hpool. cbn [negb].
    rewrite Hs by (unfold clamp_src; cbn; lia).
    cbn [k_type k_dst_len k_src_len k_dst k_src k_attempts].
    unfold clamp_dst, clamp_src. rewrite !set_bi_size_restore. reflexivity.
  - unfold __bio_compress. rewrite Hpool. cbn [negb].
    rewrite Hs by lia. reflexivity.
Qed.

Lemma compress_one_block_is_incompressible_witness :
  bi_size (Toy.bio_of (Toy.zeros 512)) <= block_bytes Toy.fs
  /\ bch2_bio_compress Toy.lib Toy.mem 0 Toy.fs
       (Toy.bio_of (Toy.zeros 512)) 0 (Toy.bio_of (Toy.zeros 512)) 0
       BCH_COMPRESSION_LZ4_OLD
     = Some (Ret (mk_compressed BCH_COMPRESSION_NONE 0 0
                    (Toy.bio_of (Toy.zeros 512)) (Toy.bio_of (Toy.zeros 512)) [])).
Proof.
  assert (H : bi_size (Toy.bio_of (Toy.zeros 512)) <= block_bytes Toy.fs)
    by (vm_compute; discriminate).
  split; [exact H |].
  exact (proj1 (compress_one_block_is_incompressible Toy.lib Toy.mem 0 Toy.fs
                  (Toy.bio_of (Toy.zeros 512)) 0 (Toy.bio_of (Toy.zeros 512)) 0
                  BCH_COMPRESSION_LZ4_OLD H eq_refl)).
Defined.

(** ** The search loop *)

Lemma land_le (a y : Z) : 0 <= a -> 0 <= Z.land a y <= a.
Proof.
  intros Ha. split.
  - apply Z.land_nonneg. now left.
  - assert (E : Z.ldiff (Z.land a y) a = 0).
    { apply Z.bits_inj'. intros n Hn.
      rewrite Z.ldiff_spec, Z.land_spec, Z.bits_0.
      destruct (Z.testbit a n), (Z.testbit y n); reflexivity. }
    apply Z.ldiff_le in E; lia.
Qed.

Lemma round_down_bounds (x bb : Z) : 0 <= x -> 0 <= round_down x bb <= x.
Proof. intros Hx. unfold round_down. now apply land_le. Qed.

Section Loop.

Variable lib : codec_lib.


Lemma attempt_compress_int dst dst_len src src_len t ret dst' :
  attempt_compress lib dst dst_len src src_len t = Ret (ret, dst') ->
  - 2 ^ 31 <= ret < 2 ^ 31.
Proof.
  unfold attempt_compress. destruct t; try discriminate.
  - destruct (negb _); [| destruct (negb _)];
      intros [= <- <-]; try lia; apply to_int_range.
  - destruct (_ <? _); intros [= <- <-]; apply to_int_range.
  - destruct (ZSTD_isError _ _); intros [= <- <-]; try lia; apply to_int_range.
Qed.

(** What a turn that goes round again has established. *)
Lemma loop_body_again bb t src st st' :
  0 <= l_dst_len st ->
  0 <= l_src_len st < 2 ^ 32 ->
  loop_body lib bb t src st = Again st' ->
  exists ret dst',
    attempt_compress lib (l_dst st) (l_dst_len st) src (l_src_len st) t = Ret (ret, dst')
    /\ st' = mk_loop (next_src_len bb ret (l_src_len st) (l_dst_len st))
               (l_dst_len st) dst' (l_attempts st ++ [(l_src_len st, l_dst_len st)])
    /\ bb < l_src_len st
    /\ l_dst_len st < l_src_len st
    /\ - l_src_len st < ret <= 0
    /\ next_src_len bb ret (l_src_len st) (l_dst_len st)
       = round_down (if ret <? 0 then - ret
                     else l_src_len st - (l_src_len st - l_dst_len st) / 2) bb.
Proof.
  intros Hd Hs. unfold loop_body.
  destruct (Z.leb_spec (l_src_len st) bb) as [| Hbb]; [discriminate |].
  destruct (attempt_compress lib _ _ _ _ _) as [[ret dst'] |] eqn:Ha; [| discriminate].
  pose proof (attempt_compress_int _ _ _ _ _ _ _ Ha) as Hri.
  destruct (Z.ltb_spec 0 ret) as [| Hret]; [discriminate |].
  destruct (Z.leb_spec (l_src_len st) (l_dst_len st)) as [| Hgap]; [discriminate |].
  destruct (Z.leb_spec (l_src_len st) (to_size_t (to_int (- ret)))) as [| Hhint];
    [discriminate |].
  intros [= <-]. exists ret, dst'.
  assert (Hneg : - l_src_len st < ret /\ to_size_t (to_int (- ret)) = - ret).
  { destruct (Z.eq_dec ret (- 2 ^ 31)) as [-> | Hmin].
    - exfalso. revert Hhint. vm_compute (to_size_t (to_int (- - 2 ^ 31))). lia.
    - rewrite to_int_small in * by lia.
      rewrite to_size_t_small in * by lia. lia. }
  destruct Hneg as [Hlow Hh].
  repeat split; try lia.
  unfold next_src_len. rewrite Hh. f_equal.
  destruct (ret <? 0); [reflexivity |].
  assert (Hg : to_size_t (l_src_len st - l_dst_len st) = l_src_len st - l_dst_len st)
    by (apply to_size_t_small; lia).
  rewrite Hg. apply to_size_t_small.
  pose proof (Z.div_pos (l_src_len st - l_dst_len st) 2 ltac:(lia) ltac:(lia)).
  assert ((l_src_len st - l_dst_len st) / 2 <= l_src_len st - l_dst_len st)
    by (apply Z.div_le_upper_bound; lia).
  lia.
Qed.

Lemma next_src_len_le bb ret src_len dst_len :
  0 <= dst_len < src_len -> - src_len < ret <= 0 ->
  0 <= round_down (if ret <? 0 then - ret
                   else src_len - (src_len - dst_len) / 2) bb <= src_len.
Proof.
  intros Hd Hr.
  assert (0 <= (src_len - dst_len) / 2 <= src_len - dst_len).
  { split; [apply Z.div_pos; lia | apply Z.div_le_upper_bound; lia]. }
  destruct (ret <? 0).
  - pose proof (round_down_bounds (- ret) bb ltac:(lia)). lia.
  - pose proof (round_down_bounds (src_len - (src_len - dst_len) / 2) bb ltac:(lia)).
    lia.
Qed.

(** A property that every turn hands on holds of the state the last
    turn started from. *)
Lemma compress_loop_last (P : loop_state -> Prop) bb t src :
  (forall st st', P st -> loop_body lib bb t src st = Again st' -> P st') ->
  forall fuel st e st',
    P st ->
    compress_loop lib fuel bb t src st = Some (Ret (e, st')) ->
    exists st0, P st0 /\ loop_body lib bb t src st0 = Leave e st'.
Proof.
  intros Hstep. induction fuel as [| fuel IH]; intros st e st' HP; cbn.
  - discriminate.
  - destruct (loop_body lib bb t src st) as [e0 st0 | | st1] eqn:Hb.
    + intros [= <- <-]. now exists st.
    + discriminate.
    + intros H. eapply IH; [| exact H]. eapply Hstep; eassumption.
Qed.

(** How the loop can be left. *)
Lemma loop_body_leave bb t src st e st' :
  loop_body lib bb t src st = Leave e st' ->
  (e = GiveUp /\ st' = st /\ l_src_len st <= bb)
  \/ (exists ret dst',
        attempt_compress lib (l_dst st) (l_dst_len st) src (l_src_len st) t
        = Ret (ret, dst')
        /\ bb < l_src_len st
        /\ l_attempts st' = l_attempts st ++ [(l_src_len st, l_dst_len st)]
        /\ l_src_len st' = l_src_len st
        /\ l_dst st' = dst'
        /\ ((e = Fit /\ 0 < ret < 2 ^ 31 /\ l_dst_len st' = ret)
            \/ (e = GiveUp /\ l_dst_len st' = l_dst_len st))).
Proof.
  unfold loop_body.
  destruct (Z.leb_spec (l_src_len st) bb) as [Hbb | Hbb].
  - intros [= <- <-]. left. auto.
  - destruct (attempt_compress lib _ _ _ _ _) as [[ret dst'] |] eqn:Ha; [| discriminate].
    pose proof (attempt_compress_int _ _ _ _ _ _ _ Ha) as Hri.
    destruct (Z.ltb_spec 0 ret) as [Hret | Hret].
    + intros [= <- <-]. right. exists ret, dst'. cbn.
      repeat split; try lia. left. repeat split; try lia.
      apply to_size_t_small. lia.
    + destruct (l_src_len st <=? l_dst_len st).
      * intros [= <- <-]. right. exists ret, dst'. cbn.
        repeat split; try lia. right. auto.
      * destruct (_ <=? _); discriminate.
Qed.

End Loop.

(** ** Termination of the search *)

Lemma decreasing_snoc l a :
  decreasing l -> Forall (fun a' => fst a < fst a') l -> decreasing (l ++ [a]).
Proof.
  unfold decreasing. induction l as [| x l IH]; cbn; intros Hs Hf.
  - repeat constructor.
  - inversion Hs as [| ? ? Hs' Hx]; subst.
    inversion Hf as [| ? ? Hax Hf']; subst.
    constructor.
    + now apply IH.
    + apply Forall_app. split; [assumption |]. now repeat constructor.
Qed.

Section Termination.

Variable lib : codec_lib.
Variables (K bb dst_len : Z) (t : bch_compression_type) (src : list byte).
Hypothesis HK : 0 <= K.
Hypothesis Hbb : bb = 2 ^ K.
Hypothesis Hdst : 0 <= dst_len.
Hypothesis Hodd : (dst_len + 1) mod bb <> 0.

Lemma loop_turn_shrinks st st' :
  loop_inv dst_len st ->
  loop_body lib bb t src st = Again st' ->
  loop_inv dst_len st'
  /\ l_src_len st' < l_src_len st
  /\ l_src_len st' mod bb = 0
  /\ exists ret dst',
       attempt_compress lib (l_dst st) dst_len src (l_src_len st) t = Ret (ret, dst')
       /\ ret <= 0
       /\ l_src_len st'
          = align_down (if ret <? 0 then - ret
                        else l_src_len st - (l_src_len st - dst_len) / 2) bb.
Proof.
  intros (Hd & Hs & Hdec & Hall) Hturn.
  destruct (loop_body_again lib bb t src st st' ltac:(lia) Hs Hturn)
    as (ret & dst' & Ha & -> & Hfloor & Hgap & Hret & Hnext).
  rewrite Hd in *. cbn [l_src_len l_dst_len l_attempts].
  pose proof (next_src_len_le bb ret (l_src_len st) dst_len ltac:(lia) Hret) as Hle.
  rewrite <- Hnext in Hle.
  assert (Hp : 0 < 2 ^ K) by (apply Z.pow_pos_nonneg; lia).
  assert (Hlt : next_src_len bb ret (l_src_len st) dst_len < l_src_len st).
  { rewrite Hnext.
    assert (0 <= (l_src_len st - dst_len) / 2 <= l_src_len st - dst_len).
    { split; [apply Z.div_pos; lia | apply Z.div_le_upper_bound; lia]. }
    destruct (Z.ltb_spec ret 0).
    - pose proof (round_down_bounds (- ret) bb ltac:(lia)). lia.
    - pose proof (round_down_bounds
                    (l_src_len st - (l_src_len st - dst_len) / 2) bb ltac:(lia)).
      destruct (Z.eq_dec (l_src_len st - dst_len) 1) as [Hone | Hmore].
      + rewrite Hone. change (1 / 2) with 0.
        replace (l_src_len st - 0) with (dst_len + 1) by lia.
        rewrite Hbb, round_down_pow2 by assumption.
        pose proof (Z.div_mod (dst_len + 1) (2 ^ K) ltac:(lia)).
        pose proof (Z.mod_pos_bound (dst_len + 1) (2 ^ K) ltac:(lia)).
        rewrite Hbb in Hodd. lia.
      + assert (1 <= (l_src_len st - dst_len) / 2)
          by (apply Z.div_le_lower_bound; lia).
        lia. }
  split; [| split; [exact Hlt | split]].
  - unfold loop_inv. cbn [l_src_len l_dst_len l_attempts].
    split; [reflexivity |]. split; [lia |]. split.
    + apply decreasing_snoc; assumption.
    + apply Forall_app. split.
      * eapply Forall_impl; [| exact Hall]. cbn. intros a Ha'. lia.
      * repeat constructor. cbn. lia.
  - rewrite Hnext, Hbb. now apply round_down_mod.
  - exists ret, dst'. split; [exact Ha |]. split; [lia |].
    rewrite Hnext, Hbb. unfold align_down. now apply round_down_pow2.
Qed.

Lemma loop_leave_decreasing st e st' :
  loop_inv dst_len st ->
  loop_body lib bb t src st = Leave e st' ->
  decreasing (l_attempts st').
Proof.
  intros (Hd & Hs & Hdec & Hall) Hturn.
  destruct (loop_body_leave lib bb t src st e st' Hturn)
    as [(_ & -> & _) | (ret & dst' & _ & _ & -> & _)].
  - exact Hdec.
  - now apply decreasing_snoc.
Qed.

Lemma compress_loop_total n :
  forall st,
    loop_inv dst_len st ->
    l_src_len st <= Z.of_nat n ->
    exists out,
      compress_loop lib (S n) bb t src st = Some out
      /\ forall e st', out = Ret (e, st') -> decreasing (l_attempts st').
Proof.
  assert (Hp : 0 < bb) by (rewrite Hbb; apply Z.pow_pos_nonneg; lia).
  induction n as [| n IH]; intros st Hinv Hn.
  - cbn. destruct (loop_body lib bb t src st) as [e st' | | st'] eqn:Hturn.
    + eexists. split; [reflexivity |]. intros e' st'' [= <- <-].
      eapply loop_leave_decreasing; eassumption.
    + eexists. split; [reflexivity |]. discriminate.
    + exfalso.
      destruct (loop_turn_shrinks st st' Hinv Hturn) as ((_ & Hs' & _) & Hlt & _).
      lia.
  - cbn [compress_loop].
    destruct (loop_body lib bb t src st) as [e st' | | st'] eqn:Hturn.
    + eexists. split; [reflexivity |]. intros e' st'' [= <- <-].
      eapply loop_leave_decreasing; eassumption.
    + eexists. split; [reflexivity |]. discriminate.
    + destruct (loop_turn_shrinks st st' Hinv Hturn) as (Hinv' & Hlt & _).
      apply IH; [assumption | lia].
Qed.

End Termination.

(** A room that is a whole number of sectors is never one byte short
    of a multiple of the block size, the block being a whole number
    of sectors itself. *)
Lemma sector_aligned_room (K dst_len : Z) :
  9 <= K -> dst_len mod 2 ^ 9 = 0 -> (dst_len + 1) mod 2 ^ K <> 0.
Proof.
  intros HK Hsec Hodd.
  assert (Hsplit : 2 ^ K = 2 ^ 9 * 2 ^ (K - 9))
    by (rewrite <- Z.pow_add_r by lia; f_equal; lia).
  assert (Hp : 0 < 2 ^ (K - 9)) by (apply Z.pow_pos_nonneg; lia).
  apply Z.mod_divide in Hodd; [| lia].
  assert (Hdiv : (2 ^ 9 | dst_len + 1)).
  { apply Z.divide_trans with (2 ^ K); [| exact Hodd].
    exists (2 ^ (K - 9)). lia. }
  apply Z.mod_divide in Hdiv; [| lia].
  rewrite Z.add_mod, Hsec in Hdiv by lia.
  revert Hdiv. vm_compute. discriminate.
Qed.

(** C4: the search loop terminates.  Bios are made of sectors, so the
    room offered, [dst_len], is a whole number of sectors, and the
    block size [2 ^ K] bytes is one too.  Then the loop is left within
    [src_len + 1] turns, each codec call on a strictly smaller source
    than the one before.  A turn that does not leave the loop
    strictly decreases the attempt size, to the codec's hint or by
    half the gap between attempt size and room, rounded down to the
    block size; and once the attempt size is at most one block the
    loop is left and the result is Incompressible. *)
Theorem shrink_loop_terminates
    (lib : codec_lib) (K : Z) (t : bch_compression_type)
    (src dst : list byte) (src_len dst_len : Z) :
  9 <= K ->
  0 <= dst_len ->
  dst_len mod 2 ^ 9 = 0 ->
  0 <= src_len < 2 ^ 32 ->
  (exists out,
      compress_loop lib (S (Z.to_nat src_len)) (2 ^ K) t src
        (mk_loop src_len dst_len dst []) = Some out
      /\ forall e st', out = Ret (e, st') -> decreasing (l_attempts st'))
  /\ (forall st st',
        loop_inv dst_len st ->
        loop_body lib (2 ^ K) t src st = Again st' ->
        loop_inv dst_len st'
        /\ l_src_len st' < l_src_len st
        /\ l_src_len st' mod 2 ^ K = 0
        /\ exists ret dst',
             attempt_compress lib (l_dst st) dst_len src (l_src_len st) t
             = Ret (ret, dst')
             /\ ret <= 0
             /\ l_src_len st'
                = align_down (if ret <? 0 then - ret
                              else l_src_len st - (l_src_len st - dst_len) / 2)
                    (2 ^ K))
  /\ (forall st c dstb srcb ty,
        l_src_len st <= 2 ^ K ->
        loop_body lib (2 ^ K) t src st = Leave GiveUp st
        /\ exists r,
             compress_finish c dstb srcb ty t GiveUp st = Ret r
             /\ k_type r = BCH_COMPRESSION_NONE).
Proof.
  intros HK Hd Hsec Hs.
  pose proof (sector_aligned_room K dst_len HK Hsec) as Hodd.
  assert (HK0 : 0 <= K) by lia.
  split; [| split].
  - apply (compress_loop_total lib K (2 ^ K) dst_len t src HK0 eq_refl Hd Hodd).
    + unfold loop_inv. cbn. repeat split; try lia; constructor.
    + cbn. lia.
  - intros st st'.
    apply (loop_turn_shrinks lib K (2 ^ K) dst_len t src HK0 eq_refl Hd Hodd).
  - intros st c dstb srcb ty Hfloor. split.
    + unfold loop_body. apply Z.leb_le in Hfloor. now rewrite Hfloor.
    + eexists. split; reflexivity.
Qed.

Lemma shrink_loop_terminates_witness :
  1024 mod 2 ^ 9 = 0
  /\ exists out,
       compress_loop Toy.lib (S (Z.to_nat 2048)) (2 ^ 9) BCH_COMPRESSION_GZIP
         (bi_data four_blocks) (mk_loop 2048 1024 (bi_data roomy) [])
       = Some out
       /\ forall e st', out = Ret (e, st') -> decreasing (l_attempts st').
Proof.
  assert (H : 1024 mod 2 ^ 9 = 0) by (vm_compute; reflexivity).
  split; [exact H |].
  exact (proj1 (shrink_loop_terminates Toy.lib 9 BCH_COMPRESSION_GZIP
                  (bi_data four_blocks) (bi_data roomy) 2048 1024
                  ltac:(lia) ltac:(lia) H ltac:(lia))).
Defined.

(** The turn the search is stuck in: the codec reports that the data
    does not fit, there is no hint, half of a gap of one byte is
    nothing, and 1024 is a multiple of the block size. *)
Lemma stuck_turn (buf : list byte) (tried : list (Z * Z)) :
  exists buf',
    loop_body Toy.lib 512 BCH_COMPRESSION_GZIP (bi_data two_blocks)
      (mk_loop 1024 1023 buf tried)
    = Again (mk_loop 1024 1023 buf' (tried ++ [(1024, 1023)])).
Proof.
  unfold loop_body, attempt_compress.
  cbn [l_src_len l_dst_len l_dst l_attempts].
  change (zlib_deflate Toy.lib) with Toy.deflate_stored.
  set (r := Toy.deflate_stored (bi_data two_blocks) (to_unsigned 1024)
              (to_unsigned 1023)).
  assert (Hr : to_int (deflate_ret r) = Z_OK) by (vm_compute; reflexivity).
  rewrite Hr. eexists. reflexivity.
Qed.

Lemma stuck_forever (fuel : nat) :
  forall buf tried,
    compress_loop Toy.lib fuel 512 BCH_COMPRESSION_GZIP (bi_data two_blocks)
      (mk_loop 1024 1023 buf tried) = None.
Proof.
  induction fuel as [| fuel IH]; intros buf tried; cbn [compress_loop].
  - reflexivity.
  - destruct (stuck_turn buf tried) as (buf' & ->). apply IH.
Qed.

(** The termination of the search rests on the room being a whole
    number of sectors: with 512-byte blocks, 1024 bytes of source and
    a room of 1023 bytes, which no bio has, the search would never
    leave its loop, however many turns it is given. *)
Remark shrink_loop_can_spin :
  (1023 + 1) mod 2 ^ 9 = 0
  /\ forall fuel,
       __bio_compress Toy.lib Toy.mem fuel Toy.fs one_byte_short 0 two_blocks 0
         BCH_COMPRESSION_GZIP = None.
Proof.
  split; [reflexivity |]. intros fuel.
  unfold __bio_compress.
  change (compress_workspace Toy.fs BCH_COMPRESSION_GZIP) with (Some 65536).
  cbn [mempool_initialized negb].
  replace (sectors (bi_size two_blocks) <=? opts_block_size Toy.fs) with false
    by (vm_compute; reflexivity).
  replace (bio_map_or_bounce Toy.mem Toy.fs one_byte_short WRITE)
    with (Ret (mk_bbuf (bi_data one_byte_short) BB_NONE WRITE))
    by (vm_compute; reflexivity).
  replace (bio_map_or_bounce Toy.mem Toy.fs two_blocks READ)
    with (Ret (mk_bbuf (bi_data two_blocks) BB_NONE READ))
    by (vm_compute; reflexivity).
  cbn [b type].
  replace (block_bytes Toy.fs) with 512 by reflexivity.
  replace (bi_size two_blocks) with 1024 by (vm_compute; reflexivity).
  replace (bi_size one_byte_short) with 1023 by (vm_compute; reflexivity).
  now rewrite stuck_forever.
Qed.

(** ** The compressor around the loop *)

Section Compressor.

Variable lib : codec_lib.
Variable mem : alloc_env.

Lemma bio_compress_inv fuel c dst dst_len src src_len t r :
  __bio_compress lib mem fuel c dst dst_len src src_len t = Some (Ret r) ->
  mempool_initialized (compress_workspace c t) = true
  /\ ((sectors (bi_size src) <= opts_block_size c
       /\ r = mk_compressed BCH_COMPRESSION_NONE dst_len src_len dst src [])
      \/ (opts_block_size c < sectors (bi_size src)
          /\ exists dd sd e st,
               bio_map_or_bounce mem c dst WRITE = Ret dd
               /\ bio_map_or_bounce mem c src READ = Ret sd
               /\ compress_loop lib fuel (block_bytes c) t (b sd)
                    (mk_loop (bi_size src) (bi_size dst) (b dd) [])
                  = Some (Ret (e, st))
               /\ compress_finish c dst src (type dd) t e st = Ret r)).
Proof.
  unfold __bio_compress.
  destruct (mempool_initialized (compress_workspace c t)); cbn [negb];
    [| discriminate].
  intros H. split; [reflexivity |].
  destruct (Z.leb_spec (sectors (bi_size src)) (opts_block_size c)) as [Hs | Hs].
  - left. injection H as <-. auto.
  - right. split; [assumption |].
    destruct (bio_map_or_bounce mem c dst WRITE) as [dd |]; [| discriminate].
    destruct (bio_map_or_bounce mem c src READ) as [sd |]; [| discriminate].
    destruct (compress_loop lib fuel _ _ _ _) as [[[e st] |] |] eqn:Hl;
      try discriminate.
    injection H as H. exists dd, sd, e, st. auto.
Qed.

Lemma bi_size_memcpy_to_bio x n data :
  bi_size (memcpy_to_bio x n data) = bi_size x.
Proof. reflexivity. Qed.

Lemma compress_finish_inv c dst src ty t e st r :
  compress_finish c dst src ty t e st = Ret r ->
  k_src r = src
  /\ k_attempts r = l_attempts st
  /\ k_src_len r = l_src_len st
  /\ bi_size (k_dst r) = bi_size dst
  /\ ((k_type r = BCH_COMPRESSION_NONE /\ k_dst_len r = l_dst_len st)
      \/ (e = Fit
          /\ k_type r = t
          /\ round_up (l_dst_len st) (block_bytes c) < l_src_len st
          /\ k_dst_len r
             = to_size_t (l_dst_len st
                          + to_unsigned (round_up (l_dst_len st) (block_bytes c)
                                         - l_dst_len st))
          /\ k_dst_len r <> 0 /\ k_dst_len r <= bi_size dst
          /\ k_src_len r <> 0 /\ k_src_len r <= bi_size src
          /\ Z.land (k_dst_len r) (block_bytes c - 1) = 0
          /\ Z.land (k_src_len r) (block_bytes c - 1) = 0
          /\ k_dst r
             = (let dst1 := if aliases_bio ty then set_bi_data (padded c st) dst
                            else dst in
                if is_BB_NONE ty then dst1
                else memcpy_to_bio dst1 (bi_size dst) (padded c st)))).
Proof.
  unfold compress_finish.
  assert (Hnone : forall d : bio,
    bi_size d = bi_size dst ->
    Ret (mk_compressed BCH_COMPRESSION_NONE (l_dst_len st) (l_src_len st) d src
           (l_attempts st)) = Ret r ->
    k_src r = src /\ k_attempts r = l_attempts st /\ k_src_len r = l_src_len st
    /\ bi_size (k_dst r) = bi_size dst
    /\ k_type r = BCH_COMPRESSION_NONE /\ k_dst_len r = l_dst_len st).
  { intros d Hd [= <-]. cbn [k_src k_attempts k_src_len k_dst k_type k_dst_len].
    repeat split. exact Hd. }
  assert (Hthrough : bi_size (if aliases_bio ty then set_bi_data (l_dst st) dst else dst)
                     = bi_size dst) by (destruct (aliases_bio ty); reflexivity).
  destruct e.
  - destruct (Z.leb_spec (l_src_len st) (round_up (l_dst_len st) (block_bytes c)))
      as [Hle | Hlt].
    + intros H. apply Hnone in H; [| exact Hthrough]. intuition.
    + unfold BUG_ON.
      destruct (Z.eqb_spec (to_size_t (l_dst_len st
                   + to_unsigned (round_up (l_dst_len st) (block_bytes c)
                                  - l_dst_len st))) 0) as [| Hd0];
        cbn [orb]; [discriminate |].
      destruct (Z.ltb_spec (bi_size dst) (to_size_t (l_dst_len st
                   + to_unsigned (round_up (l_dst_len st) (block_bytes c)
                                  - l_dst_len st)))) as [| Hdcap];
        [discriminate |].
      destruct (Z.eqb_spec (l_src_len st) 0) as [| Hs0]; cbn [orb]; [discriminate |].
      destruct (Z.ltb_spec (bi_size src) (l_src_len st)) as [| Hscap];
        [discriminate |].
      destruct (Z.eqb_spec (Z.land (to_size_t (l_dst_len st
                   + to_unsigned (round_up (l_dst_len st) (block_bytes c)
                                  - l_dst_len st))) (block_bytes c - 1)) 0)
        as [Hda |]; cbn [negb]; [| discriminate].
      destruct (Z.eqb_spec (Z.land (l_src_len st) (block_bytes c - 1)) 0)
        as [Hsa |]; cbn [negb]; [| discriminate].
      intros [= <-]. cbn [k_src k_attempts k_src_len k_dst k_type k_dst_len].
      repeat split.
      * destruct (is_BB_NONE ty), (aliases_bio ty); reflexivity.
      * right. repeat split; assumption.
  - intros H. apply Hnone in H; [| exact Hthrough]. intuition.
Qed.

End Compressor.

Lemma block_bytes_pow2 (c : bch_fs) (k : Z) :
  0 <= k -> opts_block_size c = 2 ^ k -> block_bytes c = 2 ^ (k + 9).
Proof.
  intros Hk H. unfold block_bytes.
  rewrite Z.shiftl_mul_pow2, H, Z.pow_add_r by lia. reflexivity.
Qed.

Lemma align_up_bounds (x bb : Z) :
  0 < bb -> x <= align_up x bb < x + bb /\ align_up x bb mod bb = 0.
Proof.
  intros Hbb. unfold align_up.
  pose proof (Z.div_mod (x + bb - 1) bb ltac:(lia)).
  pose proof (Z.mod_pos_bound (x + bb - 1) bb ltac:(lia)).
  split; [lia |]. rewrite Z.mul_comm. apply Z.mod_mul. lia.
Qed.

Lemma round_up_align (x K : Z) :
  0 <= K <= 32 -> 0 < x < 2 ^ 31 -> round_up x (2 ^ K) = align_up x (2 ^ K).
Proof.
  intros HK Hx.
  assert (Hp : 0 < 2 ^ K) by (apply Z.pow_pos_nonneg; lia).
  assert (Hle : 2 ^ K <= 2 ^ 32) by (apply Z.pow_le_mono_r; lia).
  pose proof (Z.mul_div_le (x - 1) (2 ^ K) ltac:(lia)).
  rewrite round_up_pow2 by lia.
  unfold align_up.
  replace (x + 2 ^ K - 1) with (x - 1 + 1 * 2 ^ K) by lia.
  rewrite Z.div_add by lia. lia.
Qed.

Section CompressorFacts.

Variable lib : codec_lib.
Variable mem : alloc_env.


Lemma compress_loop_fit fuel bb t src st st' :
  compress_loop lib fuel bb t src st = Some (Ret (Fit, st')) ->
  0 < l_dst_len st' < 2 ^ 31 /\ bb < l_src_len st'.
Proof.
  intros H.
  destruct (compress_loop_last lib (fun _ => True) bb t src
              (fun _ _ _ _ => I) fuel st Fit st' I H) as (st0 & _ & Hturn).
  destruct (loop_body_leave lib bb t src st0 Fit st' Hturn)
    as [(Hno & _) | (ret & dst' & _ & Hbb & _ & Hs & _ & [(_ & Hret & Hd) | (Hno & _)])];
    try discriminate.
  lia.
Qed.


End CompressorFacts.

(** ** The compressor's results *)

(** C6: when an attempt has succeeded and the block-aligned size of
    its output is not smaller than the block-aligned size of the
    source it consumed, the compressor returns codec id 0. *)
Theorem fit_without_gain_is_incompressible
    (lib : codec_lib) (mem : alloc_env) (fuel : nat) (c : bch_fs) (k : Z)
    (dst : bio) (dst_len : Z) (src : bio) (src_len : Z)
    (t : bch_compression_type) (dd sd : bbuf) (st : loop_state) :
  0 <= k < 16 ->
  opts_block_size c = 2 ^ k ->
  mempool_initialized (compress_workspace c t) = true ->
  opts_block_size c < sectors (bi_size src) ->
  bio_map_or_bounce mem c dst WRITE = Ret dd ->
  bio_map_or_bounce mem c src READ = Ret sd ->
  compress_loop lib fuel (block_bytes c) t (b sd)
    (mk_loop (bi_size src) (bi_size dst) (b dd) []) = Some (Ret (Fit, st)) ->
  align_up (l_src_len st) (block_bytes c) <= align_up (l_dst_len st) (block_bytes c) ->
  exists r,
    __bio_compress lib mem fuel c dst dst_len src src_len t = Some (Ret r)
    /\ k_type r = BCH_COMPRESSION_NONE
    /\ k_attempts r = l_attempts st.
Proof.
  intros Hk Hbs Hpool Hbig Hd Hs Hloop Hgain.
  pose proof (compress_loop_fit lib _ _ _ _ _ _ Hloop) as (Hout & _).
  unfold __bio_compress. rewrite Hpool. cbn [negb].
  apply Z.leb_gt in Hbig. rewrite Hbig, Hd, Hs, Hloop.
  unfold compress_finish.
  rewrite (block_bytes_pow2 c k) in * by lia.
  assert (Hp : 0 < 2 ^ (k + 9)) by (apply Z.pow_pos_nonneg; lia).
  rewrite round_up_align by lia.
  pose proof (align_up_bounds (l_src_len st) (2 ^ (k + 9)) Hp) as (Hsrc & _).
  replace (l_src_len st <=? align_up (l_dst_len st) (2 ^ (k + 9))) with true
    by (symmetry; apply Z.leb_le; lia).
  eexists. split; [reflexivity |]. split; reflexivity.
Qed.

Lemma fit_without_gain_is_incompressible_witness :
  align_up (l_src_len (left_in dense_search (mk_loop 0 0 [] [])))
    (block_bytes Toy.fs)
  <= align_up (l_dst_len (left_in dense_search (mk_loop 0 0 [] [])))
       (block_bytes Toy.fs)
  /\ exists r,
       __bio_compress Toy.lib Toy.mem 4 Toy.fs roomy 0 dense_blocks 0
         BCH_COMPRESSION_ZSTD = Some (Ret r)
       /\ k_type r = BCH_COMPRESSION_NONE
       /\ k_attempts r = l_attempts (left_in dense_search (mk_loop 0 0 [] [])).
Proof.
  assert (H : align_up (l_src_len (left_in dense_search (mk_loop 0 0 [] [])))
                (block_bytes Toy.fs)
              <= align_up (l_dst_len (left_in dense_search (mk_loop 0 0 [] [])))
                   (block_bytes Toy.fs))
    by (vm_compute; discriminate).
  split; [exact H |].
  apply (fit_without_gain_is_incompressible Toy.lib Toy.mem 4 Toy.fs 0
           roomy 0 dense_blocks 0 BCH_COMPRESSION_ZSTD
           (mk_bbuf (bi_data roomy) BB_NONE WRITE)
           (mk_bbuf (bi_data dense_blocks) BB_NONE READ)
           (left_in dense_search (mk_loop 0 0 [] []))).
  - lia.
  - reflexivity.
  - reflexivity.
  - vm_compute; reflexivity.
  - vm_compute; reflexivity.
  - vm_compute; reflexivity.
  - vm_compute; reflexivity.
  - exact H.
Defined.

Lemma land_mask_mod (x K : Z) :
  0 <= K -> Z.land x (2 ^ K - 1) = x mod 2 ^ K.
Proof.
  intros HK.
  replace (2 ^ K - 1) with (Z.ones K) by (rewrite Z.ones_equiv; lia).
  now apply Z.land_ones.
Qed.





(** With such a destination the compressor itself always comes to an
    end: it returns or it dies in a [BUG_ON]. *)
Lemma bio_compress_terminates
    (lib : codec_lib) (mem : alloc_env) (c : bch_fs) (k : Z)
    (dst : bio) (dst_len : Z) (src : bio) (src_len : Z)
    (t : bch_compression_type) :
  0 <= k ->
  opts_block_size c = 2 ^ k ->
  0 <= bi_size dst ->
  0 <= bi_size src < 2 ^ 32 ->
  (bi_size dst + 1) mod block_bytes c <> 0 ->
  exists out,
    __bio_compress lib mem (S (Z.to_nat (bi_size src))) c dst dst_len src src_len t
    = Some out.
Proof.
  intros Hk Hbs Hd Hs Hodd. unfold __bio_compress.
  destruct (negb _); [eauto |].
  destruct (_ <=? _); [eauto |].
  destruct (bio_map_or_bounce mem c dst WRITE) as [dd |]; [| eauto].
  destruct (bio_map_or_bounce mem c src READ) as [sd |]; [| eauto].
  destruct (compress_loop_total lib (k + 9) (block_bytes c) (bi_size dst) t (b sd)
              ltac:(lia) (block_bytes_pow2 c k Hk Hbs) Hd Hodd
              (Z.to_nat (bi_size src))
              (mk_loop (bi_size src) (bi_size dst) (b dd) []))
    as (out & -> & _).
  - unfold loop_inv. cbn. repeat split; try lia; constructor.
  - cbn. lia.
  - destruct out as [[e st] |]; eauto.
Qed.

(** ** The wrapper *)

Section Wrapper.

Variable lib : codec_lib.
Variable mem : alloc_env.

Lemma within_again bb t src cap room st st' :
  0 <= room -> cap < 2 ^ 32 ->
  within cap room st ->
  loop_body lib bb t src st = Again st' ->
  within cap room st'.
Proof.
  intros Hroom Hcap (Hd & Hs & Hall) Hturn.
  destruct (loop_body_again lib bb t src st st' ltac:(lia) ltac:(lia) Hturn)
    as (ret & dst' & _ & -> & _ & Hgap & Hret & Hnext).
  pose proof (next_src_len_le bb ret (l_src_len st) (l_dst_len st)
                ltac:(lia) Hret) as Hle.
  rewrite <- Hnext in Hle.
  unfold within. cbn [l_src_len l_dst_len l_attempts].
  split; [exact Hd |]. split; [lia |].
  apply Forall_app. split; [exact Hall |].
  repeat constructor; cbn; lia.
Qed.

Lemma within_leave fuel bb t src cap room st e st' :
  0 <= room -> cap < 2 ^ 32 ->
  within cap room st ->
  compress_loop lib fuel bb t src st = Some (Ret (e, st')) ->
  Forall (fun a => fst a <= cap /\ snd a = room) (l_attempts st').
Proof.
  intros Hroom Hcap Hin Hloop.
  destruct (compress_loop_last lib (within cap room) bb t src
              (fun st1 st2 => within_again bb t src cap room st1 st2 Hroom Hcap)
              fuel st e st' Hin Hloop) as (st0 & (Hd & Hs & Hall) & Hturn).
  destruct (loop_body_leave lib bb t src st0 e st' Hturn)
    as [(_ & -> & _) | (ret & dst' & _ & _ & -> & _)].
  - exact Hall.
  - apply Forall_app. split; [exact Hall |].
    repeat constructor; cbn; lia.
Qed.

End Wrapper.

(** C7: the wrapper runs the search on bios whose lengths are clamped,
    the source to the maximum encoded extent size and the destination
    to the clamped source, so that no codec call sees more; and
    whatever the search returns, both bios have their original lengths
    when the wrapper returns. *)
Theorem bio_compress_clamps_and_restores
    (lib : codec_lib) (mem : alloc_env) (fuel : nat) (c : bch_fs)
    (dst : bio) (dst_len : Z) (src : bio) (src_len : Z)
    (t : bch_compression_type) (r : compressed) :
  0 <= bi_size dst ->
  0 <= bi_size src ->
  bch2_bio_compress lib mem fuel c dst dst_len src src_len t = Some (Ret r) ->
  bi_size (k_dst r) = bi_size dst
  /\ bi_size (k_src r) = bi_size src
  /\ (exists r',
        __bio_compress lib mem fuel c
          (set_bi_size (Z.min (bi_size dst) (bi_size (clamp_src c src))) dst) dst_len
          (set_bi_size (Z.min (bi_size src)
                          (to_unsigned (Z.shiftl (sb_encoded_extent_max c) 9))) src)
          src_len
          (if compression_type_eqb t BCH_COMPRESSION_LZ4_OLD
           then BCH_COMPRESSION_LZ4 else t)
        = Some (Ret r')
        /\ k_type r = k_type r' /\ k_dst_len r = k_dst_len r'
        /\ k_src_len r = k_src_len r' /\ k_attempts r = k_attempts r'
        /\ bi_data (k_dst r) = bi_data (k_dst r'))
  /\ Forall (fun a =>
               fst a <= Z.min (bi_size src)
                          (to_unsigned (Z.shiftl (sb_encoded_extent_max c) 9))
               /\ snd a = Z.min (bi_size dst) (bi_size (clamp_src c src)))
        (k_attempts r).
Proof.
  intros Hd Hs. unfold bch2_bio_compress.
  fold (clamp_src c src). fold (clamp_dst c dst src).
  destruct (__bio_compress lib mem fuel c (clamp_dst c dst src) dst_len
              (clamp_src c src) src_len _) as [[r' |] |] eqn:Hrun;
    try discriminate.
  intros [= <-]. cbn [k_type k_dst_len k_src_len k_dst k_src k_attempts bi_size set_bi_size].
  pose proof (to_unsigned_small 0 ltac:(lia)) as _.
  assert (Hcap : bi_size (clamp_src c src) < 2 ^ 32).
  { unfold clamp_src. cbn [bi_size set_bi_size].
    assert (to_unsigned (Z.shiftl (sb_encoded_extent_max c) 9) < 2 ^ 32)
      by (unfold to_unsigned, wrap; apply Z.mod_pos_bound; lia).
    lia. }
  assert (Hcap0 : 0 <= bi_size (clamp_src c src)).
  { unfold clamp_src. cbn [bi_size set_bi_size].
    assert (0 <= to_unsigned (Z.shiftl (sb_encoded_extent_max c) 9))
      by (unfold to_unsigned, wrap; apply Z.mod_pos_bound; lia).
    lia. }
  split; [reflexivity |].
  pose proof (bio_compress_inv lib mem _ _ _ _ _ _ _ _ Hrun)
    as (_ & [(_ & ->) | (_ & dd & sd & e & st & _ & _ & Hloop & Hfin)]).
  - cbn [k_src k_attempts k_dst]. split; [reflexivity |]. split.
    + exists (mk_compressed BCH_COMPRESSION_NONE dst_len src_len
                (clamp_dst c dst src) (clamp_src c src) []).
      repeat split.
    + constructor.
  - apply compress_finish_inv in Hfin as (_ & Hkatt & _).
    split; [reflexivity |]. split.
    + exists r'. repeat split.
    + rewrite Hkatt.
      eapply (within_leave lib fuel (block_bytes c) _ (b sd)
                (bi_size (clamp_src c src)) (bi_size (clamp_dst c dst src)));
        [| exact Hcap | | exact Hloop].
      * unfold clamp_dst. cbn [bi_size set_bi_size]. lia.
      * unfold within. cbn [l_src_len l_dst_len l_attempts].
        split; [reflexivity |]. split; [lia | constructor].
Qed.

Lemma bio_compress_clamps_and_restores_witness :
  exists r,
    bch2_bio_compress Toy.lib Toy.mem 4 small_extents four_blocks 0 four_blocks 0
      BCH_COMPRESSION_LZ4_OLD = Some (Ret r)
    /\ bi_size (k_dst r) = bi_size four_blocks
    /\ bi_size (k_src r) = bi_size four_blocks
    /\ Forall (fun a => fst a <= 1024 /\ snd a = 1024) (k_attempts r).
Proof.
  destruct (bch2_bio_compress Toy.lib Toy.mem 4 small_extents four_blocks 0
              four_blocks 0 BCH_COMPRESSION_LZ4_OLD) as [[r |] |] eqn:E;
    [| exfalso; revert E; vm_compute; discriminate
     | exfalso; revert E; vm_compute; discriminate].
  exists r. split; [reflexivity |].
  destruct (bio_compress_clamps_and_restores Toy.lib Toy.mem 4 small_extents
              four_blocks 0 four_blocks 0 BCH_COMPRESSION_LZ4_OLD r
              ltac:(vm_compute; discriminate) ltac:(vm_compute; discriminate) E)
    as (Hdst & Hsrc & _ & Hall).
  split; [exact Hdst |]. split; [exact Hsrc |]. exact Hall.
Defined.

(** ** The zstd length prefix *)

Lemma length_cpu_to_le32 v : length (cpu_to_le32 v) = 4%nat.
Proof. reflexivity. Qed.

(** What lies behind the prefix once the zstd branch of
    [attempt_compress] is through: the bytes the codec wrote, followed
    by what the buffer held where it wrote nothing. *)
Lemma window_behind_prefix (dst written : list byte) (v : Z) (n : nat) :
  (4 + n <= length dst)%nat ->
  firstn n (skipn 4 (write_at 0 (cpu_to_le32 v) (write_at 4 written dst)))
  = firstn n (written ++ skipn (4 + length written) dst).
Proof.
  intros Hfit. unfold write_at at 1.
  rewrite length_write_at, length_cpu_to_le32, firstn_O, app_nil_l, Nat.sub_0_r,
    Nat.add_0_l.
  rewrite (firstn_all2 (cpu_to_le32 v)) by (rewrite length_cpu_to_le32; lia).
  change (skipn 4 (cpu_to_le32 v ++ ?l)) with l.
  unfold write_at.
  rewrite skipn_app, length_firstn, Nat.min_l by lia.
  rewrite (skipn_all2 (firstn 4 dst)) by (rewrite length_firstn; lia).
  rewrite Nat.sub_diag. cbn [skipn app].
  destruct (Nat.le_gt_cases (length written) (length dst - 4)) as [Hle | Hgt].
  - now rewrite (firstn_all2 written) by exact Hle.
  - rewrite (skipn_all2 dst) by lia. rewrite !app_nil_r.
    rewrite firstn_firstn. f_equal. lia.
Qed.

(** C9: when zstd produces a frame, the compressor stores the frame
    length, which is the value the codec returns, as four
    little-endian bytes in front of it and reports the frame length
    plus four; the decompressor reads those four bytes and hands the
    decoder the memory right behind them with exactly that length.
    On the compressor's output the decoder is thus given the
    [frame_len] bytes behind the prefix and nothing else: the first
    [frame_len] bytes the codec wrote, the codec being free to have
    written more than it reports. *)
Theorem zstd_length_prefix
    (lib : codec_lib) (dst : list byte) (dst_len : Z)
    (src : list byte) (src_len : Z) :
  ZSTD_isError lib
    (to_size_t (c_ret (ZSTD_compressCCtx lib src src_len (to_size_t (dst_len - 4)))))
  = false ->
  to_size_t (c_ret (ZSTD_compressCCtx lib src src_len (to_size_t (dst_len - 4)))) + 4
  <= Z.of_nat (length dst) ->
  to_size_t (c_ret (ZSTD_compressCCtx lib src src_len (to_size_t (dst_len - 4)))) + 4
  < 2 ^ 31 ->
  exists frame_len written buf,
    frame_len
    = to_size_t (c_ret (ZSTD_compressCCtx lib src src_len (to_size_t (dst_len - 4))))
    /\ written = c_out (ZSTD_compressCCtx lib src src_len (to_size_t (dst_len - 4)))
    /\ attempt_compress lib dst dst_len src src_len BCH_COMPRESSION_ZSTD
       = Ret (frame_len + 4, buf)
    /\ firstn 4 buf = cpu_to_le32 frame_len
    /\ le32_to_cpup buf = frame_len
    /\ Z.of_nat (length (window 4 frame_len buf)) = frame_len
    /\ window 4 frame_len buf
       = firstn (Z.to_nat frame_len) (written ++ skipn (4 + length written) dst)
    /\ (frame_len <= Z.of_nat (length written) ->
        window 4 frame_len buf = firstn (Z.to_nat frame_len) written)
    /\ forall (mem : alloc_env) (c : bch_fs) (payload : bio) (dst_data : list byte)
              (crc : bch_extent_crc_unpacked) (sd : bbuf),
         compression_type crc = BCH_COMPRESSION_ZSTD ->
         bio_map_or_bounce mem c payload READ = Ret sd ->
         __bio_uncompress lib mem c payload dst_data crc
         = (let d := ZSTD_decompressDCtx lib (skipn 4 (b sd))
                       (le32_to_cpup (b sd)) (uncompress_dst_len crc) in
            Ret (mk_uncompressed
                   (if to_size_t (c_ret d) =? uncompress_dst_len crc then 0 else - EIO)
                   (c_out d) (write_at 0 (c_out d) dst_data)
                   (4, le32_to_cpup (b sd))))
         /\ (b sd = buf ->
             le32_to_cpup (b sd) = frame_len
             /\ window 0 frame_len (skipn 4 (b sd)) = window 4 frame_len buf).
Proof.
  set (r := ZSTD_compressCCtx lib src src_len (to_size_t (dst_len - 4))).
  set (n := to_size_t (c_ret r)).
  intros Herr Hfit Hint.
  assert (Hn : 0 <= n) by (unfold n, to_size_t, wrap; apply Z.mod_pos_bound; lia).
  set (buf := write_at 0 (cpu_to_le32 n) (write_at 4 (c_out r) dst)).
  assert (Hblen : length buf = length dst)
    by (unfold buf; now rewrite !length_write_at).
  assert (Hhead : firstn 4 buf = cpu_to_le32 n).
  { unfold buf. unfold write_at at 1.
    rewrite length_write_at, length_cpu_to_le32, firstn_O, app_nil_l, Nat.sub_0_r.
    rewrite (firstn_all2 (cpu_to_le32 n)) by (rewrite length_cpu_to_le32; lia).
    rewrite firstn_app, length_cpu_to_le32, Nat.sub_diag, firstn_O, app_nil_r.
    apply firstn_all2. rewrite length_cpu_to_le32. lia. }
  assert (Hle : le32_to_cpup buf = n).
  { rewrite <- (firstn_skipn 4 buf), Hhead, le32_roundtrip.
    apply Z.mod_small. lia. }
  assert (Hwin : window 4 n buf
                 = firstn (Z.to_nat n) (c_out r ++ skipn (4 + length (c_out r)) dst)).
  { unfold window, buf. change (Z.to_nat 4) with 4%nat.
    apply window_behind_prefix. lia. }
  exists n, (c_out r), buf.
  split; [reflexivity |]. split; [reflexivity |]. split.
  { unfold attempt_compress. fold r. fold n. rewrite Herr.
    rewrite to_int_small by lia. reflexivity. }
  split; [exact Hhead |]. split; [exact Hle |]. split.
  { unfold window. change (Z.to_nat 4) with 4%nat.
    rewrite length_firstn, length_skipn, Hblen. lia. }
  split; [exact Hwin |]. split.
  { intros Hstored. rewrite Hwin, firstn_app.
    replace (Z.to_nat n - length (c_out r))%nat with 0%nat by lia.
    cbn [firstn]. apply app_nil_r. }
  intros mem c payload dst_data crc sd Hty Hmap. split.
  - unfold __bio_uncompress. rewrite Hmap, Hty. reflexivity.
  - intros ->. split; [exact Hle | reflexivity].
Qed.

Lemma zstd_length_prefix_witness :
  exists buf,
    attempt_compress Toy.lib (bi_data roomy) 2048 (bi_data zero_blocks) 1024
      BCH_COMPRESSION_ZSTD = Ret (5 + 4, buf)
    /\ firstn 4 buf = cpu_to_le32 5
    /\ le32_to_cpup buf = 5.
Proof.
  destruct (zstd_length_prefix Toy.lib (bi_data roomy) 2048 (bi_data zero_blocks) 1024
              ltac:(vm_compute; reflexivity)
              ltac:(vm_compute; discriminate) ltac:(vm_compute; reflexivity))
    as (n & written & buf & Hn & _ & Hrun & Hpre & Hle & _).
  assert (E : n = 5) by (rewrite Hn; vm_compute; reflexivity).
  rewrite E in *. exists buf. auto.
Defined.

(** ** Decompression *)

(** C1, at an extent the code can be handed: one sector of zstd
    payload whose length prefix says 1000.  Whatever the decoder
    library, it is told to read 1000 bytes at offset 4 of the 512-byte
    mapping, and the call returns what the decoder makes of that: 0
    exactly when the decoder reports a full destination. *)
Theorem zstd_prefix_is_not_checked (lib : codec_lib) :
  exists ret dst',
    bch2_bio_uncompress lib Toy.mem Toy.fs overlong_prefix one_sector 512
      one_sector_zstd = Ret (ret, dst', Some (4, 1000))
    /\ Z.of_nat (length (bi_data overlong_prefix)) = 512
    /\ ~ in_bounds 512 (4, 1000)
    /\ (ret = 0 <->
        to_size_t (c_ret (ZSTD_decompressDCtx lib (skipn 4 (bi_data overlong_prefix))
                            1000 512)) = 512).
Proof.
  unfold bch2_bio_uncompress.
  replace (extent_too_big Toy.fs one_sector_zstd) with false by reflexivity.
  replace (uncompress_dst_len one_sector_zstd) with 512 by reflexivity.
  cbn [Z.eqb Pos.eqb].
  replace (__bio_map_or_bounce Toy.mem Toy.fs one_sector 512 WRITE)
    with (Ret (mk_bbuf (bi_data one_sector) BB_NONE WRITE))
    by (vm_compute; reflexivity).
  cbn [bind b type]. unfold __bio_uncompress.
  replace (bio_map_or_bounce Toy.mem Toy.fs overlong_prefix READ)
    with (Ret (mk_bbuf (bi_data overlong_prefix) BB_NONE READ))
    by (vm_compute; reflexivity).
  cbn [bind b compression_type one_sector_zstd].
  replace (le32_to_cpup (bi_data overlong_prefix)) with 1000
    by (vm_compute; reflexivity).
  replace (uncompress_dst_len one_sector_zstd) with 512 by reflexivity.
  cbn [bind u_ret u_read u_dst u_stored aliases_bio is_BB_NONE negb andb].
  rewrite Bool.andb_false_r.
  eexists. eexists. split; [reflexivity |].
  split; [vm_compute; reflexivity |].
  split; [unfold in_bounds; cbn; lia |].
  destruct (Z.eqb_spec
              (to_size_t (c_ret (ZSTD_decompressDCtx lib
                                   (skipn 4 (bi_data overlong_prefix)) 1000 512)))
              512) as [E | E]; unfold EIO; split; intros H; try lia; try assumption.
Qed.

(** C3: the Deflate branch does not compare the length produced with
    the length of the extent, as the LZ4 and zstd branches do.  On a
    one-sector gzip extent whose stream is a single empty final
    block, [zlib_inflate] answers [Z_STREAM_END] and the call returns
    0 with nothing stored in the 512-byte destination, which is
    neither a filled destination nor the error. *)
Theorem deflate_short_stream_accepted :
  exists r,
    __bio_uncompress Toy.lib Toy.mem Toy.fs empty_stream (bi_data one_sector)
      one_sector_gzip = Ret r
    /\ u_ret r = 0
    /\ u_stored r = []
    /\ u_dst r = bi_data one_sector
    /\ ~ fills_or_fails one_sector_gzip r.
Proof.
  eexists. split; [vm_compute; reflexivity |].
  split; [reflexivity |]. split; [reflexivity |]. split; [reflexivity |].
  unfold fills_or_fails. cbn [u_ret u_stored length].
  intros [(_ & H) | H]; revert H; vm_compute; discriminate.
Qed.

(** X23: what decides the value of [__bio_uncompress].  For each
    supported codec the call returns 0 or -EIO and nothing else.
    With LZ4 and zstd it returns 0 exactly when the decoder reports
    [uncompressed_size] bytes, and the destination then holds exactly
    that many decoded bytes; with Deflate it returns 0 exactly when
    [zlib_inflate] answers [Z_STREAM_END], whatever the number of
    bytes stored. *)
Theorem uncompress_succeeds_or_EIO
    (lib : codec_lib) (mem : alloc_env) (c : bch_fs) (src : bio)
    (dst_data : list byte) (crc : bch_extent_crc_unpacked) (r : uncompressed) :
  compression_type crc <> BCH_COMPRESSION_NONE ->
  __bio_uncompress lib mem c src dst_data crc = Ret r ->
  (u_ret r = 0 \/ u_ret r = - EIO)
  /\ u_dst r = write_at 0 (u_stored r) dst_data
  /\ exists sd,
       bio_map_or_bounce mem c src READ = Ret sd
       /\ match compression_type crc with
          | BCH_COMPRESSION_LZ4_OLD
          | BCH_COMPRESSION_LZ4 =>
              let d := LZ4_decompress_safe_partial lib (b sd) (to_int (bi_size src))
                         (to_int (uncompress_dst_len crc))
                         (to_int (uncompress_dst_len crc)) in
              u_stored r = c_out d
              /\ (u_ret r = 0 <-> to_size_t (to_int (c_ret d)) = uncompress_dst_len crc)
              /\ (reports_length d -> c_ret d < 2 ^ 31 -> fills_or_fails crc r)
          | BCH_COMPRESSION_GZIP =>
              let d := zlib_inflate lib (b sd) (to_unsigned (bi_size src))
                         (to_unsigned (uncompress_dst_len crc)) in
              u_stored r = c_out d
              /\ (u_ret r = 0 <-> to_int (c_ret d) = Z_STREAM_END)
          | BCH_COMPRESSION_ZSTD =>
              let d := ZSTD_decompressDCtx lib (skipn 4 (b sd))
                         (le32_to_cpup (b sd)) (uncompress_dst_len crc) in
              u_stored r = c_out d
              /\ (u_ret r = 0 <-> to_size_t (c_ret d) = uncompress_dst_len crc)
              /\ (reports_length d -> c_ret d < 2 ^ 64 -> fills_or_fails crc r)
          | BCH_COMPRESSION_NONE => False
          end.
Proof.
  intros Hty. unfold __bio_uncompress.
  destruct (bio_map_or_bounce mem c src READ) as [sd |]; cbn [bind];
    [| discriminate].
  assert (Hne : - EIO <> 0) by (unfold EIO; lia).
  assert (Hlz4 :
    Ret (mk_uncompressed
           (if to_size_t (to_int (c_ret (LZ4_decompress_safe_partial lib (b sd)
                 (to_int (bi_size src)) (to_int (uncompress_dst_len crc))
                 (to_int (uncompress_dst_len crc))))) =? uncompress_dst_len crc
            then 0 else - EIO)
           (c_out (LZ4_decompress_safe_partial lib (b sd)
                 (to_int (bi_size src)) (to_int (uncompress_dst_len crc))
                 (to_int (uncompress_dst_len crc))))
           (write_at 0 (c_out (LZ4_decompress_safe_partial lib (b sd)
                 (to_int (bi_size src)) (to_int (uncompress_dst_len crc))
                 (to_int (uncompress_dst_len crc)))) dst_data)
           (0, to_int (bi_size src))) = Ret r ->
    (u_ret r = 0 \/ u_ret r = - EIO)
    /\ u_dst r = write_at 0 (u_stored r) dst_data
    /\ exists sd',
         Ret sd = Ret sd'
         /\ (let d := LZ4_decompress_safe_partial lib (b sd') (to_int (bi_size src))
                        (to_int (uncompress_dst_len crc))
                        (to_int (uncompress_dst_len crc)) in
             u_stored r = c_out d
             /\ (u_ret r = 0 <-> to_size_t (to_int (c_ret d)) = uncompress_dst_len crc)
             /\ (reports_length d -> c_ret d < 2 ^ 31 -> fills_or_fails crc r))).
  { set (d := LZ4_decompress_safe_partial lib (b sd) _ _ _).
    intros [= <-]. unfold fills_or_fails, reports_length.
    cbn [u_ret u_stored u_dst].
    destruct (Z.eqb_spec (to_size_t (to_int (c_ret d))) (uncompress_dst_len crc))
      as [E | E].
    - split; [now left |]. split; [reflexivity |]. exists sd.
      split; [reflexivity |]. fold d. cbn zeta.
      split; [reflexivity |]. split; [tauto |].
      intros Hlen Hint. left. split; [reflexivity |].
      rewrite to_int_small, to_size_t_small in E by lia. lia.
    - split; [now right |]. split; [reflexivity |]. exists sd.
      split; [reflexivity |]. fold d. cbn zeta.
      split; [reflexivity |]. split; [tauto |]. intros _ _. now right. }
  destruct (compression_type crc); try contradiction.
  - exact Hlz4.
  - set (d := zlib_inflate lib (b sd) _ _).
    intros [= <-]. cbn [u_ret u_stored u_dst].
    destruct (Z.eqb_spec (to_int (c_ret d)) Z_STREAM_END) as [E | E].
    + split; [now left |]. split; [reflexivity |]. exists sd.
      split; [reflexivity |]. fold d. cbn zeta. split; [reflexivity | tauto].
    + split; [now right |]. split; [reflexivity |]. exists sd.
      split; [reflexivity |]. fold d. cbn zeta. split; [reflexivity | tauto].
  - exact Hlz4.
  - set (d := ZSTD_decompressDCtx lib (skipn 4 (b sd)) _ _).
    intros [= <-]. unfold fills_or_fails, reports_length.
    cbn [u_ret u_stored u_dst].
    destruct (Z.eqb_spec (to_size_t (c_ret d)) (uncompress_dst_len crc)) as [E | E].
    + split; [now left |]. split; [reflexivity |]. exists sd.
      split; [reflexivity |]. fold d. cbn zeta.
      split; [reflexivity |]. split; [tauto |].
      intros Hlen Hint. left. split; [reflexivity |].
      rewrite to_size_t_small in E by lia. lia.
    + split; [now right |]. split; [reflexivity |]. exists sd.
      split; [reflexivity |]. fold d. cbn zeta.
      split; [reflexivity |]. split; [tauto |]. intros _ _. now right.
Qed.

Lemma uncompress_succeeds_or_EIO_witness :
  exists r,
    __bio_uncompress Toy.lib Toy.mem Toy.fs zero_payload (Toy.zeros 1024)
      two_sectors_zstd = Ret r
    /\ (u_ret r = 0 \/ u_ret r = - EIO)
    /\ u_dst r = write_at 0 (u_stored r) (Toy.zeros 1024).
Proof.
  destruct (__bio_uncompress Toy.lib Toy.mem Toy.fs zero_payload (Toy.zeros 1024)
              two_sectors_zstd) as [r |] eqn:E;
    [| exfalso; revert E; vm_compute; discriminate].
  exists r. split; [reflexivity |].
  destruct (uncompress_succeeds_or_EIO Toy.lib Toy.mem Toy.fs zero_payload
              (Toy.zeros 1024) two_sectors_zstd r
              ltac:(discriminate) E) as (Hret & Hdst & _).
  split; [exact Hret | exact Hdst].
Defined.

(** ** The feature gate *)

Lemma more_pools_refl c : more_pools c c.
Proof. unfold more_pools. auto. Qed.

Lemma more_pools_trans c1 c2 c3 :
  more_pools c1 c2 -> more_pools c2 c3 -> more_pools c1 c3.
Proof.
  unfold more_pools. intros (? & ? & ? & H12) (? & ? & ? & H23).
  repeat split; try congruence. auto.
Qed.

Lemma get_set_pool_same c p m : get_pool (set_pool c p m) p = m.
Proof. destruct p as [[] | [] |]; reflexivity. Qed.

Lemma get_set_pool_keeps c p q size :
  mempool_initialized (get_pool c q) = true ->
  mempool_initialized (get_pool (set_pool c p (Some size)) q) = true.
Proof.
  destruct p as [[] | [] |], q as [[] | [] |]; cbn; auto.
Qed.

Lemma more_pools_set_pool c p size : more_pools c (set_pool c p (Some size)).
Proof.
  unfold more_pools.
  split; [now destruct p |]. split; [now destruct p |]. split; [now destruct p |].
  intros q. apply get_set_pool_keeps.
Qed.

Section GateFacts.

Variable fmt : bch_format.
Variable env : gate_env.

Lemma init_pool_spec p size c ret c' evs :
  init_pool env p size c = (ret, c', evs) ->
  more_pools c c'
  /\ (ret = 0 -> mempool_initialized (get_pool c' p) = true)
  /\ Forall is_pool_init evs.
Proof.
  unfold init_pool.
  destruct (mempool_initialized (get_pool c p)) eqn:Hin.
  - intros [= <- <- <-]. split; [apply more_pools_refl |]. split; [auto | constructor].
  - intros [= <- <- <-].
    destruct (Z.eqb_spec (mempool_init_ret env p size) 0) as [E | E].
    + split; [| split].
      * apply more_pools_set_pool.
      * intros _. now rewrite get_set_pool_same.
      * repeat constructor.
    + split; [apply more_pools_refl |]. split; [contradiction |].
      repeat constructor.
Qed.

Lemma init_compress_workspaces_spec features rows :
  forall size c ret size' c' evs,
    init_compress_workspaces env features rows size c = (ret, size', c', evs) ->
    more_pools c c'
    /\ (ret = 0 ->
        forall i, In i rows -> has_feature features i = true ->
                  mempool_initialized (compress_workspace c' (row_type i)) = true)
    /\ Forall is_pool_init evs.
Proof.
  induction rows as [| i rest IH]; intros size c ret size' c' evs; cbn.
  - intros [= <- <- <- <-]. split; [apply more_pools_refl |].
    split; [intros _ i [] | constructor].
  - destruct (has_feature features i) eqn:Hf; cbn [negb].
    + destruct (init_pool env (CompressPool (row_type i)) (row_compress_workspace i) c)
        as [[ret1 c1] ev1] eqn:H1.
      apply init_pool_spec in H1 as (Hm1 & Hok1 & Hev1).
      destruct (Z.eqb_spec ret1 0) as [E | E]; cbn [negb].
      * destruct (init_compress_workspaces env features rest _ c1)
          as [[[ret2 size2] c2] ev2] eqn:H2.
        apply IH in H2 as (Hm2 & Hok2 & Hev2).
        intros [= <- <- <- <-].
        split; [eapply more_pools_trans; eassumption |]. split.
        -- intros Hret j [<- | Hj] Hfj.
           ++ destruct Hm2 as (_ & _ & _ & Hkeep).
              apply (Hkeep (CompressPool (row_type i))). now apply Hok1.
           ++ now apply Hok2.
        -- apply Forall_app. now split.
      * intros [= <- <- <- <-]. split; [assumption |].
        split; [contradiction | assumption].
    + intros H. apply IH in H as (Hm & Hok & Hev).
      split; [assumption |]. split; [| assumption].
      intros Hret j [<- | Hj] Hfj; [congruence | now apply Hok].
Qed.

Lemma more_pools_zstd_params c p : more_pools c (set_zstd_params c p).
Proof. unfold more_pools. cbn. destruct c. repeat split. intros []; auto. Qed.

Lemma compress_init_spec c features ret c' evs :
  __bch2_fs_compress_init fmt env c features = (ret, c', evs) ->
  more_pools c c'
  /\ Forall is_pool_init evs
  /\ (ret = 0 ->
      forall i,
        In i (compression_types fmt
                (to_size_t (Z.shiftl (sb_encoded_extent_max c) 9))) ->
        has_feature features i = true ->
        pools_ready c' (row_type i)).
Proof.
  unfold __bch2_fs_compress_init.
  set (max_extent := to_size_t (Z.shiftl (sb_encoded_extent_max c) 9)).
  pose proof (more_pools_zstd_params c max_extent) as Hm0.
  set (c0 := set_zstd_params c max_extent) in *.
  destruct (existsb (has_feature features) (compression_types fmt max_extent))
    eqn:Hany; cbn [negb].
  2:{ intros [= <- <- <-]. split; [assumption |]. split; [constructor |].
      intros _ i Hi Hf. exfalso.
      assert (existsb (has_feature features) (compression_types fmt max_extent) = true)
        by (apply existsb_exists; eauto).
      congruence. }
  destruct (init_pool env (BouncePool READ) _ c0) as [[ret1 c1] ev1] eqn:H1.
  apply init_pool_spec in H1 as (Hm1 & Hok1 & Hev1).
  destruct (Z.eqb_spec ret1 0) as [E1 | E1]; cbn [negb].
  2:{ intros [= <- <- <-]. split; [exact (more_pools_trans _ _ _ Hm0 Hm1) |].
      split; [assumption | contradiction]. }
  destruct (init_pool env (BouncePool WRITE) _ c1) as [[ret2 c2] ev2] eqn:H2.
  apply init_pool_spec in H2 as (Hm2 & Hok2 & Hev2).
  pose proof (more_pools_trans _ _ _ Hm0 Hm1) as Hm01.
  pose proof (more_pools_trans _ _ _ Hm01 Hm2) as Hm02.
  destruct (Z.eqb_spec ret2 0) as [E2 | E2]; cbn [negb].
  2:{ intros [= <- <- <-]. split; [exact Hm02 |].
      split; [apply Forall_app; now split | contradiction]. }
  destruct (init_compress_workspaces env features _ 0 c2)
    as [[[ret3 size3] c3] ev3] eqn:H3.
  apply init_compress_workspaces_spec in H3 as (Hm3 & Hok3 & Hev3).
  pose proof (more_pools_trans _ _ _ Hm02 Hm3) as Hm03.
  destruct (Z.eqb_spec ret3 0) as [E3 | E3]; cbn [negb].
  2:{ intros [= <- <- <-]. split; [exact Hm03 |].
      split; [repeat (apply Forall_app; split); assumption | contradiction]. }
  destruct (init_pool env DecompressPool size3 c3) as [[ret4 c4] ev4] eqn:H4.
  apply init_pool_spec in H4 as (Hm4 & Hok4 & Hev4).
  intros [= <- <- <-].
  split; [exact (more_pools_trans _ _ _ Hm03 Hm4) |].
  split; [repeat (apply Forall_app; split); assumption |].
  intros Hret i Hi Hf.
  destruct Hm2 as (_ & _ & _ & Hk2), Hm3 as (_ & _ & _ & Hk3),
    Hm4 as (_ & _ & _ & Hk4).
  unfold pools_ready. repeat split.
  - apply (Hk4 (BouncePool READ)), (Hk3 (BouncePool READ)),
      (Hk2 (BouncePool READ)). now apply Hok1.
  - apply (Hk4 (BouncePool WRITE)), (Hk3 (BouncePool WRITE)). now apply Hok2.
  - apply (Hk4 (CompressPool (row_type i))). now apply Hok3.
  - now apply Hok4.
Qed.

End GateFacts.

Lemma feature_words (bit : Z) :
  0 <= bit < 31 -> feature_flag bit = 2 ^ bit /\ feature_mask bit = 2 ^ bit.
Proof.
  intros Hb. unfold feature_flag, feature_mask.
  rewrite Z.shiftl_1_l.
  assert (0 < 2 ^ bit) by (apply Z.pow_pos_nonneg; lia).
  assert (2 ^ bit < 2 ^ 31) by (apply Z.pow_lt_mono_r; lia).
  rewrite to_int_small by lia. rewrite to_size_t_small by lia. auto.
Qed.

Lemma has_feature_after_set (s bit : Z) (i : compression_row) :
  0 <= bit < 31 -> feature i = bit ->
  has_feature (Z.lor s (feature_flag bit)) i = true.
Proof.
  intros Hb Hf. unfold has_feature. rewrite Hf.
  destruct (feature_words bit Hb) as (-> & ->).
  apply Bool.negb_true_iff, Z.eqb_neq. intros E.
  apply (f_equal (fun z => Z.testbit z bit)) in E.
  rewrite Z.land_spec, Z.lor_spec, Z.bits_0, Z.pow2_bits_true in E by lia.
  rewrite Bool.orb_true_r in E. discriminate.
Qed.

(** C2, as amended: when the feature bit of a codec is not yet set,
    the gate takes the lock and runs the pool set-up first.  If that
    fails, its error is returned after the lock is released, with the
    feature words untouched and no superblock write.  If it succeeds,
    every pool of the codec exists before the bit is set, the
    superblock write follows the setting of the bit and precedes the
    release of the lock, and the call returns 0; the answer of the
    superblock write is not looked at. *)
Theorem feature_gate_sets_bit_after_pools
    (fmt : bch_format) (env : gate_env) (c : bch_fs) (o : bch_compression_opt) :
  format_ok fmt = true ->
  o <> BCH_COMPRESSION_OPT_NONE ->
  Z.land (sb_features c) (feature_flag (bch2_compression_opt_to_feature fmt o))
  <> feature_flag (bch2_compression_opt_to_feature fmt o) ->
  exists init_ret c1 pools,
    __bch2_fs_compress_init fmt env (set_sb_lock c true)
      (Z.lor (sb_features c) (feature_flag (bch2_compression_opt_to_feature fmt o)))
    = (init_ret, c1, pools)
    /\ Forall is_pool_init pools
    /\ disk_sb_features c1 = disk_sb_features c
    /\ (init_ret = 0 ->
        pools_ready c1 (codec_of_opt o)
        /\ exists c',
             bch2_check_set_has_compressed_data fmt env c o
             = (0, c',
                [EvLock] ++ pools
                ++ [EvSetFeature (feature_flag (bch2_compression_opt_to_feature fmt o));
                    EvWriteSuper (write_super_ret env); EvUnlock])
             /\ disk_sb_features c'
                = Z.lor (disk_sb_features c)
                    (feature_flag (bch2_compression_opt_to_feature fmt o))
             /\ pools_ready c' (codec_of_opt o)
             /\ sb_lock c' = false)
    /\ (init_ret <> 0 ->
        exists c',
          bch2_check_set_has_compressed_data fmt env c o
          = (init_ret, c', [EvLock] ++ pools ++ [EvUnlock])
          /\ disk_sb_features c' = disk_sb_features c
          /\ sb_features c' = sb_features c
          /\ sb_lock c' = false).
Proof.
  intros Hfmt Ho Hunset.
  set (f := feature_flag (bch2_compression_opt_to_feature fmt o)) in *.
  unfold format_ok in Hfmt.
  repeat (apply Bool.andb_true_iff in Hfmt; destruct Hfmt as (Hfmt & ?)).
  assert (Hbit : 0 <= bch2_compression_opt_to_feature fmt o < 31)
    by (destruct o; cbn; lia).
  assert (Hrow : exists i,
            In i (compression_types fmt
                    (to_size_t (Z.shiftl (sb_encoded_extent_max (set_sb_lock c true)) 9)))
            /\ feature i = bch2_compression_opt_to_feature fmt o
            /\ row_type i = codec_of_opt o).
  { destruct o; [contradiction | | |]; eexists.
    - split; [left; reflexivity | split; reflexivity].
    - split; [right; left; reflexivity | split; reflexivity].
    - split; [right; right; left; reflexivity | split; reflexivity]. }
  destruct Hrow as (i & Hin & Hfi & Hti).
  assert (Hgate : bch2_check_set_has_compressed_data fmt env c o
                  = __bch2_check_set_has_compressed_data fmt env c f)
    by (destruct o; [contradiction | | |]; reflexivity).
  destruct (__bch2_fs_compress_init fmt env (set_sb_lock c true)
              (Z.lor (sb_features c) f)) as [[init_ret c1] pools] eqn:Hinit.
  pose proof (compress_init_spec fmt env _ _ _ _ _ Hinit) as (Hmore & Hevs & Hready).
  destruct Hmore as (Hdisk & Hsb & Hlock & Hkeep).
  cbn [set_sb_lock disk_sb_features sb_features sb_lock] in Hdisk, Hsb, Hlock.
  exists init_ret, c1, pools.
  split; [reflexivity |]. split; [exact Hevs |]. split; [exact Hdisk |].
  assert (Hrun : __bch2_check_set_has_compressed_data fmt env c f
                 = if negb (init_ret =? 0)
                   then (init_ret, set_sb_lock c1 false, [EvLock] ++ pools ++ [EvUnlock])
                   else (0, set_sb_lock
                              (set_sb_features
                                 (set_disk_sb_features c1 (Z.lor (disk_sb_features c1) f))
                                 (Z.lor (disk_sb_features c1) f)) false,
                         [EvLock] ++ pools
                         ++ [EvSetFeature f; EvWriteSuper (write_super_ret env);
                             EvUnlock])).
  { unfold __bch2_check_set_has_compressed_data.
    apply Z.eqb_neq in Hunset. rewrite Hunset.
    cbn [set_sb_lock sb_features]. rewrite Hunset.
    change (mk_fs (sb_features c) (sb_encoded_extent_max c) (disk_sb_features c)
              (opts_block_size c) (compression_bounce c) (compress_workspace c)
              (decompress_workspace c) (zstd_params c) true)
      with (set_sb_lock c true).
    rewrite Hinit. destruct (negb (init_ret =? 0)); reflexivity. }
  split.
  - intros E.
    assert (Hp : pools_ready c1 (codec_of_opt o)).
    { rewrite <- Hti. apply Hready; [exact E | exact Hin |].
      apply has_feature_after_set; assumption. }
    split; [exact Hp |].
    eexists. rewrite Hgate, Hrun, E. cbn [Z.eqb negb].
    split; [reflexivity |].
    cbn [set_sb_lock set_sb_features set_disk_sb_features disk_sb_features sb_lock].
    split; [now rewrite Hdisk |]. split; [exact Hp | reflexivity].
  - intros E. eexists. rewrite Hgate, Hrun.
    apply Z.eqb_neq in E. rewrite E. cbn [negb].
    split; [reflexivity |].
    cbn [set_sb_lock disk_sb_features sb_features sb_lock]. auto.
Qed.

Lemma feature_gate_sets_bit_after_pools_witness :
  exists init_ret c1 pools,
    __bch2_fs_compress_init Toy.format no_memory (set_sb_lock Toy.fresh_fs true)
      (Z.lor (sb_features Toy.fresh_fs)
         (feature_flag (bch2_compression_opt_to_feature Toy.format
                          BCH_COMPRESSION_OPT_ZSTD)))
    = (init_ret, c1, pools)
    /\ Forall is_pool_init pools
    /\ disk_sb_features c1 = disk_sb_features Toy.fresh_fs.
Proof.
  destruct (feature_gate_sets_bit_after_pools Toy.format no_memory Toy.fresh_fs
              BCH_COMPRESSION_OPT_ZSTD eq_refl ltac:(discriminate)
              ltac:(vm_compute; discriminate))
    as (init_ret & c1 & pools & Hinit & Hevs & Hdisk & _).
  exists init_ret, c1, pools. auto.
Defined.

(** C2, as stated, fails where the superblock write fails: the pools
    are set up, the bit is set, the write answers -EIO, and the call
    returns 0 with the bit set. *)
Lemma flush_failure_is_not_reported :
  exists c' trace,
    bch2_check_set_has_compressed_data Toy.format failing_flush Toy.fresh_fs
      BCH_COMPRESSION_OPT_ZSTD = (0, c', trace)
    /\ In (EvWriteSuper (- EIO)) trace
    /\ Z.land (disk_sb_features Toy.fresh_fs) (feature_flag 2) = 0
    /\ Z.land (disk_sb_features c') (feature_flag 2) = feature_flag 2.
Proof.
  eexists. eexists. split; [vm_compute; reflexivity |].
  split; [cbn; tauto |]. split; reflexivity.
Qed.

(** * The rest of the file *)

(** ** Mapping and releasing *)

Lemma bounce_alloc_inv (mem : alloc_env) (c : bch_fs) (size : Z) (rw0 : rw_t)
    (buf : bbuf) :
  __bounce_alloc mem c size rw0 = Ret buf ->
  size <= Z.shiftl (sb_encoded_extent_max c) 9
  /\ b buf = sized (Z.to_nat size) (fresh mem size)
  /\ rw buf = rw0
  /\ ((type buf = BB_KMALLOC /\ kmalloc_ok mem size = true)
      \/ (type buf = BB_MEMPOOL /\ kmalloc_ok mem size = false
          /\ (mempool_nowait_ok mem rw0 = true
              \/ (vmalloc_ok mem size = false /\ mempool_noio_ok mem rw0 = true)))
      \/ (type buf = BB_VMALLOC /\ kmalloc_ok mem size = false
          /\ mempool_nowait_ok mem rw0 = false /\ vmalloc_ok mem size = true)).
Proof.
  unfold __bounce_alloc, BUG_ON.
  destruct (Z.ltb_spec (Z.shiftl (sb_encoded_extent_max c) 9) size) as [| Hsz];
    [discriminate |].
  destruct (kmalloc_ok mem size) eqn:Hk.
  { intros [= <-]. cbn [b type rw].
    split; [exact Hsz |]. split; [reflexivity |]. split; [reflexivity |].
    left. auto. }
  destruct (mempool_nowait_ok mem rw0) eqn:Hn.
  { intros [= <-]. cbn [b type rw].
    split; [exact Hsz |]. split; [reflexivity |]. split; [reflexivity |].
    right. left. auto. }
  destruct (vmalloc_ok mem size) eqn:Hv.
  { intros [= <-]. cbn [b type rw].
    split; [exact Hsz |]. split; [reflexivity |]. split; [reflexivity |].
    right. right. auto. }
  destruct (mempool_noio_ok mem rw0) eqn:Hw; [| discriminate].
  intros [= <-]. cbn [b type rw].
  split; [exact Hsz |]. split; [reflexivity |]. split; [reflexivity |].
  right. left. auto.
Qed.

Lemma map_or_bounce_inv (mem : alloc_env) (c : bch_fs) (x : bio) (start : Z)
    (rw0 : rw_t) (buf : bbuf) :
  __bio_map_or_bounce mem c x start rw0 = Ret buf ->
  sectors start <= sb_encoded_extent_max c
  /\ rw buf = rw0
  /\ ((bi_layout x = SingleVec /\ type buf = BB_NONE /\ b buf = bi_data x)
      \/ (bi_layout x = PageRuns /\ vmap_ok mem = true
          /\ type buf = BB_VMAP /\ b buf = bi_data x)
      \/ ((bi_layout x = Scattered \/ (bi_layout x = PageRuns /\ vmap_ok mem = false))
          /\ exists raw,
               __bounce_alloc mem c start rw0 = Ret raw
               /\ type buf = type raw
               /\ b buf = match rw0 with
                           | READ => write_at 0 (firstn (Z.to_nat start) (bi_data x))
                                       (b raw)
                           | WRITE => b raw
                           end)).
Proof.
  unfold __bio_map_or_bounce, BUG_ON.
  destruct (Z.ltb_spec (sb_encoded_extent_max c) (sectors start)); [discriminate |].
  assert (Hb : forall buf,
    (ret <- __bounce_alloc mem c start rw0 ;;
     Ret (match rw0 with
          | READ => mk_bbuf (write_at 0 (firstn (Z.to_nat start) (bi_data x)) (b ret))
                      (type ret) READ
          | WRITE => ret
          end)) = Ret buf ->
    rw buf = rw0
    /\ exists raw,
         __bounce_alloc mem c start rw0 = Ret raw
         /\ type buf = type raw
         /\ b buf = match rw0 with
                     | READ => write_at 0 (firstn (Z.to_nat start) (bi_data x)) (b raw)
                     | WRITE => b raw
                     end).
  { clear buf. intros buf.
    destruct (__bounce_alloc mem c start rw0) as [raw |] eqn:Ha; cbn [bind];
      [| discriminate].
    apply bounce_alloc_inv in Ha as (_ & _ & Hrw & _).
    destruct rw0; intros [= <-]; cbn; (split; [auto |]); exists raw; auto. }
  destruct (bi_layout x) eqn:Hl.
  - intros [= <-]. cbn. split; [assumption |]. split; [reflexivity |]. left. auto.
  - destruct (vmap_ok mem) eqn:Hv.
    + intros [= <-]. cbn. split; [assumption |]. split; [reflexivity |].
      right. left. auto.
    + intros H0. apply Hb in H0 as (Hrw & Hraw).
      split; [assumption |]. split; [assumption |]. right. right. auto.
  - intros H0. apply Hb in H0 as (Hrw & Hraw).
    split; [assumption |]. split; [assumption |]. right. right. auto.
Qed.

(** X1: a mapping is released to where it came from.  Nothing is
    freed for a bio mapped in place, a [vmap] is undone by [vunmap],
    and a bounce buffer goes back to the allocator tier that answered,
    in the order kmalloc, bounce pool without waiting, vmalloc, bounce
    pool with waiting; a pooled buffer returns to the pool of the
    direction it was taken for.  Nothing is said of the bytes seen
    through a [vmap]. *)
Theorem release_matches_origin
    (mem : alloc_env) (c : bch_fs) (x : bio) (start : Z) (rw0 : rw_t) (buf : bbuf) :
  __bio_map_or_bounce mem c x start rw0 = Ret buf ->
  match bio_unmap_or_unbounce buf with
  | Nothing => bi_layout x = SingleVec /\ b buf = bi_data x
  | Vunmap => bi_layout x = PageRuns /\ vmap_ok mem = true
  | Kfree => bi_layout x <> SingleVec /\ kmalloc_ok mem start = true
  | MempoolFree pool =>
      pool = rw0
      /\ bi_layout x <> SingleVec
      /\ kmalloc_ok mem start = false
      /\ (mempool_nowait_ok mem rw0 = true
          \/ (vmalloc_ok mem start = false /\ mempool_noio_ok mem rw0 = true))
  | Vfree =>
      bi_layout x <> SingleVec
      /\ kmalloc_ok mem start = false
      /\ mempool_nowait_ok mem rw0 = false
      /\ vmalloc_ok mem start = true
  end.
Proof.
  intros Hmap. unfold bio_unmap_or_unbounce.
  apply map_or_bounce_inv in Hmap
    as (_ & Hrw & [(Hl & -> & Hb) | [(Hl & Hv & -> & Hb) | (Hl & raw & Ha & -> & _)]]).
  - auto.
  - auto.
  - assert (Hns : bi_layout x <> SingleVec)
      by (destruct Hl as [-> | (-> & _)]; discriminate).
    apply bounce_alloc_inv in Ha
      as (_ & _ & _ & [(-> & Hk) | [(-> & Hk & Hp) | (-> & Hk & Hn & Hv)]]);
      auto.
Qed.

Lemma release_matches_origin_witness :
  bio_unmap_or_unbounce (mk_bbuf (sized 512 [x2a; x2a]) BB_MEMPOOL WRITE)
  = MempoolFree WRITE
  /\ kmalloc_ok tight_mem 512 = false.
Proof.
  split; [reflexivity |].
  exact (proj1 (proj2 (proj2
    (release_matches_origin tight_mem Toy.fs scattered 512 WRITE
       (mk_bbuf (sized 512 [x2a; x2a]) BB_MEMPOOL WRITE) eq_refl)))).
Defined.

(** X2: what a mapping holds when it is not a [vmap].  A bounce
    buffer is exactly as long as the range it stands for; one taken
    for reading holds a copy of the bytes of the bio; a mapping that
    nothing has to be released for is the one fragment of the bio
    itself; and no range longer than the largest encoded extent is
    mapped at all. *)
Theorem mapping_presents_bio
    (mem : alloc_env) (c : bch_fs) (x : bio) (rw0 : rw_t) (buf : bbuf) :
  Z.of_nat (length (bi_data x)) = bi_size x ->
  bio_map_or_bounce mem c x rw0 = Ret buf ->
  (type buf <> BB_VMAP -> Z.of_nat (length (b buf)) = bi_size x)
  /\ (rw0 = READ -> type buf <> BB_VMAP -> b buf = bi_data x)
  /\ (type buf = BB_NONE -> bi_layout x = SingleVec /\ b buf = bi_data x)
  /\ (aliases_bio (type buf) = false ->
      rw0 = WRITE ->
      b buf = sized (Z.to_nat (bi_size x)) (fresh mem (bi_size x)))
  /\ sectors (bi_size x) <= sb_encoded_extent_max c.
Proof.
  intros Hlen Hmap. unfold bio_map_or_bounce in Hmap.
  apply map_or_bounce_inv in Hmap
    as (Hs & _ & [(Hl & Hty & Hb) | [(_ & _ & Hty & _) | (_ & raw & Ha & Hty & Hb)]]).
  - rewrite Hty, Hb. repeat split; auto; try lia; discriminate.
  - rewrite Hty. repeat split; try contradiction; try discriminate; assumption.
  - apply bounce_alloc_inv in Ha as (_ & Hraw & _ & Hkind).
    assert (Hbounce : aliases_bio (type buf) = false /\ type buf <> BB_NONE)
      by (rewrite Hty; destruct Hkind as [(E & _) | [(E & _) | (E & _)]];
          rewrite E; (split; [reflexivity | discriminate])).
    destruct Hbounce as (Hna & Hnn).
    assert (Hcopy : write_at 0 (firstn (Z.to_nat (bi_size x)) (bi_data x))
                      (sized (Z.to_nat (bi_size x)) (fresh mem (bi_size x)))
                    = bi_data x).
    { rewrite firstn_all2 by lia. apply write_at_whole. rewrite length_sized. lia. }
    assert (Hblen : length (b buf) = Z.to_nat (bi_size x)).
    { rewrite Hb. destruct rw0; rewrite Hraw;
        [rewrite length_write_at |]; apply length_sized. }
    split; [intros _; lia |]. split; [| split; [| split]].
    + intros -> _. rewrite Hb, Hraw. exact Hcopy.
    + intros E. contradiction.
    + intros _ ->. rewrite Hb. exact Hraw.
    + exact Hs.
Qed.

Lemma mapping_presents_bio_witness :
  exists buf,
    bio_map_or_bounce tight_mem Toy.fs scattered READ = Ret buf
    /\ type buf = BB_MEMPOOL
    /\ b buf = bi_data scattered.
Proof.
  destruct (bio_map_or_bounce tight_mem Toy.fs scattered READ) as [buf |] eqn:E;
    [| exfalso; revert E; vm_compute; discriminate].
  assert (Hty : type buf = BB_MEMPOOL).
  { assert (H : match bio_map_or_bounce tight_mem Toy.fs scattered READ with
                | Ret buf => type buf | Bug => BB_NONE end = BB_MEMPOOL)
      by (vm_compute; reflexivity).
    now rewrite E in H. }
  exists buf. split; [reflexivity |]. split; [exact Hty |].
  destruct (mapping_presents_bio tight_mem Toy.fs scattered READ buf
              ltac:(vm_compute; reflexivity) E) as (_ & Hr & _).
  apply Hr; [reflexivity |]. rewrite Hty. discriminate.
Defined.

Lemma map_total (mem : alloc_env) (c : bch_fs) (x : bio) (n : Z) (rw0 : rw_t) :
  sectors n <= sb_encoded_extent_max c ->
  n <= Z.shiftl (sb_encoded_extent_max c) 9 ->
  alloc_available mem n rw0 = true ->
  exists buf, __bio_map_or_bounce mem c x n rw0 = Ret buf.
Proof.
  intros Hs Hn Ha. unfold __bio_map_or_bounce, __bounce_alloc, BUG_ON.
  apply Z.ltb_ge in Hs. rewrite Hs.
  apply Z.ltb_ge in Hn. rewrite Hn.
  unfold alloc_available in Ha.
  destruct (bi_layout x); [eauto | destruct (vmap_ok mem); [eauto |] |];
    destruct (kmalloc_ok mem n); cbn [bind]; eauto;
    destruct (mempool_nowait_ok mem rw0); cbn [bind]; eauto;
    destruct (vmalloc_ok mem n); cbn [bind]; eauto;
    destruct (mempool_noio_ok mem rw0); cbn [bind]; eauto; discriminate.
Qed.

Lemma clamp_sizes (c : bch_fs) (dst src : bio) :
  0 <= sb_encoded_extent_max c < 2 ^ 23 ->
  bi_size (clamp_src c src) <= Z.shiftl (sb_encoded_extent_max c) 9
  /\ bi_size (clamp_dst c dst src) <= Z.shiftl (sb_encoded_extent_max c) 9
  /\ bi_size (clamp_src c src) <= bi_size src
  /\ bi_size (clamp_dst c dst src) <= bi_size dst
  /\ bi_size (clamp_dst c dst src) <= bi_size (clamp_src c src).
Proof.
  intros Hmax. unfold clamp_dst, clamp_src. cbn [bi_size set_bi_size].
  rewrite Z.shiftl_mul_pow2 by lia.
  rewrite to_unsigned_small by lia. lia.
Qed.

Lemma sectors_le_max (c : bch_fs) (n : Z) :
  n <= Z.shiftl (sb_encoded_extent_max c) 9 -> sectors n <= sb_encoded_extent_max c.
Proof.
  unfold sectors. intros H.
  rewrite Z.shiftl_mul_pow2 in H by lia.
  rewrite Z.shiftr_div_pow2 by lia.
  rewrite <- (Z.div_mul (sb_encoded_extent_max c) (2 ^ 9)) by lia.
  apply Z.div_le_mono; lia.
Qed.

(** X3: a bio longer than the maximum encoded extent cannot be mapped,
    the thread dies in [BUG_ON]; but the bios [bch2_bio_compress]
    hands on are clamped, so their mapping trips neither size
    assertion and comes back whenever one allocator tier answers. *)
Theorem clamped_bios_always_map
    (mem : alloc_env) (c : bch_fs) (dst src : bio) :
  0 <= sb_encoded_extent_max c < 2 ^ 23 ->
  alloc_available mem (bi_size (clamp_src c src)) READ = true ->
  alloc_available mem (bi_size (clamp_dst c dst src)) WRITE = true ->
  (exists sd, bio_map_or_bounce mem c (clamp_src c src) READ = Ret sd)
  /\ (exists dd, bio_map_or_bounce mem c (clamp_dst c dst src) WRITE = Ret dd)
  /\ (forall x rw0,
        sb_encoded_extent_max c < sectors (bi_size x) ->
        bio_map_or_bounce mem c x rw0 = Bug).
Proof.
  intros Hmax Hr Hw.
  destruct (clamp_sizes c dst src Hmax) as (Hs & Hd & _).
  unfold bio_map_or_bounce. split; [| split].
  - apply map_total; auto using sectors_le_max.
  - apply map_total; auto using sectors_le_max.
  - intros x rw0 Hbig. unfold __bio_map_or_bounce, BUG_ON.
    apply Z.ltb_lt in Hbig. now rewrite Hbig.
Qed.

Lemma clamped_bios_always_map_witness :
  (exists sd, bio_map_or_bounce tight_mem small_extents
                (clamp_src small_extents four_blocks) READ = Ret sd)
  /\ bio_map_or_bounce tight_mem small_extents four_blocks READ = Bug.
Proof.
  destruct (clamped_bios_always_map tight_mem small_extents four_blocks four_blocks
              ltac:(cbn; lia) eq_refl eq_refl) as (Hsrc & _ & Hbig).
  split; [exact Hsrc |].
  apply Hbig. vm_compute. reflexivity.
Defined.

(** ** Decompression into a bio *)

Lemma uncompress_ret_cases (lib : codec_lib) (mem : alloc_env) (c : bch_fs)
    (src : bio) (dst_data : list byte) (crc : bch_extent_crc_unpacked)
    (r : uncompressed) :
  __bio_uncompress lib mem c src dst_data crc = Ret r ->
  (u_ret r = 0 \/ u_ret r = - EIO)
  /\ u_dst r = write_at 0 (u_stored r) dst_data.
Proof.
  unfold __bio_uncompress.
  destruct (bio_map_or_bounce mem c src READ) as [sd |]; cbn [bind]; [| discriminate].
  destruct (compression_type crc); try discriminate;
    intros [= <-]; cbn [u_ret u_dst u_stored];
    (split; [| reflexivity]);
    match goal with |- context [if ?t then _ else _] => destruct t end; auto.
Qed.

(** The buffer [bch2_bio_uncompress] decodes into. *)
Lemma uncompress_target_inv (mem : alloc_env) (c : bch_fs) (dst : bio)
    (dst_iter : Z) (crc : bch_extent_crc_unpacked) (dd : bbuf) :
  Z.of_nat (length (bi_data dst)) = dst_iter ->
  (if uncompress_dst_len crc =? dst_iter
   then __bio_map_or_bounce mem c dst dst_iter WRITE
   else __bounce_alloc mem c (to_unsigned (uncompress_dst_len crc)) WRITE) = Ret dd ->
  (aliases_bio (type dd) = true ->
   uncompress_dst_len crc = dst_iter
   /\ b dd = bi_data dst
   /\ (bi_layout dst = SingleVec \/ (bi_layout dst = PageRuns /\ vmap_ok mem = true)))
  /\ (is_BB_NONE (type dd) = true -> bi_layout dst = SingleVec)
  /\ (uncompress_dst_len crc <> dst_iter -> aliases_bio (type dd) = false).
Proof.
  intros Hlen.
  assert (Hraw : forall n raw,
    __bounce_alloc mem c n WRITE = Ret raw ->
    aliases_bio (type raw) = false /\ is_BB_NONE (type raw) = false).
  { intros n raw Ha.
    apply bounce_alloc_inv in Ha as (_ & _ & _ & [(E & _) | [(E & _) | (E & _)]]);
      rewrite E; auto. }
  destruct (Z.eqb_spec (uncompress_dst_len crc) dst_iter) as [E | E].
  - intros Hmap.
    apply map_or_bounce_inv in Hmap
      as (_ & _ & [(Hl & Hty & Hb) | [(Hl & Hv & Hty & Hb) | (_ & raw & Ha & Hty & _)]]).
    + rewrite Hty. cbn [aliases_bio is_BB_NONE].
      split; [intros _; auto |]. split; [auto |]. intros H; contradiction.
    + rewrite Hty. cbn [aliases_bio is_BB_NONE].
      split; [intros _; auto |]. split; [discriminate |]. intros H; contradiction.
    + apply Hraw in Ha as (Ha1 & Ha2). rewrite Hty, Ha1, Ha2.
      split; [discriminate |]. split; [discriminate |]. reflexivity.
  - intros Ha. apply Hraw in Ha as (Ha1 & Ha2). rewrite Ha1, Ha2.
    split; [discriminate |]. split; [discriminate |]. reflexivity.
Qed.

(** X4: [bch2_bio_uncompress] returns 0 or -EIO.  An extent larger
    than [encoded_extent_max] is refused with -EIO before anything is
    mapped or decoded.  The length of the destination bio never
    changes, and a failed call leaves its bytes alone unless the bio
    was mapped in place, in which case the codec wrote straight into
    it. *)
Theorem bio_uncompress_failure_is_clean
    (lib : codec_lib) (mem : alloc_env) (c : bch_fs) (src dst : bio)
    (dst_iter : Z) (crc : bch_extent_crc_unpacked)
    (ret : Z) (dst' : bio) (w : option (Z * Z)) :
  Z.of_nat (length (bi_data dst)) = dst_iter ->
  bch2_bio_uncompress lib mem c src dst dst_iter crc = Ret (ret, dst', w) ->
  (ret = 0 \/ ret = - EIO)
  /\ bi_size dst' = bi_size dst
  /\ length (bi_data dst') = length (bi_data dst)
  /\ (extent_too_big c crc = true -> ret = - EIO /\ dst' = dst /\ w = None)
  /\ (w = None -> extent_too_big c crc = true)
  /\ (ret <> 0 ->
      dst' = dst
      \/ (uncompress_dst_len crc = dst_iter
          /\ (bi_layout dst = SingleVec
              \/ (bi_layout dst = PageRuns /\ vmap_ok mem = true)))).
Proof.
  intros Hlen. unfold bch2_bio_uncompress.
  destruct (extent_too_big c crc) eqn:Hbig.
  { intros [= <- <- <-]. unfold EIO. repeat split; auto; discriminate. }
  destruct (if uncompress_dst_len crc =? dst_iter then _ else _) as [dd |] eqn:Hdd;
    cbn [bind]; [| discriminate].
  destruct (__bio_uncompress lib mem c src (b dd) crc) as [r |] eqn:Hr;
    cbn [bind]; [| discriminate].
  destruct (uncompress_ret_cases _ _ _ _ _ _ _ Hr) as (Hret & Hdst).
  destruct (uncompress_target_inv mem c dst dst_iter crc dd Hlen Hdd)
    as (Halias & Hnone & Hbounce).
  intros [= <- <- <-].
  split; [exact Hret |]. split.
  { destruct (aliases_bio (type dd)), (_ && _); reflexivity. }
  split.
  { assert (Hu : length (u_dst r) = length (b dd))
      by (rewrite Hdst; apply length_write_at).
    destruct (aliases_bio (type dd)) eqn:Ha.
    - destruct (Halias eq_refl) as (_ & Hb & _). rewrite Hb in Hu.
      destruct (_ && _); unfold memcpy_to_bio, set_bi_data; cbn [bi_data];
        rewrite ?length_write_at; exact Hu.
    - destruct (_ && _); unfold memcpy_to_bio, set_bi_data; cbn [bi_data];
        rewrite ?length_write_at; reflexivity. }
  split; [discriminate |]. split; [discriminate |].
  intros Hfail.
  replace (u_ret r =? 0) with false by (symmetry; now apply Z.eqb_neq).
  cbn [andb].
  destruct (aliases_bio (type dd)) eqn:Ha.
  - right. destruct (Halias eq_refl) as (E & _ & Hl). auto.
  - now left.
Qed.

Lemma bio_uncompress_failure_is_clean_witness :
  exists w,
    bch2_bio_uncompress Toy.lib tight_mem Toy.fs (Toy.bio_of (Toy.zeros 512))
      scattered 512 garbage_zstd_crc = Ret (- EIO, scattered, w)
    /\ (- EIO = 0 \/ - EIO = - EIO).
Proof.
  eexists. 
  assert (E : bch2_bio_uncompress Toy.lib tight_mem Toy.fs (Toy.bio_of (Toy.zeros 512))
                scattered 512 garbage_zstd_crc = Ret (- EIO, scattered, Some (4, 0)))
    by (vm_compute; reflexivity).
  split; [exact E |].
  exact (proj1 (bio_uncompress_failure_is_clean _ _ _ _ _ _ _ _ _ _
                  ltac:(vm_compute; reflexivity) E)).
Defined.



(** ** Codec ids and the search *)

(** X6: [bch2_bio_compress] answers with codec id 0 or with the
    current id of the codec it was asked for, never with the legacy
    LZ4 id; a request for the legacy id is the request for LZ4. *)
Theorem compress_never_returns_legacy_id
    (lib : codec_lib) (mem : alloc_env) (fuel : nat) (c : bch_fs)
    (dst : bio) (dst_len : Z) (src : bio) (src_len : Z)
    (t : bch_compression_type) (r : compressed) :
  bch2_bio_compress lib mem fuel c dst dst_len src src_len t = Some (Ret r) ->
  k_type r <> BCH_COMPRESSION_LZ4_OLD
  /\ (k_type r = BCH_COMPRESSION_NONE \/ k_type r = current_id t)
  /\ bch2_bio_compress lib mem fuel c dst dst_len src src_len (current_id t)
     = Some (Ret r).
Proof.
  intros Hrun.
  assert (Hsame : bch2_bio_compress lib mem fuel c dst dst_len src src_len (current_id t)
                  = bch2_bio_compress lib mem fuel c dst dst_len src src_len t)
    by (destruct t; reflexivity).
  rewrite Hsame. split; [| split; [| exact Hrun]].
  all: unfold bch2_bio_compress in Hrun; fold (current_id t) in Hrun.
  all: destruct (__bio_compress lib mem fuel c _ dst_len _ src_len (current_id t))
         as [[r' |] |] eqn:Hin; try discriminate.
  all: injection Hrun as <-; cbn [k_type].
  all: apply bio_compress_inv in Hin
         as (_ & [(_ & ->) | (_ & dd & sd & e & st & _ & _ & _ & Hfin)]).
  all: try (apply compress_finish_inv in Hfin
              as (_ & _ & _ & _ & [(-> & _) | (_ & -> & _)])).
  all: cbn [k_type]; auto; try discriminate.
  destruct t; discriminate.
Qed.

Lemma compress_never_returns_legacy_id_witness :
  exists r,
    bch2_bio_compress Toy.lib Toy.mem 4 small_extents four_blocks 0 four_blocks 0
      BCH_COMPRESSION_LZ4_OLD = Some (Ret r)
    /\ k_type r <> BCH_COMPRESSION_LZ4_OLD.
Proof.
  destruct (bch2_bio_compress Toy.lib Toy.mem 4 small_extents four_blocks 0
              four_blocks 0 BCH_COMPRESSION_LZ4_OLD) as [[r |] |] eqn:E;
    [| exfalso; revert E; vm_compute; discriminate
     | exfalso; revert E; vm_compute; discriminate].
  exists r. split; [reflexivity |].
  exact (proj1 (compress_never_returns_legacy_id _ _ _ _ _ _ _ _ _ _ E)).
Defined.

Lemma attempt_answer (lib : codec_lib) (dst : list byte) (dst_len : Z)
    (src : list byte) (src_len : Z) (t : bch_compression_type) :
  0 <= src_len < 2 ^ 32 ->
  answers_length lib t src src_len dst_len ->
  exists ret dst',
    attempt_compress lib dst dst_len src src_len t = Ret (ret, dst')
    /\ - 2 ^ 31 < ret
    /\ (0 <= ret \/ - src_len < ret).
Proof.
  intros Hs Hans. unfold attempt_compress, answers_length in *.
  destruct t; try contradiction.
  - destruct (negb _); [| destruct (negb _)]; eexists; eexists;
      (split; [reflexivity |]); lia.
  - set (len := to_int (lz4_consumed _)).
    pose proof (to_int_range (lz4_consumed
      (LZ4_compress_destSize lib src (to_int src_len) (to_int dst_len)))) as Hl.
    fold len in Hl.
    destruct (Z.ltb_spec (to_size_t len) src_len) as [Hhint | Hfull].
    + assert (Hpos : 0 <= len).
      { destruct (Z.lt_ge_cases len 0) as [Hneg | ]; [| assumption].
        exfalso. unfold to_size_t, wrap in Hhint.
        replace len with (len + 1 * 2 ^ 64 - 1 * 2 ^ 64) in Hhint by lia.
        rewrite Zminus_mod, Z_mod_same_full, Z.sub_0_r, Z.mod_mod in Hhint by lia.
        rewrite Z.mod_small in Hhint by lia. lia. }
      rewrite to_size_t_small in Hhint by lia.
      eexists. eexists. split; [reflexivity |].
      rewrite to_int_small by lia. lia.
    + eexists. eexists. split; [reflexivity |]. lia.
  - destruct (ZSTD_isError lib _); eexists; eexists; (split; [reflexivity |]); lia.
Qed.

(** X7: a turn of the search cannot die.  For the three codecs the
    default [BUG()] of [attempt_compress] is out of reach, and unless
    the codec library answers with a negative length the hint is
    smaller than the attempt size, so that [BUG_ON(-ret >= *src_len)]
    does not fire: the turn leaves the loop or shrinks the attempt. *)
Theorem search_turn_never_dies
    (lib : codec_lib) (bb : Z) (t : bch_compression_type) (src : list byte)
    (st : loop_state) :
  0 <= l_dst_len st ->
  0 <= l_src_len st < 2 ^ 32 ->
  answers_length lib t src (l_src_len st) (l_dst_len st) ->
  loop_body lib bb t src st <> Crash
  /\ forall st',
       loop_body lib bb t src st = Again st' ->
       0 <= l_src_len st' <= l_src_len st /\ l_dst_len st' = l_dst_len st.
Proof.
  intros Hd Hs Hans. split.
  - unfold loop_body.
    destruct (l_src_len st <=? bb); [discriminate |].
    destruct (attempt_answer lib (l_dst st) (l_dst_len st) src (l_src_len st) t Hs Hans)
      as (ret & dst' & -> & Hmin & Hret).
    pose proof (attempt_compress_int lib (l_dst st) (l_dst_len st) src (l_src_len st) t)
      as Hint.
    destruct (Z.ltb_spec 0 ret); [discriminate |].
    destruct (Z.leb_spec (l_src_len st) (l_dst_len st)); [discriminate |].
    rewrite to_int_small by lia. rewrite to_size_t_small by lia.
    destruct (Z.leb_spec (l_src_len st) (- ret)); [lia | discriminate].
  - intros st' Hturn.
    destruct (loop_body_again lib bb t src st st' Hd Hs Hturn)
      as (ret & dst' & _ & -> & _ & Hgap & Hret & Hnext).
    cbn [l_src_len l_dst_len]. rewrite Hnext.
    split; [| reflexivity].
    apply next_src_len_le; lia.
Qed.

Lemma search_turn_never_dies_witness :
  loop_body Toy.lib 512 BCH_COMPRESSION_LZ4 (bi_data dense_blocks)
    (mk_loop 1024 600 (bi_data roomy) []) <> Crash.
Proof.
  exact (proj1 (search_turn_never_dies Toy.lib 512 BCH_COMPRESSION_LZ4
                  (bi_data dense_blocks) (mk_loop 1024 600 (bi_data roomy) [])
                  ltac:(cbn; lia) ltac:(cbn; lia)
                  ltac:(vm_compute; discriminate))).
Defined.

(** ** Pool set-up *)

Lemma pool_id_eqb_eq (p q : pool_id) : pool_id_eqb p q = true <-> p = q.
Proof.
  destruct p as [[] | [] |], q as [[] | [] |]; cbn; split;
    intros H; try reflexivity; try discriminate H.
Qed.

Lemma get_set_pool (c : bch_fs) (p q : pool_id) (m : mempool) :
  get_pool (set_pool c p m) q = if pool_id_eqb q p then m else get_pool c q.
Proof. destruct p as [[] | [] |], q as [[] | [] |]; reflexivity. Qed.

Lemma same_words_refl c : same_words c c.
Proof. unfold same_words. auto. Qed.

Lemma same_words_trans c1 c2 c3 :
  same_words c1 c2 -> same_words c2 c3 -> same_words c1 c3.
Proof. unfold same_words. intuition congruence. Qed.

Lemma same_words_set_pool c p m : same_words c (set_pool c p m).
Proof. unfold same_words. destruct p; cbn; auto. Qed.

Lemma setup_inv_nil c : setup_inv c 0 c [].
Proof.
  unfold setup_inv. split; [apply same_words_refl |]. split; [reflexivity |].
  split; [now left |]. split; [intros e [] |]. split; [constructor | lia].
Qed.

Section Setup.

Variable fmt : bch_format.
Variable env : gate_env.

Lemma init_pool_inv p size c ret c' evs :
  init_pool env p size c = (ret, c', evs) ->
  setup_inv c ret c' evs
  /\ (forall e, In e evs -> e = EvPoolInit p size ret)
  /\ (ret = 0 -> mempool_initialized (get_pool c' p) = true).
Proof.
  unfold init_pool.
  destruct (get_pool c p) as [sz |] eqn:Hp; cbn [mempool_initialized].
  - intros [= <- <- <-]. split; [apply setup_inv_nil |].
    split; [intros e [] |]. now rewrite Hp.
  - intros [= <- <- <-].
    set (ret := mempool_init_ret env p size).
    split; [| split].
    + unfold setup_inv. destruct (Z.eqb_spec ret 0) as [E | E].
      * split; [apply same_words_set_pool |]. split; [now destruct p |].
        split.
        { intros q. rewrite get_set_pool.
          destruct (pool_id_eqb q p) eqn:Hq; [| now left].
          apply pool_id_eqb_eq in Hq. subst q. right.
          split; [exact Hp |]. exists size. rewrite E. cbn. auto. }
        split.
        { intros e [<- | []]. exists p, size, ret.
          rewrite get_set_pool.
          replace (pool_id_eqb p p) with true
            by (symmetry; now apply pool_id_eqb_eq).
          auto. }
        split; [repeat constructor; cbn; tauto | contradiction].
      * split; [apply same_words_refl |]. split; [reflexivity |].
        split; [now left |]. split.
        { intros e [<- | []]. exists p, size, ret.
          split; [reflexivity |]. split; [exact Hp |].
          split; [contradiction | reflexivity]. }
        split; [repeat constructor; cbn; tauto |]. intros _. cbn. auto.
    + intros e [<- | []]. reflexivity.
    + intros E. rewrite E. cbn. rewrite get_set_pool.
      replace (pool_id_eqb p p) with true by (symmetry; now apply pool_id_eqb_eq).
      reflexivity.
Qed.

(** Two stretches in a row, the first of which succeeded. *)
Lemma setup_inv_app c c1 c2 ret e1 e2 :
  setup_inv c 0 c1 e1 -> setup_inv c1 ret c2 e2 -> setup_inv c ret c2 (e1 ++ e2).
Proof.
  intros (Hw1 & Hz1 & Ha1 & Hb1 & Hn1 & _) (Hw2 & Hz2 & Ha2 & Hb2 & Hn2 & Hr2).
  unfold setup_inv.
  split; [eapply same_words_trans; eassumption |]. split; [congruence |].
  split; [| split; [| split]].
  - intros q.
    destruct (Ha1 q) as [E1 | (N1 & s1 & S1 & I1)],
             (Ha2 q) as [E2 | (N2 & s2 & S2 & I2)].
    + left. congruence.
    + right. split; [congruence |]. exists s2. split; [assumption |].
      apply in_or_app. now right.
    + right. split; [assumption |]. exists s1. split; [congruence |].
      apply in_or_app. now left.
    + congruence.
  - intros e He. apply in_app_or in He as [He | He].
    + destruct (Hb1 e He) as (q & size & r & -> & Hq & Hok & Hfail).
      exists q, size, r. split; [reflexivity |]. split; [assumption |].
      assert (Hr0 : r = 0) by (destruct (Z.eq_dec r 0); [assumption | symmetry; auto]).
      split; [| intros; lia].
      intros _. destruct (Ha2 q) as [E2 | (N2 & _)]; [| rewrite Hok in N2 by assumption;
        discriminate]. rewrite E2. auto.
    + destruct (Hb2 e He) as (q & size & r & -> & Hq & Hok & Hfail).
      exists q, size, r. split; [reflexivity |]. split; [| auto].
      destruct (Ha1 q) as [E1 | (_ & s1 & S1 & _)]; congruence.
  - rewrite map_app. apply NoDup_app; try assumption.
    intros o Ho1 Ho2.
    apply in_map_iff in Ho1 as (x1 & <- & Hx1).
    apply in_map_iff in Ho2 as (x2 & Heq & Hx2).
    destruct (Hb1 x1 Hx1) as (q1 & s1 & r1 & -> & _ & Hok1 & Hfail1).
    destruct (Hb2 x2 Hx2) as (q2 & s2 & r2 & -> & Hq2 & _).
    cbn in Heq. injection Heq as ->.
    assert (Hr0 : r1 = 0) by (destruct (Z.eq_dec r1 0); [assumption | symmetry; auto]).
    rewrite Hok1 in Hq2 by assumption. discriminate.
  - intros Hret. rewrite map_app. apply in_or_app. right. auto.
Qed.

Lemma init_compress_workspaces_inv features rows :
  forall size c ret size' c' evs,
    init_compress_workspaces env features rows size c = (ret, size', c', evs) ->
    setup_inv c ret c' evs
    /\ (forall e, In e evs ->
         exists i r, In i rows /\ has_feature features i = true
                     /\ e = EvPoolInit (CompressPool (row_type i))
                               (row_compress_workspace i) r)
    /\ (ret = 0 ->
        size' = fold_left (fun acc i => Z.max acc (row_decompress_workspace i))
                  rows size).
Proof.
  induction rows as [| i rest IH]; intros size c ret size' c' evs;
    cbn [init_compress_workspaces fold_left].
  - intros [= <- <- <- <-]. split; [apply setup_inv_nil |].
    split; [intros e [] | auto].
  - destruct (has_feature features i) eqn:Hf; cbn [negb].
    + destruct (init_pool env (CompressPool (row_type i)) (row_compress_workspace i) c)
        as [[ret1 c1] ev1] eqn:H1.
      apply init_pool_inv in H1 as (Hinv1 & Hev1 & _).
      destruct (Z.eqb_spec ret1 0) as [E | E]; cbn [negb].
      * destruct (init_compress_workspaces env features rest _ c1)
          as [[[ret2 size2] c2] ev2] eqn:H2.
        apply IH in H2 as (Hinv2 & Hev2 & Hsz2).
        intros [= <- <- <- <-]. subst ret1.
        split; [eapply setup_inv_app; eassumption |]. split; [| assumption].
        intros e He. apply in_app_or in He as [He | He].
        -- exists i, 0. split; [now left |]. split; [assumption |]. auto.
        -- destruct (Hev2 e He) as (j & r & Hj & Hfj & ->).
           exists j, r. split; [now right |]. auto.
      * intros [= <- <- <- <-]. split; [assumption |].
        split; [| contradiction].
        intros e He. exists i, ret1. split; [now left |]. split; [assumption |]. auto.
    + intros H. apply IH in H as (Hinv & Hev & Hsz).
      split; [assumption |]. split; [| assumption].
      intros e He. destruct (Hev e He) as (j & r & Hj & Hfj & ->).
      exists j, r. split; [now right |]. auto.
Qed.

Lemma any_feature features max_extent :
  existsb (has_feature features) (compression_types fmt max_extent)
  = has_bit features (BCH_FEATURE_LZ4 fmt)
    || has_bit features (BCH_FEATURE_GZIP fmt)
    || has_bit features (BCH_FEATURE_ZSTD fmt).
Proof. cbn. unfold has_feature, has_bit. cbn. now rewrite Bool.orb_false_r, Bool.orb_assoc. Qed.

Lemma setup_inv_zstd_params c ret c' evs p :
  setup_inv (set_zstd_params c p) ret c' evs ->
  same_words c c'
  /\ zstd_params c' = p
  /\ (forall q, get_pool c' q = get_pool c q
                \/ (get_pool c q = None
                    /\ exists size, get_pool c' q = Some size
                                    /\ In (EvPoolInit q size 0) evs))
  /\ (forall e, In e evs ->
                exists q size r,
                  e = EvPoolInit q size r /\ get_pool c q = None
                  /\ (r = 0 -> get_pool c' q = Some size)
                  /\ (r <> 0 -> ret = r))
  /\ NoDup (map ev_pool evs)
  /\ (ret <> 0 -> exists q size, In (EvPoolInit q size ret) evs).
Proof.
  intros (Hw & Hz & Ha & Hb & Hn & Hr).
  assert (Hg : forall q, get_pool (set_zstd_params c p) q = get_pool c q)
    by (intros [| |]; reflexivity).
  split; [exact Hw |]. split; [exact Hz |].
  split; [intros q; rewrite <- Hg; apply Ha |].
  split; [intros e He; destruct (Hb e He) as (q & size & r & H1 & H2 & H3);
          exists q, size, r; rewrite <- Hg; auto |].
  split; [exact Hn |].
  intros Hret. apply Hr in Hret. apply in_map_iff in Hret as (e & He & Hin).
  destruct (Hb e Hin) as (q & size & r & -> & _). cbn in He. subst r. eauto.
Qed.

(** The whole of [__bch2_fs_compress_init]. *)
Lemma compress_init_inv c features ret c' evs :
  __bch2_fs_compress_init fmt env c features = (ret, c', evs) ->
  setup_inv (set_zstd_params c (to_size_t (Z.shiftl (sb_encoded_extent_max c) 9)))
    ret c' evs
  /\ (forall e, In e evs ->
       exists q r,
         e = EvPoolInit q
               (intended_size fmt (to_size_t (Z.shiftl (sb_encoded_extent_max c) 9)) q) r
         /\ wanted fmt features q = true).
Proof.
  unfold __bch2_fs_compress_init.
  set (max_extent := to_size_t (Z.shiftl (sb_encoded_extent_max c) 9)).
  set (c0 := set_zstd_params c max_extent).
  rewrite any_feature.
  destruct (has_bit features (BCH_FEATURE_LZ4 fmt)
            || has_bit features (BCH_FEATURE_GZIP fmt)
            || has_bit features (BCH_FEATURE_ZSTD fmt)) eqn:Hany; cbn [negb].
  2:{ intros [= <- <- <-]. split; [apply setup_inv_nil | intros e []]. }
  assert (Hrows : forall e,
    (exists i r, In i (compression_types fmt max_extent)
                 /\ has_feature features i = true
                 /\ e = EvPoolInit (CompressPool (row_type i))
                           (row_compress_workspace i) r) ->
    exists q r, e = EvPoolInit q (intended_size fmt max_extent q) r
                /\ wanted fmt features q = true).
  { intros e (i & r & Hi & Hf & ->).
    destruct Hi as [<- | [<- | [<- | []]]].
    - exists (CompressPool BCH_COMPRESSION_LZ4), r. split; [reflexivity | exact Hf].
    - exists (CompressPool BCH_COMPRESSION_GZIP), r. split; [reflexivity | exact Hf].
    - exists (CompressPool BCH_COMPRESSION_ZSTD), r. split; [reflexivity | exact Hf]. }
  destruct (init_pool env (BouncePool READ) _ c0) as [[ret1 c1] ev1] eqn:H1.
  apply init_pool_inv in H1 as (Hinv1 & Hev1 & _).
  assert (Hq1 : forall e, In e ev1 ->
            exists q r, e = EvPoolInit q (intended_size fmt max_extent q) r
                        /\ wanted fmt features q = true).
  { intros e He. rewrite (Hev1 e He). exists (BouncePool READ), ret1. auto. }
  destruct (Z.eqb_spec ret1 0) as [E1 | E1]; cbn [negb].
  2:{ intros [= <- <- <-]. auto. }
  subst ret1.
  destruct (init_pool env (BouncePool WRITE) _ c1) as [[ret2 c2] ev2] eqn:H2.
  apply init_pool_inv in H2 as (Hinv2 & Hev2 & _).
  assert (Hq2 : forall e, In e ev2 ->
            exists q r, e = EvPoolInit q (intended_size fmt max_extent q) r
                        /\ wanted fmt features q = true).
  { intros e He. rewrite (Hev2 e He). exists (BouncePool WRITE), ret2. auto. }
  pose proof (setup_inv_app _ _ _ _ _ _ Hinv1 Hinv2) as Hinv12.
  destruct (Z.eqb_spec ret2 0) as [E2 | E2]; cbn [negb].
  2:{ intros [= <- <- <-]. split; [assumption |].
      intros e He. apply in_app_or in He as [He | He]; auto. }
  subst ret2.
  destruct (init_compress_workspaces env features _ 0 c2)
    as [[[ret3 size3] c3] ev3] eqn:H3.
  apply init_compress_workspaces_inv in H3 as (Hinv3 & Hev3 & Hsz3).
  pose proof (setup_inv_app _ _ _ _ _ _ Hinv12 Hinv3) as Hinv123.
  rewrite <- app_assoc in Hinv123.
  destruct (Z.eqb_spec ret3 0) as [E3 | E3]; cbn [negb].
  2:{ intros [= <- <- <-]. split; [assumption |].
      intros e He. apply in_app_or in He as [He | He]; auto.
      apply in_app_or in He as [He | He]; auto. }
  subst ret3.
  destruct (init_pool env DecompressPool size3 c3) as [[ret4 c4] ev4] eqn:H4.
  apply init_pool_inv in H4 as (Hinv4 & Hev4 & _).
  pose proof (setup_inv_app _ _ _ _ _ _ Hinv123 Hinv4) as Hall.
  rewrite <- !app_assoc in Hall.
  intros [= <- <- <-]. split; [assumption |].
  intros e He.
  apply in_app_or in He as [He | He]; auto.
  apply in_app_or in He as [He | He]; auto.
  apply in_app_or in He as [He | He]; auto.
  rewrite (Hev4 e He). exists DecompressPool, ret4.
  rewrite (Hsz3 eq_refl). auto.
Qed.

End Setup.

(** X8: [__bch2_fs_compress_init] touches nothing but pools that are
    missing and that the feature bits ask for.  Every pool is as it
    was, or was missing, is asked for and now has the element size
    meant for it; each initialisation in the run is the only one of
    its pool; the feature words, the sizes and the lock are as they
    were; and a nonzero return value is that of an initialisation
    that failed. *)
Theorem pool_setup_touches_only_missing_pools
    (fmt : bch_format) (env : gate_env) (c : bch_fs) (features : Z)
    (ret : Z) (c' : bch_fs) (evs : list gate_event) :
  __bch2_fs_compress_init fmt env c features = (ret, c', evs) ->
  same_words c c'
  /\ zstd_params c' = to_size_t (Z.shiftl (sb_encoded_extent_max c) 9)
  /\ (forall q,
        get_pool c' q = get_pool c q
        \/ (get_pool c q = None
            /\ wanted fmt features q = true
            /\ get_pool c' q
               = Some (intended_size fmt
                         (to_size_t (Z.shiftl (sb_encoded_extent_max c) 9)) q)))
  /\ NoDup (map ev_pool evs)
  /\ (forall e, In e evs ->
        exists q r,
          e = EvPoolInit q
                (intended_size fmt (to_size_t (Z.shiftl (sb_encoded_extent_max c) 9)) q)
                r
          /\ get_pool c q = None
          /\ wanted fmt features q = true)
  /\ (ret <> 0 -> exists q size, In (EvPoolInit q size ret) evs).
Proof.
  intros Hrun.
  apply compress_init_inv in Hrun as (Hinv & Hev).
  apply setup_inv_zstd_params in Hinv as (Hw & Hz & Ha & Hb & Hn & Hr).
  split; [exact Hw |]. split; [exact Hz |]. split; [| split; [exact Hn | split]].
  - intros q. destruct (Ha q) as [E | (Hq & size & Hs & Hin)]; [now left |].
    right. split; [exact Hq |].
    destruct (Hev _ Hin) as (q' & r & [= <- -> <-] & Hwant).
    auto.
  - intros e He.
    destruct (Hev e He) as (q & r & -> & Hwant).
    destruct (Hb _ He) as (q' & size' & r' & [= <- <- <-] & Hq & _).
    exists q, r. auto.
  - exact Hr.
Qed.

Lemma pool_setup_touches_only_missing_pools_witness :
  exists c' evs,
    __bch2_fs_compress_init Toy.format plenty Toy.fresh_fs 4 = (0, c', evs)
    /\ NoDup (map ev_pool evs)
    /\ same_words Toy.fresh_fs c'.
Proof.
  destruct (__bch2_fs_compress_init Toy.format plenty Toy.fresh_fs 4)
    as [[ret c'] evs] eqn:E.
  assert (Hret : ret = 0).
  { assert (H : fst (fst (__bch2_fs_compress_init Toy.format plenty Toy.fresh_fs 4)) = 0)
      by (vm_compute; reflexivity).
    now rewrite E in H. }
  subst ret. exists c', evs. split; [reflexivity |].
  destruct (pool_setup_touches_only_missing_pools _ _ _ _ _ _ _ E)
    as (Hw & _ & _ & Hn & _).
  split; [exact Hn | exact Hw].
Defined.

Lemma wanted_ready (fmt : bch_format) (env : gate_env) (c : bch_fs) (features : Z)
    (c' : bch_fs) (evs : list gate_event) (q : pool_id) :
  __bch2_fs_compress_init fmt env c features = (0, c', evs) ->
  wanted fmt features q = true ->
  mempool_initialized (get_pool c' q) = true.
Proof.
  intros Hrun Hwant.
  pose proof (compress_init_spec fmt env _ _ _ _ _ Hrun) as (_ & _ & Hready).
  specialize (Hready eq_refl).
  set (max_extent := to_size_t (Z.shiftl (sb_encoded_extent_max c) 9)) in *.
  assert (Hrow : forall i, In i (compression_types fmt max_extent) ->
                           has_feature features i = true ->
                           pools_ready c' (row_type i)) by exact Hready.
  assert (Hany : has_bit features (BCH_FEATURE_LZ4 fmt)
                 || has_bit features (BCH_FEATURE_GZIP fmt)
                 || has_bit features (BCH_FEATURE_ZSTD fmt) = true ->
                 exists i, In i (compression_types fmt max_extent)
                           /\ has_feature features i = true).
  { rewrite <- (any_feature fmt features max_extent). intros H.
    apply existsb_exists in H. exact H. }
  destruct q as [rw0 | t |].
  - destruct (Hany Hwant) as (i & Hi & Hf).
    destruct (Hrow i Hi Hf) as (Hr & Hw & _). destruct rw0; assumption.
  - destruct t; try discriminate Hwant.
    + apply (Hrow (mk_row (BCH_FEATURE_GZIP fmt) BCH_COMPRESSION_GZIP
                     (zlib_deflate_workspacesize fmt) (zlib_inflate_workspacesize fmt)));
        [cbn; auto | exact Hwant].
    + apply (Hrow (mk_row (BCH_FEATURE_LZ4 fmt) BCH_COMPRESSION_LZ4
                     (LZ4_MEM_COMPRESS fmt) 0)); [cbn; auto | exact Hwant].
    + apply (Hrow (mk_row (BCH_FEATURE_ZSTD fmt) BCH_COMPRESSION_ZSTD
                     (ZSTD_CCtxWorkspaceBound fmt max_extent)
                     (ZSTD_DCtxWorkspaceBound fmt))); [cbn; auto | exact Hwant].
  - destruct (Hany Hwant) as (i & Hi & Hf).
    now destruct (Hrow i Hi Hf) as (_ & _ & _ & Hd).
Qed.

(** X9: when [__bch2_fs_compress_init] returns 0, every pool the
    feature bits ask for exists: both bounce pools, the workspace of
    each codec whose bit is set, and the one decompression workspace.
    That workspace, where this run created it, is as large as the
    largest requirement of all three codecs, whichever bits are
    set. *)
Theorem pool_setup_makes_wanted_pools
    (fmt : bch_format) (env : gate_env) (c : bch_fs) (features : Z)
    (c' : bch_fs) (evs : list gate_event) :
  __bch2_fs_compress_init fmt env c features = (0, c', evs) ->
  (forall q, wanted fmt features q = true ->
             mempool_initialized (get_pool c' q) = true)
  /\ (decompress_workspace c = None ->
      wanted fmt features DecompressPool = true ->
      exists size,
        decompress_workspace c' = Some size
        /\ 0 <= size
        /\ zlib_inflate_workspacesize fmt <= size
        /\ ZSTD_DCtxWorkspaceBound fmt <= size
        /\ forall i,
             In i (compression_types fmt
                     (to_size_t (Z.shiftl (sb_encoded_extent_max c) 9))) ->
             row_decompress_workspace i <= size).
Proof.
  intros Hrun. split.
  - intros q. now apply (wanted_ready fmt env c features c' evs).
  - intros Hnone Hwant.
    pose proof (wanted_ready fmt env c features c' evs DecompressPool Hrun Hwant) as Hin.
    apply compress_init_inv in Hrun as (Hinv & Hev).
    apply setup_inv_zstd_params in Hinv as (_ & _ & Ha & _).
    destruct (Ha DecompressPool) as [E | (_ & size & Hs & Hi)].
    + cbn [get_pool] in E, Hin. rewrite E, Hnone in Hin. discriminate.
    + destruct (Hev _ Hi) as (q & r & [= <- -> <-] & _).
      cbn [get_pool] in Hs. eexists. split; [exact Hs |].
      cbn [intended_size]. repeat split; try lia.
      intros i [<- | [<- | [<- | []]]]; cbn; lia.
Qed.

Lemma pool_setup_makes_wanted_pools_witness :
  exists c' evs,
    __bch2_fs_compress_init Toy.format plenty Toy.fresh_fs 4 = (0, c', evs)
    /\ mempool_initialized (get_pool c' (CompressPool BCH_COMPRESSION_ZSTD)) = true.
Proof.
  destruct (__bch2_fs_compress_init Toy.format plenty Toy.fresh_fs 4)
    as [[ret c'] evs] eqn:E.
  assert (Hret : ret = 0).
  { assert (H : fst (fst (__bch2_fs_compress_init Toy.format plenty Toy.fresh_fs 4)) = 0)
      by (vm_compute; reflexivity).
    now rewrite E in H. }
  subst ret. exists c', evs. split; [reflexivity |].
  exact (proj1 (pool_setup_makes_wanted_pools _ _ _ _ _ _ E)
           (CompressPool BCH_COMPRESSION_ZSTD) eq_refl).
Defined.

(** X10: pool set-up is idempotent.  After a run that returned 0, a
    second run for the same feature bits, whatever the allocator
    would answer, returns 0 without initialising anything and leaves
    every pool and every word of the state as they are. *)
Theorem pool_setup_is_idempotent
    (fmt : bch_format) (env env2 : gate_env) (c : bch_fs) (features : Z)
    (c' : bch_fs) (evs : list gate_event) :
  __bch2_fs_compress_init fmt env c features = (0, c', evs) ->
  exists c'',
    __bch2_fs_compress_init fmt env2 c' features = (0, c'', [])
    /\ same_words c' c''
    /\ zstd_params c'' = zstd_params c'
    /\ forall q, get_pool c'' q = get_pool c' q.
Proof.
  intros Hrun.
  pose proof (wanted_ready fmt env c features c' evs) as Hready.
  specialize (fun q => Hready q Hrun).
  apply compress_init_inv in Hrun as (Hinv & _).
  apply setup_inv_zstd_params in Hinv as ((_ & Hmax & _) & Hz & _).
  destruct (__bch2_fs_compress_init fmt env2 c' features) as [[ret2 c2] evs2] eqn:H2.
  apply compress_init_inv in H2 as (Hinv2 & Hev2).
  apply setup_inv_zstd_params in Hinv2 as (Hw2 & Hz2 & Ha2 & Hb2 & _ & Hr2).
  assert (Hnil : evs2 = []).
  { destruct evs2 as [| e rest]; [reflexivity |]. exfalso.
    destruct (Hev2 e (or_introl eq_refl)) as (q & r & -> & Hwant).
    destruct (Hb2 _ (or_introl eq_refl)) as (q' & s' & r' & [= <- <- <-] & Hq & _).
    apply Hready in Hwant. rewrite Hq in Hwant. discriminate. }
  subst evs2.
  assert (Hret : ret2 = 0).
  { destruct (Z.eq_dec ret2 0) as [| Hne]; [assumption |].
    destruct (Hr2 Hne) as (q & size & []). }
  subst ret2. exists c2. split; [reflexivity |]. split; [exact Hw2 |].
  split; [rewrite Hz2, Hz, Hmax; reflexivity |].
  intros q. destruct (Ha2 q) as [E | (_ & size & _ & [])]. exact E.
Qed.

Lemma pool_setup_is_idempotent_witness :
  exists c' evs c'',
    __bch2_fs_compress_init Toy.format plenty Toy.fresh_fs 4 = (0, c', evs)
    /\ __bch2_fs_compress_init Toy.format no_memory c' 4 = (0, c'', []).
Proof.
  destruct (__bch2_fs_compress_init Toy.format plenty Toy.fresh_fs 4)
    as [[ret c'] evs] eqn:E.
  assert (Hret : ret = 0).
  { assert (H : fst (fst (__bch2_fs_compress_init Toy.format plenty Toy.fresh_fs 4)) = 0)
      by (vm_compute; reflexivity).
    now rewrite E in H. }
  subst ret.
  destruct (pool_setup_is_idempotent Toy.format plenty no_memory _ _ _ _ E)
    as (c'' & H2 & _).
  exists c', evs, c''. split; [reflexivity | exact H2].
Defined.

(** ** Mounting, activating, tearing down *)

Lemma has_bit_lor_l (a extra bit : Z) :
  has_bit a bit = true -> has_bit (Z.lor a extra) bit = true.
Proof.
  unfold has_bit. intros H.
  apply negb_true_iff in H. apply Z.eqb_neq in H.
  apply negb_true_iff. apply Z.eqb_neq.
  rewrite Z.land_lor_distr_l. intros E.
  apply Z.lor_eq_0_iff in E. tauto.
Qed.

Lemma wanted_lor_l (fmt : bch_format) (a extra : Z) (q : pool_id) :
  wanted fmt a q = true -> wanted fmt (Z.lor a extra) q = true.
Proof.
  assert (Hany : has_bit a (BCH_FEATURE_LZ4 fmt) || has_bit a (BCH_FEATURE_GZIP fmt)
                 || has_bit a (BCH_FEATURE_ZSTD fmt) = true ->
                 has_bit (Z.lor a extra) (BCH_FEATURE_LZ4 fmt)
                 || has_bit (Z.lor a extra) (BCH_FEATURE_GZIP fmt)
                 || has_bit (Z.lor a extra) (BCH_FEATURE_ZSTD fmt) = true).
  { intros H. apply orb_true_iff in H as [H | H];
      [apply orb_true_iff in H as [H | H] |];
      apply (has_bit_lor_l _ extra) in H; rewrite H;
      repeat rewrite orb_true_r; reflexivity. }
  destruct q as [rw0 | t |]; cbn [wanted]; [exact Hany | | exact Hany].
  destruct t; try discriminate; apply has_bit_lor_l.
Qed.

Lemma get_pool_set_sb_lock (c : bch_fs) (l : bool) (q : pool_id) :
  get_pool (set_sb_lock c l) q = get_pool c q.
Proof. destruct q; reflexivity. Qed.

(** Set-up with every pool it asks for in place does nothing. *)
Lemma setup_noop (fmt : bch_format) (env : gate_env) (c : bch_fs) (features : Z) :
  (forall q, wanted fmt features q = true ->
             mempool_initialized (get_pool c q) = true) ->
  exists c',
    __bch2_fs_compress_init fmt env c features = (0, c', [])
    /\ same_words c c'
    /\ forall q, get_pool c' q = get_pool c q.
Proof.
  intros Hready.
  destruct (__bch2_fs_compress_init fmt env c features) as [[ret c'] evs] eqn:Hrun.
  apply compress_init_inv in Hrun as (Hinv & Hev).
  apply setup_inv_zstd_params in Hinv as (Hw & _ & Ha & Hb & _ & Hr).
  assert (Hnil : evs = []).
  { destruct evs as [| e rest]; [reflexivity |]. exfalso.
    destruct (Hev e (or_introl eq_refl)) as (q & r & -> & Hwant).
    destruct (Hb _ (or_introl eq_refl)) as (q' & s' & r' & [= <- <- <-] & Hq & _).
    apply Hready in Hwant. rewrite Hq in Hwant. discriminate. }
  subst evs.
  assert (Hret : ret = 0).
  { destruct (Z.eq_dec ret 0) as [| Hne]; [assumption |].
    destruct (Hr Hne) as (q & size & []). }
  subst ret. exists c'. split; [reflexivity |]. split; [exact Hw |].
  intros q. destruct (Ha q) as [E | (_ & size & _ & [])]. exact E.
Qed.

(** X11: mounting prepares the pools without touching the feature
    bits, and an activation after it allocates nothing.  After
    [bch2_fs_compress_init] returned 0 with the compression option
    [o], the feature words are as before the mount, every pool the
    codec of [o] needs exists, and
    [bch2_check_set_has_compressed_data] for [o] returns 0 whatever
    the allocator would answer: with no event at all when the bit is
    already set, else by taking the lock, setting the bit and
    flushing, with no pool initialisation in between; the pools are
    those the mount left. *)
Theorem activation_after_mount_allocates_nothing
    (fmt : bch_format) (env env2 : gate_env) (c : bch_fs)
    (o background : bch_compression_opt) (c1 : bch_fs) (evs : list gate_event) :
  o <> BCH_COMPRESSION_OPT_NONE ->
  bch2_fs_compress_init fmt env c o background = (0, c1, evs) ->
  same_words c c1
  /\ (forall q,
        wanted fmt
          (Z.lor (sb_features c)
             (feature_flag (bch2_compression_opt_to_feature fmt o))) q = true ->
        mempool_initialized (get_pool c1 q) = true)
  /\ exists c2,
       bch2_check_set_has_compressed_data fmt env2 c1 o
       = (0, c2,
          if Z.land (sb_features c)
               (feature_flag (bch2_compression_opt_to_feature fmt o))
             =? feature_flag (bch2_compression_opt_to_feature fmt o)
          then []
          else [EvLock;
                EvSetFeature (feature_flag (bch2_compression_opt_to_feature fmt o));
                EvWriteSuper (write_super_ret env2); EvUnlock])
       /\ forall q, get_pool c2 q = get_pool c1 q.
Proof.
  intros Ho Hrun.
  set (f := feature_flag (bch2_compression_opt_to_feature fmt o)) in *.
  assert (Hmount : exists extra,
             __bch2_fs_compress_init fmt env c (Z.lor (Z.lor (sb_features c) f) extra)
             = (0, c1, evs)).
  { unfold bch2_fs_compress_init in Hrun. fold f in Hrun.
    destruct o; [contradiction | | |];
      (destruct background;
       [exists 0; rewrite Z.lor_0_r; exact Hrun
       | eexists; exact Hrun | eexists; exact Hrun | eexists; exact Hrun]). }
  destruct Hmount as (extra & Hinit).
  assert (Hready : forall q, wanted fmt (Z.lor (sb_features c) f) q = true ->
                             mempool_initialized (get_pool c1 q) = true).
  { intros q Hq. apply (wanted_ready fmt env c _ c1 evs q Hinit).
    now apply wanted_lor_l. }
  apply compress_init_inv in Hinit as (Hinv & _).
  apply setup_inv_zstd_params in Hinv as (Hw & _).
  split; [exact Hw |]. split; [exact Hready |].
  destruct Hw as (Hsb & _).
  assert (Hcall : bch2_check_set_has_compressed_data fmt env2 c1 o
                  = __bch2_check_set_has_compressed_data fmt env2 c1 f)
    by (destruct o; [contradiction | reflexivity | reflexivity | reflexivity]).
  rewrite Hcall. unfold __bch2_check_set_has_compressed_data.
  cbn [sb_features set_sb_lock]. rewrite Hsb.
  destruct (Z.land (sb_features c) f =? f).
  { exists c1. split; [reflexivity | reflexivity]. }
  destruct (setup_noop fmt env2 (set_sb_lock c1 true) (Z.lor (sb_features c) f))
    as (c' & Hnoop & _ & Hpools).
  { intros q Hq. rewrite get_pool_set_sb_lock. now apply Hready. }
  rewrite Hnoop. cbn [Z.eqb negb bch2_write_super app].
  eexists. split; [reflexivity |].
  intros q. rewrite <- (get_pool_set_sb_lock c1 true q), <- Hpools.
  destruct q; reflexivity.
Qed.

Lemma activation_after_mount_allocates_nothing_witness :
  exists c1 evs c2,
    bch2_fs_compress_init Toy.format plenty Toy.fresh_fs
      BCH_COMPRESSION_OPT_ZSTD BCH_COMPRESSION_OPT_NONE = (0, c1, evs)
    /\ bch2_check_set_has_compressed_data Toy.format no_memory c1
         BCH_COMPRESSION_OPT_ZSTD
       = (0, c2, [EvLock; EvSetFeature 4; EvWriteSuper 0; EvUnlock]).
Proof.
  destruct (bch2_fs_compress_init Toy.format plenty Toy.fresh_fs
              BCH_COMPRESSION_OPT_ZSTD BCH_COMPRESSION_OPT_NONE)
    as [[ret c1] evs] eqn:E.
  assert (Hret : ret = 0).
  { assert (H : fst (fst (bch2_fs_compress_init Toy.format plenty Toy.fresh_fs
                            BCH_COMPRESSION_OPT_ZSTD BCH_COMPRESSION_OPT_NONE)) = 0)
      by (vm_compute; reflexivity).
    now rewrite E in H. }
  subst ret.
  destruct (activation_after_mount_allocates_nothing Toy.format plenty no_memory
              Toy.fresh_fs BCH_COMPRESSION_OPT_ZSTD BCH_COMPRESSION_OPT_NONE c1 evs
              ltac:(discriminate) E) as (_ & _ & c2 & H2 & _).
  exists c1, evs, c2. split; [reflexivity | exact H2].
Defined.

(** X12: [bch2_fs_compress_exit] followed by a set-up that returns 0
    leaves a state that depends on the feature bits alone: a pool
    exists exactly when the bits ask for it, with the element size
    meant for it, whatever pools there were before the exit; the
    feature words, the sizes and the lock are untouched by both. *)
Theorem exit_then_setup_is_canonical
    (fmt : bch_format) (env : gate_env) (c : bch_fs) (features : Z)
    (c' : bch_fs) (evs : list gate_event) :
  __bch2_fs_compress_init fmt env (bch2_fs_compress_exit c) features = (0, c', evs) ->
  same_words c c'
  /\ (forall q, get_pool (bch2_fs_compress_exit c) q = None)
  /\ (forall q,
        get_pool c' q
        = if wanted fmt features q
          then Some (intended_size fmt
                       (to_size_t (Z.shiftl (sb_encoded_extent_max c) 9)) q)
          else None)
  /\ (forall q, wanted fmt features q = true ->
                exists r, In (EvPoolInit q
                                (intended_size fmt
                                   (to_size_t (Z.shiftl (sb_encoded_extent_max c) 9)) q)
                                r) evs).
Proof.
  intros Hrun.
  assert (Hnone : forall q, get_pool (bch2_fs_compress_exit c) q = None)
    by (intros q; destruct q; reflexivity).
  pose proof (wanted_ready fmt env (bch2_fs_compress_exit c) features c' evs) as Hready.
  specialize (fun q => Hready q Hrun).
  apply compress_init_inv in Hrun as (Hinv & Hev).
  apply setup_inv_zstd_params in Hinv as (Hw & _ & Ha & _).
  cbn [bch2_fs_compress_exit sb_encoded_extent_max] in Hev.
  split; [exact Hw |]. split; [exact Hnone |].
  assert (Hcase : forall q,
             wanted fmt features q = true ->
             get_pool c' q
             = Some (intended_size fmt
                       (to_size_t (Z.shiftl (sb_encoded_extent_max c) 9)) q)
             /\ In (EvPoolInit q
                      (intended_size fmt
                         (to_size_t (Z.shiftl (sb_encoded_extent_max c) 9)) q) 0) evs).
  { intros q Hq. destruct (Ha q) as [E | (_ & size & Hs & Hin)].
    - apply Hready in Hq. rewrite E, Hnone in Hq. discriminate.
    - destruct (Hev _ Hin) as (q' & r & [= <- -> <-] & _). auto. }
  split.
  - intros q. destruct (wanted fmt features q) eqn:Hq.
    + now apply Hcase.
    + destruct (Ha q) as [E | (_ & size & _ & Hin)]; [now rewrite E |].
      destruct (Hev _ Hin) as (q' & r & [= <- _ _] & Hwant). congruence.
  - intros q Hq. exists 0. now apply Hcase.
Qed.

Lemma exit_then_setup_is_canonical_witness :
  exists c' evs,
    __bch2_fs_compress_init Toy.format plenty (bch2_fs_compress_exit Toy.fs) 2
    = (0, c', evs)
    /\ get_pool c' (CompressPool BCH_COMPRESSION_GZIP) = Some 270000
    /\ get_pool c' (CompressPool BCH_COMPRESSION_ZSTD) = None.
Proof.
  destruct (__bch2_fs_compress_init Toy.format plenty (bch2_fs_compress_exit Toy.fs) 2)
    as [[ret c'] evs] eqn:E.
  assert (Hret : ret = 0).
  { assert (H : fst (fst (__bch2_fs_compress_init Toy.format plenty
                            (bch2_fs_compress_exit Toy.fs) 2)) = 0)
      by (vm_compute; reflexivity).
    now rewrite E in H. }
  subst ret. exists c', evs. split; [reflexivity |].
  destruct (exit_then_setup_is_canonical _ _ _ _ _ _ E) as (_ & _ & Hq & _).
  split; [exact (Hq (CompressPool BCH_COMPRESSION_GZIP))
         | exact (Hq (CompressPool BCH_COMPRESSION_ZSTD))].
Defined.

(** ** What a successful call leaves *)

Lemma multiples_apart (a s bb : Z) :
  0 < bb -> a mod bb = 0 -> s mod bb = 0 -> a < s -> a + bb <= s.
Proof.
  intros Hbb Ha Hs Hlt.
  apply Z.div_exact in Ha; [| lia]. apply Z.div_exact in Hs; [| lia].
  rewrite Ha, Hs in *.
  generalize dependent (a / bb). generalize dependent (s / bb).
  intros qs _ qa _ Hlt.
  assert (qa < qs) by nia.
  nia.
Qed.

(** X13: compression is only reported when it saves space.  When
    [bch2_bio_compress] returns a codec id other than
    [BCH_COMPRESSION_NONE], the payload is at least one block shorter
    than the source it encodes, the source consumed is at least two
    blocks, within the source bio and within the largest encoded
    extent, and the payload is within the destination bio. *)
Theorem compress_success_saves_a_block
    (lib : codec_lib) (mem : alloc_env) (fuel : nat) (c : bch_fs) (k : Z)
    (dst : bio) (dst_len : Z) (src : bio) (src_len : Z)
    (t : bch_compression_type) (r : compressed) :
  0 <= k < 16 ->
  opts_block_size c = 2 ^ k ->
  bch2_bio_compress lib mem fuel c dst dst_len src src_len t = Some (Ret r) ->
  k_type r <> BCH_COMPRESSION_NONE ->
  k_dst_len r + block_bytes c <= k_src_len r
  /\ 2 * block_bytes c <= k_src_len r
  /\ k_src_len r <= bi_size src
  /\ k_src_len r <= to_unsigned (Z.shiftl (sb_encoded_extent_max c) 9)
  /\ 0 < k_dst_len r <= bi_size dst.
Proof.
  intros Hk Hbs Hrun Hty. unfold bch2_bio_compress in Hrun.
  destruct (__bio_compress lib mem fuel c (clamp_dst c dst src) dst_len
              (clamp_src c src) src_len _) as [[r' |] |] eqn:Hin;
    try discriminate.
  injection Hrun as <-. cbn [k_type k_dst_len k_src_len] in *.
  apply bio_compress_inv in Hin
    as (_ & [(_ & ->) | (_ & dd & sd & e & st & _ & _ & Hloop & Hfin)]).
  { cbn in Hty. contradiction. }
  apply compress_finish_inv in Hfin
    as (_ & _ & Hksl & _
        & [(Hnone & _)
          | (-> & _ & Hlt & Hkdl & Hd0 & Hdcap & Hs0 & Hscap & Hda & Hsa & _)]);
    [contradiction |].
  pose proof (compress_loop_fit lib _ _ _ _ _ _ Hloop) as (Hout & Hfloor).
  assert (HK9 : block_bytes c = 2 ^ (k + 9)) by (apply block_bytes_pow2; lia).
  assert (Hp : 0 < 2 ^ (k + 9)) by (apply Z.pow_pos_nonneg; lia).
  assert (Hle : 2 ^ (k + 9) <= 2 ^ 24) by (apply Z.pow_le_mono_r; lia).
  assert (Hup : round_up (l_dst_len st) (block_bytes c)
                = align_up (l_dst_len st) (block_bytes c))
    by (rewrite HK9; apply round_up_align; lia).
  pose proof (align_up_bounds (l_dst_len st) (block_bytes c) ltac:(lia))
    as (Hub & Hum).
  assert (Hpad : to_unsigned (round_up (l_dst_len st) (block_bytes c) - l_dst_len st)
                 = align_up (l_dst_len st) (block_bytes c) - l_dst_len st)
    by (rewrite Hup; apply to_unsigned_small; lia).
  rewrite Hpad in Hkdl.
  rewrite to_size_t_small in Hkdl by lia.
  replace (l_dst_len st + (align_up (l_dst_len st) (block_bytes c) - l_dst_len st))
    with (align_up (l_dst_len st) (block_bytes c)) in Hkdl by lia.
  assert (Hsm : k_src_len r' mod block_bytes c = 0)
    by (rewrite HK9 in *; rewrite <- land_mask_mod by lia; exact Hsa).
  assert (Hdm : k_dst_len r' mod block_bytes c = 0) by (rewrite Hkdl; exact Hum).
  assert (Hsave : k_dst_len r' + block_bytes c <= k_src_len r')
    by (apply multiples_apart; lia).
  assert (Hdb : 0 + block_bytes c <= k_dst_len r')
    by (apply multiples_apart; [lia | apply Z.mod_0_l; lia | exact Hdm | lia]).
  unfold clamp_dst, clamp_src in Hdcap, Hscap. cbn [bi_size set_bi_size] in Hdcap, Hscap.
  repeat split; lia.
Qed.

Lemma compress_success_saves_a_block_witness :
  exists r,
    bch2_bio_compress Toy.lib Toy.mem 4 Toy.fs roomy 0 zero_blocks 0
      BCH_COMPRESSION_ZSTD = Some (Ret r)
    /\ k_dst_len r + block_bytes Toy.fs <= k_src_len r.
Proof.
  destruct (bch2_bio_compress Toy.lib Toy.mem 4 Toy.fs roomy 0 zero_blocks 0
              BCH_COMPRESSION_ZSTD) as [[r |] |] eqn:E;
    [| exfalso; revert E; vm_compute; discriminate
     | exfalso; revert E; vm_compute; discriminate].
  assert (Hty : k_type r <> BCH_COMPRESSION_NONE).
  { assert (Ht : option_map (fun o => match o with Ret r => k_type r
                                         | Bug => BCH_COMPRESSION_NONE end)
                   (bch2_bio_compress Toy.lib Toy.mem 4 Toy.fs roomy 0 zero_blocks 0
                      BCH_COMPRESSION_ZSTD) = Some BCH_COMPRESSION_ZSTD)
      by (vm_compute; reflexivity).
    rewrite E in Ht. cbn in Ht. injection Ht as ->. discriminate. }
  exists r. split; [reflexivity |].
  exact (proj1 (compress_success_saves_a_block
                  Toy.lib Toy.mem 4 Toy.fs 0 roomy 0 zero_blocks 0
                  BCH_COMPRESSION_ZSTD r ltac:(lia) eq_refl E Hty)).
Defined.

(** X14: what a successful [bch2_bio_uncompress_inplace] leaves in
    the bio.  The bio is as long as the live part of the extent; byte
    [i] of the live part is byte [(offset << 9) + i] of the
    decompressed extent, for every [i] the bio has room for; the bytes
    of the bio after the live part, its fragments and its capacity
    are as they were; and the extent's metadata describe [live_size]
    sectors of uncompressed, unchecksummed data at offset 0. *)
Theorem uncompress_inplace_success_keeps_live_window
    (lib : codec_lib) (mem : alloc_env) (PAGE_SECTORS : Z)
    (c : bch_fs) (x : bio) (crc : bch_extent_crc_unpacked)
    (x' : bio) (crc' : bch_extent_crc_unpacked) :
  bch2_bio_uncompress_inplace lib mem PAGE_SECTORS c x crc = Ret (0, x', crc') ->
  exists data r,
    __bounce_alloc mem c (to_unsigned (uncompress_dst_len crc)) WRITE = Ret data
    /\ __bio_uncompress lib mem c x (b data) crc = Ret r
    /\ u_ret r = 0
    /\ length (u_dst r) = Z.to_nat (to_unsigned (uncompress_dst_len crc))
    /\ bi_size x' = to_unsigned (Z.shiftl (live_size crc) 9)
    /\ length (bi_data x') = length (bi_data x)
    /\ (forall i : nat,
          (i < Z.to_nat (to_unsigned (Z.shiftl (live_size crc) 9)))%nat ->
          (Z.to_nat (Z.shiftl (offset crc) 9) + i < length (u_dst r))%nat ->
          (i < length (bi_data x))%nat ->
          nth_error (bi_data x') i
          = nth_error (u_dst r) (Z.to_nat (Z.shiftl (offset crc) 9) + i))
    /\ (forall i : nat,
          (Z.to_nat (to_unsigned (Z.shiftl (live_size crc) 9)) <= i)%nat ->
          nth_error (bi_data x') i = nth_error (bi_data x) i)
    /\ bi_layout x' = bi_layout x
    /\ bi_vcnt x' = bi_vcnt x
    /\ bi_max_vecs x' = bi_max_vecs x
    /\ DIV_ROUND_UP (live_size crc) PAGE_SECTORS <= bi_max_vecs x
    /\ compression_type crc' = BCH_COMPRESSION_NONE
    /\ csum_type crc' = 0
    /\ offset crc' = 0
    /\ compressed_size crc' = live_size crc
    /\ uncompressed_size crc' = live_size crc
    /\ live_size crc' = live_size crc.
Proof.
  unfold bch2_bio_uncompress_inplace, BUG_ON.
  remember (to_unsigned (Z.shiftl (live_size crc) 9)) as n eqn:Hn.
  remember (Z.to_nat (Z.shiftl (offset crc) 9)) as off eqn:Hoffset.
  clear Hn Hoffset.
  destruct (bi_vcnt x =? 0); [discriminate |].
  destruct (bi_max_vecs x <? DIV_ROUND_UP (live_size crc) PAGE_SECTORS) eqn:Hvecs;
    [discriminate |].
  destruct (extent_too_big c crc); [intros H; inversion H |].
  destruct (__bounce_alloc mem c (to_unsigned (uncompress_dst_len crc)) WRITE)
    as [data |] eqn:Hdata; cbn [bind]; [| discriminate].
  destruct (__bio_uncompress lib mem c x (b data) crc) as [r |] eqn:Hr;
    cbn [bind]; [| discriminate].
  destruct (u_ret r =? 0) eqn:Hret; cbn [negb]; [| intros H; inversion H].
  intros [= <- <-].
  apply Z.eqb_eq in Hret. apply Z.ltb_ge in Hvecs.
  destruct (uncompress_ret_cases _ _ _ _ _ _ _ Hr) as (_ & Hdst).
  apply bounce_alloc_inv in Hdata as (_ & Hb & _).
  assert (Hlen : length (u_dst r) = Z.to_nat (to_unsigned (uncompress_dst_len crc)))
    by (rewrite Hdst, length_write_at, Hb; apply length_sized).
  exists data, r.
  unfold memcpy_to_bio. cbn [bi_data bi_size set_bi_size set_bi_data bi_layout
                               bi_vcnt bi_max_vecs compression_type csum_type offset
                               compressed_size uncompressed_size live_size].
  repeat (split; [first [reflexivity | assumption | apply length_write_at] |]).
  split; [| split; [| repeat split; try reflexivity; assumption]].
  - intros i Hi Hoff Hroom.
    rewrite nth_error_write_at, length_firstn, length_skipn.
    replace ((0 <=? i)%nat) with true by (symmetry; apply Nat.leb_le; lia).
    replace ((i <? 0 + Nat.min _ _)%nat) with true
      by (symmetry; apply Nat.ltb_lt; lia).
    replace ((i <? length (bi_data x))%nat) with true
      by (symmetry; apply Nat.ltb_lt; lia).
    cbn [andb]. rewrite Nat.sub_0_r, nth_error_firstn.
    replace ((i <? _)%nat) with true by (symmetry; apply Nat.ltb_lt; lia).
    apply nth_error_skipn.
  - intros i Hi.
    rewrite nth_error_write_at, length_firstn.
    replace ((i <? 0 + Nat.min _ _)%nat) with false
      by (symmetry; apply Nat.ltb_ge; lia).
    rewrite andb_false_r. reflexivity.
Qed.

Lemma uncompress_inplace_success_keeps_live_window_witness :
  exists x' crc',
    bch2_bio_uncompress_inplace Toy.lib Toy.mem 8 Toy.fs zero_payload
      second_sector_zstd = Ret (0, x', crc')
    /\ bi_size x' = 512
    /\ uncompressed_size crc' = 1.
Proof.
  destruct (bch2_bio_uncompress_inplace Toy.lib Toy.mem 8 Toy.fs zero_payload
              second_sector_zstd) as [[[ret x'] crc'] |] eqn:E;
    [| exfalso; revert E; vm_compute; discriminate].
  assert (Hret : ret = 0).
  { assert (H : match bch2_bio_uncompress_inplace Toy.lib Toy.mem 8 Toy.fs
                        zero_payload second_sector_zstd with
                | Ret (ret, _, _) => ret | Bug => 1 end = 0)
      by (vm_compute; reflexivity).
    now rewrite E in H. }
  subst ret. exists x', crc'. split; [reflexivity |].
  destruct (uncompress_inplace_success_keeps_live_window _ _ _ _ _ _ _ _ E)
    as (data & r & _ & _ & _ & _ & Hsize & _ & _ & _ & _ & _ & _ & _ & _ & _ & _ & _
        & Hu & _).
  split; [exact Hsize | exact Hu].
Defined.



(** * Formatting a device *)

Lemma min_size_small (bucket_size : Z) :
  0 <= bucket_size < 2 ^ 22 -> min_size bucket_size = 1024 * bucket_size.
Proof.
  intros H. unfold min_size, BCH_MIN_NR_NBUCKETS.
  change (Z.shiftl 1 10) with 1024. apply to_unsigned_small. lia.
Qed.

Lemma min_size_range (bucket_size : Z) : 0 <= min_size bucket_size < 2 ^ 32.
Proof. unfold min_size, to_unsigned, wrap. apply Z.mod_pos_bound. lia. Qed.

Lemma halve_bucket_eq (fuel : nat) (size bucket_size : Z) :
  halve_bucket (S fuel) size bucket_size
  = if size <? min_size (bucket_size / 2)
    then halve_bucket fuel size (bucket_size / 2)
    else Some (bucket_size / 2).
Proof. reflexivity. Qed.

Lemma halve_bucket_spec (size : Z) :
  0 <= size ->
  forall (fuel : nat) (bucket_size : Z),
    0 <= bucket_size < 2 ^ Z.of_nat fuel ->
    exists b,
      halve_bucket (S fuel) size bucket_size = Some b
      /\ 0 <= b <= bucket_size / 2
      /\ min_size b <= size.
Proof.
  intros Hsize. induction fuel as [| fuel IH]; intros bucket_size Hb.
  - change (2 ^ Z.of_nat 0) with 1 in Hb.
    assert (bucket_size = 0) by lia. subst bucket_size.
    exists 0. rewrite halve_bucket_eq. change (0 / 2) with 0.
    change (min_size 0) with 0.
    destruct (Z.ltb_spec size 0); [lia |]. repeat split; lia.
  - rewrite Nat2Z.inj_succ, Z.pow_succ_r in Hb by lia.
    assert (Hhalf : 0 <= bucket_size / 2 < 2 ^ Z.of_nat fuel).
    { split; [apply Z.div_pos; lia |].
      apply Z.div_lt_upper_bound; lia. }
    rewrite halve_bucket_eq.
    destruct (Z.ltb_spec size (min_size (bucket_size / 2))) as [Hlt | Hge].
    + destruct (IH _ Hhalf) as (b & Hrun & Hrange & Hfit).
      exists b. split; [exact Hrun |]. split; [| exact Hfit].
      assert (bucket_size / 2 / 2 <= bucket_size / 2)
        by (apply Z.div_le_upper_bound; lia).
      lia.
    + exists (bucket_size / 2). repeat split; lia.
Qed.

Lemma halve_bucket_more (size : Z) :
  forall (fuel fuel' : nat) (bucket_size b : Z),
    halve_bucket fuel size bucket_size = Some b ->
    (fuel <= fuel')%nat ->
    halve_bucket fuel' size bucket_size = Some b.
Proof.
  induction fuel as [| fuel IH]; intros fuel' bucket_size b Hrun Hle.
  - discriminate.
  - destruct fuel' as [| fuel']; [lia |].
    rewrite halve_bucket_eq in *.
    destruct (size <? min_size (bucket_size / 2)); [| exact Hrun].
    apply (IH fuel' _ _ Hrun). lia.
Qed.

Lemma halve_bucket_ends (size bucket_size : Z) (fuel : nat) :
  0 <= size ->
  0 <= bucket_size < 2 ^ 32 ->
  (32 < fuel)%nat ->
  exists b,
    halve_bucket fuel size bucket_size = Some b
    /\ 0 <= b <= bucket_size / 2
    /\ min_size b <= size.
Proof.
  intros Hsize Hb Hfuel.
  destruct (halve_bucket_spec size Hsize 32 bucket_size Hb) as (b & Hrun & Hrest).
  exists b. split; [| exact Hrest].
  apply (halve_bucket_more size 33 fuel _ _ Hrun). lia.
Qed.

(** X16: [bch2_pick_bucket_size] always ends.  The halving loop that
    looks for a bucket size a small device can hold 1024 of has no
    bound of its own; it stops within 33 turns because a bucket size
    of 0 needs no space at all.  With more turns than that the call
    ends, and ends the same way whatever the number of turns
    allowed. *)
Theorem pick_bucket_size_ends
    (BCH_SB_SECTOR device_sectors : Z) (opts : format_opts) (dev : dev_opts)
    (fuel : nat) :
  0 <= fo_block_size opts < 2 ^ 32 ->
  0 <= fo_btree_node_size opts < 2 ^ 32 ->
  0 <= dev_size dev ->
  0 <= device_sectors ->
  (32 < fuel)%nat ->
  exists e,
    bch2_pick_bucket_size BCH_SB_SECTOR device_sectors fuel opts dev = Some e
    /\ forall fuel',
         (32 < fuel')%nat ->
         bch2_pick_bucket_size BCH_SB_SECTOR device_sectors fuel' opts dev = Some e.
Proof.
  intros Hblock Hbtree Hsize Hdev Hfuel.
  set (size := if dev_size dev =? 0 then device_sectors else dev_size dev).
  assert (Hsz : 0 <= size) by (unfold size; destruct (dev_size dev =? 0); lia).
  assert (Hdefault : exists e,
             forall f, (32 < f)%nat -> default_bucket_size f opts size = Some e).
  { unfold default_bucket_size.
    destruct (size <? min_size (fo_block_size opts)); [eexists; reflexivity |].
    set (M := Z.max (Z.max (fo_block_size opts) (fo_btree_node_size opts)) 256).
    destruct (min_size M <=? size).
    { destruct (min_size M =? 0); eexists; reflexivity. }
    destruct (halve_bucket_ends size M 33 Hsz ltac:(unfold M; lia) ltac:(lia))
      as (b & Hrun & _).
    exists (Returns b). intros f Hf.
    rewrite (halve_bucket_more size 33 f M b Hrun) by lia. reflexivity. }
  destruct Hdefault as (e & He).
  assert (Hsame : forall f, (32 < f)%nat ->
             bch2_pick_bucket_size BCH_SB_SECTOR device_sectors f opts dev
             = bch2_pick_bucket_size BCH_SB_SECTOR device_sectors 33 opts dev).
  { intros f Hf. unfold bch2_pick_bucket_size.
    destruct (dev_sb_offset dev =? 0); cbn [dev_size dev_bucket_size];
      fold size; rewrite (He f Hf), (He 33%nat ltac:(lia)); reflexivity. }
  assert (Hsome : exists out,
             bch2_pick_bucket_size BCH_SB_SECTOR device_sectors 33 opts dev = Some out).
  { unfold bch2_pick_bucket_size.
    destruct (dev_sb_offset dev =? 0); cbn [dev_size dev_bucket_size];
      fold size; rewrite (He 33%nat ltac:(lia));
      (destruct (dev_bucket_size dev =? 0);
       [destruct e as [bucket | why |] |];
       repeat match goal with
              | |- context [if ?x then _ else _] => destruct x
              end; eexists; reflexivity). }
  destruct Hsome as (out & Hout).
  exists out. split; [rewrite Hsame by exact Hfuel; exact Hout |].
  intros f Hf. rewrite Hsame by exact Hf. exact Hout.
Qed.

Lemma pick_bucket_size_ends_witness :
  exists e,
    bch2_pick_bucket_size 8 0 40 usual_opts small_device = Some e
    /\ bch2_pick_bucket_size 8 0 33 usual_opts small_device = Some e.
Proof.
  destruct (pick_bucket_size_ends 8 0 usual_opts small_device 40
              ltac:(vm_compute; split; [discriminate | reflexivity])
              ltac:(vm_compute; split; [discriminate | reflexivity])
              ltac:(vm_compute; discriminate) ltac:(lia) ltac:(lia))
    as (e & He & Hall).
  exists e. split; [exact He | apply Hall; lia].
Defined.

Lemma halve_bucket_bound (size : Z) :
  forall (fuel : nat) (bucket_size b : Z),
    0 <= bucket_size ->
    halve_bucket fuel size bucket_size = Some b ->
    0 <= b <= bucket_size / 2.
Proof.
  induction fuel as [| fuel IH]; intros bucket_size b Hb Hrun; [discriminate |].
  rewrite halve_bucket_eq in Hrun.
  assert (Hhalf : 0 <= bucket_size / 2) by (apply Z.div_pos; lia).
  destruct (size <? min_size (bucket_size / 2)).
  - apply IH in Hrun; [| exact Hhalf].
    assert (bucket_size / 2 / 2 <= bucket_size / 2)
      by (apply Z.div_le_upper_bound; lia).
    lia.
  - injection Hrun as <-. lia.
Qed.

Lemma default_bucket_size_bound (fuel : nat) (opts : format_opts) (size b : Z) :
  0 <= fo_block_size opts ->
  0 <= fo_btree_node_size opts ->
  default_bucket_size fuel opts size = Some (Returns b) ->
  0 <= b <= 2048
  \/ (0 <= b
      /\ 2 * b <= Z.max (Z.max (fo_block_size opts) (fo_btree_node_size opts)) 256).
Proof.
  intros Hblock Hbtree. unfold default_bucket_size.
  destruct (size <? min_size (fo_block_size opts)); [discriminate |].
  set (M := Z.max (Z.max (fo_block_size opts) (fo_btree_node_size opts)) 256).
  destruct (min_size M <=? size).
  - destruct (min_size M =? 0); [discriminate |].
    intros [= <-]. left. change (Z.shiftl 1 11) with 2048.
    assert (0 <= to_unsigned (M * to_unsigned
               (rounddown_pow_of_two
                  (to_unsigned (Z.max 1 (ilog2 (size / min_size M) / 4)))))).
    { unfold to_unsigned at 1. unfold wrap. apply Z.mod_pos_bound. lia. }
    lia.
  - destruct (halve_bucket fuel size M) as [b' |] eqn:Hrun; [| discriminate].
    intros [= <-]. right.
    apply halve_bucket_bound in Hrun; [| unfold M; lia].
    assert (2 * (M / 2) <= M) by (apply Z.mul_div_le; lia).
    lia.
Qed.

(** X17: what [bch2_pick_bucket_size] guarantees when it returns.
    The bucket is at least a block and at least a btree node, the
    device holds at least 1024 whole buckets, [nbuckets] is the
    number of whole buckets; a bucket size the caller gave is kept,
    and one chosen by the function is never above 2048 sectors
    (1 MiB); size and superblock range are the caller's, or the
    device's size and [BCH_SB_SECTOR, BCH_SB_SECTOR + 256] where the
    caller left them 0. *)
Theorem picked_bucket_size_is_valid
    (BCH_SB_SECTOR device_sectors : Z) (fuel : nat) (opts : format_opts)
    (dev dev' : dev_opts) :
  0 <= fo_block_size opts ->
  0 <= fo_btree_node_size opts ->
  bch2_pick_bucket_size BCH_SB_SECTOR device_sectors fuel opts dev
  = Some (Returns dev') ->
  (fo_block_size opts <= dev_bucket_size dev'
   /\ fo_btree_node_size opts <= dev_bucket_size dev'
   /\ 0 < dev_bucket_size dev')
  /\ (dev_nbuckets dev' = dev_size dev' / dev_bucket_size dev'
      /\ 1024 <= dev_nbuckets dev'
      /\ 1024 * dev_bucket_size dev' <= dev_size dev')
  /\ (dev_bucket_size dev <> 0 -> dev_bucket_size dev' = dev_bucket_size dev)
  /\ (dev_bucket_size dev = 0 -> dev_bucket_size dev' <= 2048)
  /\ dev_size dev' = (if dev_size dev =? 0 then device_sectors else dev_size dev)
  /\ (dev_sb_offset dev' = dev_sb_offset dev /\ dev_sb_end dev' = dev_sb_end dev
      \/ dev_sb_offset dev = 0 /\ dev_sb_offset dev' = BCH_SB_SECTOR
         /\ dev_sb_end dev' = BCH_SB_SECTOR + 256).
Proof.
  intros Hblock Hbtree. unfold bch2_pick_bucket_size.
  set (size := if dev_size dev =? 0 then device_sectors else dev_size dev).
  assert (Hrange : (dev_sb_offset dev =? 0) = true -> dev_sb_offset dev = 0)
    by (intros H; now apply Z.eqb_eq).
  assert (Hcore : forall so se,
             (dev_sb_offset dev = so /\ dev_sb_end dev = se
              \/ dev_sb_offset dev = 0 /\ so = BCH_SB_SECTOR
                 /\ se = BCH_SB_SECTOR + 256) ->
             match (if dev_bucket_size dev =? 0
                    then default_bucket_size fuel opts size
                    else Some (Returns (dev_bucket_size dev))) with
             | None => None
             | Some (Dies why) => Some (Dies why)
             | Some Undefined => Some Undefined
             | Some (Returns bucket_size) =>
                 if bucket_size =? 0 then Some Undefined
                 else
                   if bucket_size <? fo_block_size opts
                   then Some (Dies BucketBelowBlock)
                   else if bucket_size <? fo_btree_node_size opts
                        then Some (Dies BucketBelowBtreeNode)
                        else if size / bucket_size <? BCH_MIN_NR_NBUCKETS
                             then Some (Dies NotEnoughBuckets)
                             else Some (Returns (mk_dev size bucket_size
                                                   (size / bucket_size) so se))
             end = Some (Returns dev') ->
             (fo_block_size opts <= dev_bucket_size dev'
              /\ fo_btree_node_size opts <= dev_bucket_size dev'
              /\ 0 < dev_bucket_size dev')
             /\ (dev_nbuckets dev' = dev_size dev' / dev_bucket_size dev'
                 /\ 1024 <= dev_nbuckets dev'
                 /\ 1024 * dev_bucket_size dev' <= dev_size dev')
             /\ (dev_bucket_size dev <> 0 ->
                 dev_bucket_size dev' = dev_bucket_size dev)
             /\ (dev_bucket_size dev = 0 -> dev_bucket_size dev' <= 2048)
             /\ dev_size dev' = size
             /\ (dev_sb_offset dev' = dev_sb_offset dev
                 /\ dev_sb_end dev' = dev_sb_end dev
                 \/ dev_sb_offset dev = 0 /\ dev_sb_offset dev' = BCH_SB_SECTOR
                    /\ dev_sb_end dev' = BCH_SB_SECTOR + 256)).
  { intros so se Hso.
    destruct (if dev_bucket_size dev =? 0 then _ else _)
      as [[bucket | why |] |] eqn:Hpick; try discriminate.
    destruct (Z.eqb_spec bucket 0) as [| Hnz]; [discriminate |].
    destruct (Z.ltb_spec bucket (fo_block_size opts)); [discriminate |].
    destruct (Z.ltb_spec bucket (fo_btree_node_size opts)); [discriminate |].
    destruct (Z.ltb_spec (size / bucket) BCH_MIN_NR_NBUCKETS) as [| Hn];
      [discriminate |].
    intros [= <-]. cbn [dev_size dev_bucket_size dev_nbuckets dev_sb_offset dev_sb_end].
    change BCH_MIN_NR_NBUCKETS with 1024 in Hn.
    assert (Hpos : 0 < bucket) by lia.
    assert (Hwhole : bucket * (size / bucket) <= size).
    { assert (0 <= size).
      { destruct (Z.le_gt_cases 0 size) as [| Hneg]; [assumption |].
        assert (size / bucket < 0) by (apply Z.div_lt_upper_bound; lia). lia. }
      apply Z.mul_div_le. lia. }
    split; [lia |]. split; [split; [reflexivity | split; [lia | nia]] |].
    split; [| split; [| split; [reflexivity |]]].
    - intros Hgiven. apply Z.eqb_neq in Hgiven. rewrite Hgiven in Hpick.
      now injection Hpick as <-.
    - intros Hauto. rewrite Hauto in Hpick. cbn [Z.eqb] in Hpick.
      pose proof (default_bucket_size_bound _ _ _ _ Hblock Hbtree Hpick)
        as [Hsmall | (_ & Hhalf)]; lia.
    - destruct Hso as [(<- & <-) | (Hzero & -> & ->)]; auto. }
  destruct (Z.eqb_spec (dev_sb_offset dev) 0) as [H0 | Hn0];
    cbn [dev_size dev_bucket_size dev_sb_offset dev_sb_end]; fold size;
    apply Hcore; auto.
Qed.

Lemma picked_bucket_size_is_valid_witness :
  exists dev',
    bch2_pick_bucket_size 8 0 33 usual_opts small_device = Some (Returns dev')
    /\ dev_bucket_size dev' <= 2048.
Proof.
  destruct (bch2_pick_bucket_size 8 0 33 usual_opts small_device)
    as [[dev' | why |] |] eqn:E;
    [| exfalso; revert E; vm_compute; discriminate
     | exfalso; revert E; vm_compute; discriminate
     | exfalso; revert E; vm_compute; discriminate].
  exists dev'. split; [reflexivity |].
  destruct (picked_bucket_size_is_valid 8 0 33 usual_opts small_device dev'
              ltac:(vm_compute; discriminate) ltac:(vm_compute; discriminate) E)
    as (_ & _ & _ & Hauto & _).
  apply Hauto. reflexivity.
Defined.

Lemma rounddown_pow_of_two_spec (n : Z) :
  0 < n ->
  rounddown_pow_of_two n = 2 ^ Z.log2 n
  /\ 0 < rounddown_pow_of_two n <= n
  /\ n < 2 * rounddown_pow_of_two n.
Proof.
  intros Hn. unfold rounddown_pow_of_two.
  pose proof (Z.log2_nonneg n) as Hl.
  pose proof (Z.log2_spec n Hn) as (Hlo & Hhi).
  rewrite Z.shiftl_1_l.
  rewrite Z.pow_succ_r in Hhi by exact Hl.
  assert (0 < 2 ^ Z.log2 n) by (apply Z.pow_pos_nonneg; lia).
  repeat split; lia.
Qed.

(** X18: a device that holds 1024 buckets of the starting size is
    always given a bucket size.  With blocks and btree nodes of at
    most 2048 sectors and no bucket size from the caller,
    [bch2_pick_bucket_size] neither dies nor divides by zero: it
    returns the larger of block size, btree node size and 256
    sectors, scaled by 1, 2, 4 or 8 according to the size of the
    device and capped at 2048 sectors, and never more than a 1024th
    of the device. *)
Theorem large_device_gets_buckets
    (BCH_SB_SECTOR device_sectors : Z) (fuel : nat) (opts : format_opts)
    (dev : dev_opts) :
  1 <= fo_block_size opts <= 2048 ->
  0 <= fo_btree_node_size opts <= 2048 ->
  dev_bucket_size dev = 0 ->
  dev_size dev <> 0 ->
  1024 * Z.max (Z.max (fo_block_size opts) (fo_btree_node_size opts)) 256
  <= dev_size dev < 2 ^ 64 ->
  exists dev' scale,
    bch2_pick_bucket_size BCH_SB_SECTOR device_sectors fuel opts dev
    = Some (Returns dev')
    /\ (scale = 1 \/ scale = 2 \/ scale = 4 \/ scale = 8)
    /\ dev_bucket_size dev'
       = Z.min (Z.max (Z.max (fo_block_size opts) (fo_btree_node_size opts)) 256
                * scale) 2048
    /\ 1024 * dev_bucket_size dev' <= dev_size dev
    /\ dev_size dev' = dev_size dev.
Proof.
  intros Hblock Hbtree Hauto Hsz Hsize.
  set (M := Z.max (Z.max (fo_block_size opts) (fo_btree_node_size opts)) 256) in *.
  assert (HM : 256 <= M <= 2048) by (unfold M; lia).
  assert (Hmin : min_size M = 1024 * M) by (apply min_size_small; lia).
  assert (Hminb : min_size (fo_block_size opts) = 1024 * fo_block_size opts)
    by (apply min_size_small; lia).
  set (q := dev_size dev / (1024 * M)).
  assert (Hq : 1 <= q < 2 ^ 64).
  { unfold q. split.
    - apply Z.div_le_lower_bound; lia.
    - apply Z.div_lt_upper_bound; lia. }
  assert (Hqm : 1024 * M * q <= dev_size dev)
    by (unfold q; apply Z.mul_div_le; lia).
  assert (Hlog : 0 <= Z.log2 q < 64).
  { split; [apply Z.log2_nonneg |]. apply Z.log2_lt_pow2; lia. }
  assert (Hlin : Z.log2 q < q) by (apply Z.log2_lt_lin; lia).
  set (s0 := Z.max 1 (Z.log2 q / 4)).
  assert (Hdiv : 0 <= Z.log2 q / 4 <= Z.log2 q).
  { split; [apply Z.div_pos; lia |]. apply Z.div_le_upper_bound; lia. }
  assert (Hdiv16 : Z.log2 q / 4 < 16) by (apply Z.div_lt_upper_bound; lia).
  assert (Hs0 : 1 <= s0 < 16 /\ s0 <= q) by (unfold s0; lia).
  destruct (rounddown_pow_of_two_spec s0 ltac:(lia)) as (Hpow & Hrd & Hrd2).
  set (scale := rounddown_pow_of_two s0) in *.
  assert (Hl0 : 0 <= Z.log2 s0 < 4).
  { split; [apply Z.log2_nonneg |]. apply Z.log2_lt_pow2; lia. }
  assert (Hscale : scale = 1 \/ scale = 2 \/ scale = 4 \/ scale = 8).
  { rewrite Hpow.
    assert (Hcases : Z.log2 s0 = 0 \/ Z.log2 s0 = 1 \/ Z.log2 s0 = 2 \/ Z.log2 s0 = 3)
      by lia.
    destruct Hcases as [-> | [-> | [-> | ->]]]; cbn; auto. }
  assert (Hrun : default_bucket_size fuel opts (dev_size dev)
                 = Some (Returns (Z.min (M * scale) 2048))).
  { unfold default_bucket_size. fold M. rewrite Hminb, Hmin.
    destruct (Z.ltb_spec (dev_size dev) (1024 * fo_block_size opts)); [lia |].
    destruct (Z.leb_spec (1024 * M) (dev_size dev)); [| lia].
    destruct (Z.eqb_spec (1024 * M) 0); [lia |].
    unfold ilog2. fold q. fold s0.
    rewrite (to_unsigned_small s0) by lia. fold scale.
    rewrite (to_unsigned_small scale) by lia.
    rewrite (to_unsigned_small (M * scale)) by nia.
    reflexivity. }
  set (bucket := Z.min (M * scale) 2048) in *.
  assert (Hb : M <= bucket <= 2048 /\ bucket <= M * scale) by (unfold bucket; nia).
  assert (Hfit : 1024 * bucket <= dev_size dev) by nia.
  assert (Hn : 1024 <= dev_size dev / bucket)
    by (apply Z.div_le_lower_bound; lia).
  exists (mk_dev (dev_size dev) bucket (dev_size dev / bucket)
            (if dev_sb_offset dev =? 0 then BCH_SB_SECTOR else dev_sb_offset dev)
            (if dev_sb_offset dev =? 0 then BCH_SB_SECTOR + 256 else dev_sb_end dev)),
    scale.
  split; [| cbn [dev_bucket_size dev_size]; auto].
  unfold bch2_pick_bucket_size.
  destruct (dev_sb_offset dev =? 0);
    cbn [dev_size dev_bucket_size dev_sb_offset dev_sb_end];
    (destruct (Z.eqb_spec (dev_size dev) 0); [contradiction |]);
    rewrite Hauto; cbn [Z.eqb]; rewrite Hrun;
    (destruct (Z.eqb_spec bucket 0); [lia |]);
    (destruct (Z.ltb_spec bucket (fo_block_size opts)); [unfold M in *; lia |]);
    (destruct (Z.ltb_spec bucket (fo_btree_node_size opts)); [unfold M in *; lia |]);
    (destruct (Z.ltb_spec (dev_size dev / bucket) BCH_MIN_NR_NBUCKETS) as [Hlt |];
     [change BCH_MIN_NR_NBUCKETS with 1024 in Hlt; lia |]);
    reflexivity.
Qed.

Lemma large_device_gets_buckets_witness :
  exists dev' scale,
    bch2_pick_bucket_size 8 0 0 usual_opts blank_device = Some (Returns dev')
    /\ (scale = 1 \/ scale = 2 \/ scale = 4 \/ scale = 8)
    /\ dev_bucket_size dev' = Z.min (512 * scale) 2048.
Proof.
  destruct (large_device_gets_buckets 8 0 0 usual_opts blank_device
              ltac:(vm_compute; split; discriminate)
              ltac:(vm_compute; split; discriminate)
              eq_refl ltac:(discriminate)
              ltac:(vm_compute; split; [discriminate | reflexivity]))
    as (dev' & scale & Hrun & Hscale & Hbucket & _).
  exists dev', scale. split; [exact Hrun |]. split; [exact Hscale | exact Hbucket].
Defined.

Lemma round_mask_pow2 (k : Z) : 0 <= k < 32 -> round_mask (2 ^ k) = 2 ^ k - 1.
Proof.
  intros Hk. unfold round_mask. apply to_unsigned_small.
  assert (0 < 2 ^ k) by (apply Z.pow_pos_nonneg; lia).
  assert (2 ^ k <= 2 ^ 31) by (apply Z.pow_le_mono_r; lia).
  lia.
Qed.

Lemma round_up_u64_spec (x k : Z) :
  0 <= k < 32 -> 0 < x -> x + 2 ^ k <= 2 ^ 64 ->
  x <= round_up_u64 x (2 ^ k) < x + 2 ^ k
  /\ round_up_u64 x (2 ^ k) mod 2 ^ k = 0.
Proof.
  intros Hk Hx Hcap.
  assert (Hp : 0 < 2 ^ k) by (apply Z.pow_pos_nonneg; lia).
  pose proof (Z.div_mod (x - 1) (2 ^ k) ltac:(lia)) as Hdm.
  pose proof (Z.mod_pos_bound (x - 1) (2 ^ k) Hp) as Hr.
  assert (Hup : round_up_u64 x (2 ^ k) = 2 ^ k * ((x - 1) / 2 ^ k) + 2 ^ k).
  { unfold round_up_u64. rewrite round_mask_pow2 by exact Hk.
    change (to_size_t (Z.lor (to_size_t (x - 1)) (2 ^ k - 1) + 1))
      with (round_up x (2 ^ k)).
    apply round_up_pow2; lia. }
  rewrite Hup. split; [lia |].
  replace (2 ^ k * ((x - 1) / 2 ^ k) + 2 ^ k)
    with (((x - 1) / 2 ^ k + 1) * 2 ^ k) by ring.
  apply Z.mod_mul. lia.
Qed.

Lemma round_down_u64_spec (x k : Z) :
  0 <= k < 32 ->
  round_down_u64 x (2 ^ k) <= x
  /\ round_down_u64 x (2 ^ k) mod 2 ^ k = 0.
Proof.
  intros Hk.
  assert (Hp : 0 < 2 ^ k) by (apply Z.pow_pos_nonneg; lia).
  assert (Hdown : round_down_u64 x (2 ^ k) = 2 ^ k * (x / 2 ^ k)).
  { unfold round_down_u64. rewrite round_mask_pow2 by exact Hk.
    change (Z.land x (Z.lnot (2 ^ k - 1))) with (round_down x (2 ^ k)).
    apply round_down_pow2. lia. }
  rewrite Hdown. split; [apply Z.mul_div_le; lia |].
  rewrite Z.mul_comm. apply Z.mod_mul. lia.
Qed.

(** X19: the two superblocks [init_layout] places fit the range they
    were given and do not overlap.  For a block size that is a power
    of two, when the function returns, the first superblock is at
    [start], moved up to a block boundary unless [start] is
    [BCH_SB_SECTOR]; the backup is at a block boundary; each has room
    for [2 ^ sb_max_size_bits] sectors, at least 8, before the backup
    begins respectively before [end]. *)
Theorem superblocks_fit_without_overlap
    (BCH_SB_SECTOR : Z) (k block_size start end_ : Z) (l : bch_sb_layout) :
  0 <= k < 32 ->
  block_size = 2 ^ k ->
  0 < start < 2 ^ 63 ->
  end_ < 2 ^ 63 ->
  init_layout BCH_SB_SECTOR block_size start end_ = Returns l ->
  exists first backup,
    sb_offset l = [first; backup]
    /\ nr_superblocks l = 2
    /\ 3 <= sb_max_size_bits l
    /\ start <= first < start + block_size
    /\ (if start =? BCH_SB_SECTOR then first = start else first mod block_size = 0)
    /\ backup mod block_size = 0
    /\ first + 2 ^ sb_max_size_bits l <= backup
    /\ backup + 2 ^ sb_max_size_bits l <= end_.
Proof.
  intros Hk -> Hstart Hend. unfold init_layout.
  assert (Hp : 0 < 2 ^ k) by (apply Z.pow_pos_nonneg; lia).
  assert (Hp31 : 2 ^ k <= 2 ^ 31) by (apply Z.pow_le_mono_r; lia).
  set (first := if negb (start =? BCH_SB_SECTOR) then round_up_u64 start (2 ^ k)
                else start).
  assert (Hfirst : start <= first < start + 2 ^ k
                   /\ (if start =? BCH_SB_SECTOR then first = start
                       else first mod 2 ^ k = 0)).
  { unfold first. destruct (start =? BCH_SB_SECTOR); cbn [negb]; [lia |].
    destruct (round_up_u64_spec start k Hk ltac:(lia) ltac:(lia)). auto. }
  destruct Hfirst as (Hf & Hfa).
  destruct (round_down_u64_spec end_ k Hk) as (Hdle & Hdmod).
  set (last := round_down_u64 end_ (2 ^ k)) in *.
  destruct (Z.leb_spec last first) as [| Hlt]; [discriminate |].
  assert (Hhalf : 0 <= first / 2 <= first).
  { split; [apply Z.div_pos; lia |]. apply Z.div_le_upper_bound; lia. }
  rewrite (to_size_t_small (last - first / 2)) by lia.
  rewrite (to_unsigned_small (Z.min 128 (last - first / 2))) by lia.
  set (sb0 := Z.min 128 (last - first / 2)).
  assert (Hsb0 : 1 <= sb0 <= 128) by (unfold sb0; lia).
  rewrite (to_size_t_small (first + sb0)) by lia.
  destruct (round_up_u64_spec (first + sb0) k Hk ltac:(lia) ltac:(lia))
    as (Hb1 & Hb1mod).
  set (b1 := round_up_u64 (first + sb0) (2 ^ k)) in *.
  set (backup := Z.min b1 last).
  assert (Hbackup : first < backup <= last) by (unfold backup; lia).
  assert (Hbmod : backup mod 2 ^ k = 0)
    by (unfold backup; destruct (Z.min_spec b1 last) as [(_ & ->) | (_ & ->)];
        assumption).
  rewrite (to_size_t_small (last - backup)) by lia.
  rewrite (to_size_t_small (backup - first)) by lia.
  set (room := Z.min (last - backup) (backup - first)).
  assert (Hm : 0 <= to_unsigned room <= room).
  { unfold to_unsigned, wrap. split.
    - apply Z.mod_pos_bound. lia.
    - apply Z.mod_le; unfold room; lia. }
  destruct (Z.eqb_spec (to_unsigned room) 0) as [| Hnz]; [discriminate |].
  destruct (rounddown_pow_of_two_spec (to_unsigned room) ltac:(lia))
    as (Hpow & Hrd & _).
  destruct (Z.ltb_spec (rounddown_pow_of_two (to_unsigned room)) 8) as [| H8];
    [discriminate |].
  intros [= <-]. cbn [sb_offset nr_superblocks sb_max_size_bits].
  assert (Hbits : ilog2 (rounddown_pow_of_two (to_unsigned room))
                  = Z.log2 (to_unsigned room))
    by (unfold ilog2; rewrite Hpow; apply Z.log2_pow2, Z.log2_nonneg).
  rewrite Hbits, <- Hpow.
  exists first, backup.
  split; [reflexivity |]. split; [reflexivity |].
  split.
  { destruct (Z.le_gt_cases 3 (Z.log2 (to_unsigned room))) as [| Hsmall];
      [assumption |].
    assert (2 ^ Z.log2 (to_unsigned room) <= 2 ^ 2)
      by (apply Z.pow_le_mono_r; lia).
    rewrite <- Hpow in *. change (2 ^ 2) with 4 in *. lia. }
  split; [exact Hf |]. split; [exact Hfa |]. split; [exact Hbmod |].
  unfold room in *. lia.
Qed.

Lemma superblocks_fit_without_overlap_witness :
  exists l,
    init_layout 8 8 8 264 = Returns l
    /\ exists first backup, sb_offset l = [first; backup] /\ first + 128 <= backup.
Proof.
  destruct (init_layout 8 8 8 264) as [l | why |] eqn:E;
    [| exfalso; revert E; vm_compute; discriminate
     | exfalso; revert E; vm_compute; discriminate].
  exists l. split; [reflexivity |].
  destruct (superblocks_fit_without_overlap 8 3 8 8 264 l
              ltac:(lia) eq_refl ltac:(lia) ltac:(lia) E)
    as (first & backup & Hoff & _ & _ & _ & _ & _ & Hgap & _).
  exists first, backup. split; [exact Hoff |].
  assert (Hbits : match init_layout 8 8 8 264 with
                  | Returns l => sb_max_size_bits l | _ => 0 end = 7)
    by (vm_compute; reflexivity).
  rewrite E in Hbits. rewrite Hbits in Hgap. exact Hgap.
Defined.

(** X20: [init_layout] has no layout for a range of 128 sectors or
    less.  The size first reserved for a superblock is
    [min(128, end - start / 2)], where only [start] is halved, so in
    such a range the backup lands on [end]; the room left for it is
    0, and the function either dies or rounds 0 down to a power of
    two, which shifts by -1.  It never returns, though a range of 16
    sectors would hold two superblocks of the smallest size. *)
Theorem short_range_gets_no_layout
    (BCH_SB_SECTOR : Z) (k block_size start end_ : Z) :
  0 <= k < 32 ->
  block_size = 2 ^ k ->
  0 < start < 2 ^ 63 ->
  end_ - start <= 128 ->
  init_layout BCH_SB_SECTOR block_size start end_ = Dies NoSpaceForSuperblocks
  \/ init_layout BCH_SB_SECTOR block_size start end_ = Undefined.
Proof.
  intros Hk -> Hstart Hshort. unfold init_layout.
  assert (Hp : 0 < 2 ^ k) by (apply Z.pow_pos_nonneg; lia).
  assert (Hp31 : 2 ^ k <= 2 ^ 31) by (apply Z.pow_le_mono_r; lia).
  set (first := if negb (start =? BCH_SB_SECTOR) then round_up_u64 start (2 ^ k)
                else start).
  assert (Hf : start <= first < start + 2 ^ k).
  { unfold first. destruct (start =? BCH_SB_SECTOR); cbn [negb]; [lia |].
    destruct (round_up_u64_spec start k Hk ltac:(lia) ltac:(lia)). auto. }
  destruct (round_down_u64_spec end_ k Hk) as (Hdle & _).
  set (last := round_down_u64 end_ (2 ^ k)) in *.
  destruct (Z.leb_spec last first) as [| Hlt]; [now left |]. right.
  assert (Hhalf : 0 <= first / 2 <= first).
  { split; [apply Z.div_pos; lia |]. apply Z.div_le_upper_bound; lia. }
  rewrite (to_size_t_small (last - first / 2)) by lia.
  rewrite (to_unsigned_small (Z.min 128 (last - first / 2))) by lia.
  set (sb0 := Z.min 128 (last - first / 2)).
  assert (Hsb0 : last - first <= sb0 <= 128) by (unfold sb0; lia).
  rewrite (to_size_t_small (first + sb0)) by lia.
  destruct (round_up_u64_spec (first + sb0) k Hk ltac:(lia) ltac:(lia))
    as (Hb1 & _).
  set (b1 := round_up_u64 (first + sb0) (2 ^ k)) in *.
  replace (Z.min b1 last) with last by lia.
  rewrite Z.sub_diag.
  rewrite (to_size_t_small (last - first)) by lia.
  replace (Z.min (to_size_t 0) (last - first)) with 0
    by (change (to_size_t 0) with 0; lia).
  reflexivity.
Qed.

Lemma short_range_gets_no_layout_witness :
  init_layout 8 8 8 136 = Undefined.
Proof.
  destruct (short_range_gets_no_layout 8 3 8 8 136
              ltac:(lia) eq_refl ltac:(lia) ltac:(lia)) as [H | H].
  - exfalso. revert H. vm_compute. discriminate.
  - exact H.
Defined.

(** X21: [min_size] is computed at 32 bits.  For a bucket size that
    is a multiple of [2 ^ 22] sectors the product with 1024 wraps to
    0, so that every device passes the size check; with such a block
    size and no bucket size from the caller,
    [bch2_pick_bucket_size] goes on to divide the device size by
    that 0. *)
Theorem min_size_wraps_to_zero
    (BCH_SB_SECTOR device_sectors : Z) (fuel : nat) (opts : format_opts)
    (dev : dev_opts) (n : Z) :
  0 < n < 1024 ->
  fo_block_size opts = n * 2 ^ 22 ->
  0 <= fo_btree_node_size opts <= fo_block_size opts ->
  dev_bucket_size dev = 0 ->
  0 <= dev_size dev ->
  0 <= device_sectors ->
  min_size (fo_block_size opts) = 0
  /\ bch2_pick_bucket_size BCH_SB_SECTOR device_sectors fuel opts dev
     = Some Undefined.
Proof.
  intros Hn Hblock Hbtree Hauto Hsize Hdev.
  assert (Hzero : min_size (fo_block_size opts) = 0).
  { unfold min_size, BCH_MIN_NR_NBUCKETS, to_unsigned, wrap. rewrite Hblock.
    change (Z.shiftl 1 10) with (2 ^ 10).
    replace (2 ^ 10 * (n * 2 ^ 22)) with (n * 2 ^ 32) by ring.
    apply Z.mod_mul. lia. }
  split; [exact Hzero |].
  set (size := if dev_size dev =? 0 then device_sectors else dev_size dev).
  assert (Hsz : 0 <= size) by (unfold size; destruct (dev_size dev =? 0); lia).
  assert (Hdefault : default_bucket_size fuel opts size = Some Undefined).
  { unfold default_bucket_size. rewrite Hzero.
    destruct (Z.ltb_spec size 0); [lia |].
    replace (Z.max (Z.max (fo_block_size opts) (fo_btree_node_size opts)) 256)
      with (fo_block_size opts) by lia.
    rewrite Hzero.
    destruct (Z.leb_spec 0 size); [| lia]. reflexivity. }
  unfold bch2_pick_bucket_size.
  destruct (dev_sb_offset dev =? 0); cbn [dev_size dev_bucket_size];
    fold size; rewrite Hauto; cbn [Z.eqb]; rewrite Hdefault; reflexivity.
Qed.

Lemma min_size_wraps_to_zero_witness :
  min_size 4194304 = 0
  /\ bch2_pick_bucket_size 8 0 33 huge_blocks blank_device = Some Undefined.
Proof.
  exact (min_size_wraps_to_zero 8 0 33 huge_blocks blank_device 1
           ltac:(lia) eq_refl ltac:(vm_compute; split; discriminate) eq_refl
           ltac:(vm_compute; discriminate) ltac:(lia)).
Defined.

(** * Compressing block-aligned bios *)

Lemma aligned_plus_one (x bb : Z) :
  1 < bb -> x mod bb = 0 -> (x + 1) mod bb <> 0.
Proof.
  intros Hbb Hx.
  rewrite Z.add_mod, Hx, Z.add_0_l, Z.mod_mod by lia.
  rewrite Z.mod_small; lia.
Qed.

(** X22: on block-aligned bios the compressor always ends.  When the
    sizes of both bios and the largest encoded extent are multiples
    of the block size, the room the search is given is one too, so
    the halving step of the search always makes progress: with one
    turn per source byte and one to spare, [bch2_bio_compress]
    returns or dies, and the attempts of a call that returns used
    strictly decreasing amounts of source. *)
Theorem aligned_compress_always_ends
    (lib : codec_lib) (mem : alloc_env) (c : bch_fs) (k : Z)
    (dst : bio) (dst_len : Z) (src : bio) (src_len : Z)
    (t : bch_compression_type) :
  0 <= k ->
  opts_block_size c = 2 ^ k ->
  0 <= bi_size dst ->
  0 <= bi_size src < 2 ^ 32 ->
  bi_size dst mod block_bytes c = 0 ->
  bi_size src mod block_bytes c = 0 ->
  to_unsigned (Z.shiftl (sb_encoded_extent_max c) 9) mod block_bytes c = 0 ->
  exists out,
    bch2_bio_compress lib mem (S (Z.to_nat (bi_size src))) c dst dst_len src src_len t
    = Some out
    /\ forall r, out = Ret r -> decreasing (k_attempts r).
Proof.
  intros Hk Hbs Hd Hs Hda Hsa Hma.
  assert (HK9 : block_bytes c = 2 ^ (k + 9)) by (apply block_bytes_pow2; lia).
  assert (Hbig : 1 < block_bytes c).
  { rewrite HK9. change 1 with (2 ^ 0). apply Z.pow_lt_mono_r; lia. }
  assert (Hcap : 0 <= to_unsigned (Z.shiftl (sb_encoded_extent_max c) 9))
    by (unfold to_unsigned, wrap; apply Z.mod_pos_bound; lia).
  unfold bch2_bio_compress.
  set (t' := if compression_type_eqb t BCH_COMPRESSION_LZ4_OLD
             then BCH_COMPRESSION_LZ4 else t).
  assert (Hsrc1 : 0 <= bi_size (clamp_src c src) <= bi_size src
                  /\ bi_size (clamp_src c src) mod block_bytes c = 0).
  { unfold clamp_src. cbn [bi_size set_bi_size].
    destruct (Z.min_spec (bi_size src)
                (to_unsigned (Z.shiftl (sb_encoded_extent_max c) 9)))
      as [(Hc & ->) | (Hc & ->)]; split; try lia; assumption. }
  destruct Hsrc1 as (Hs1 & Hs1a).
  assert (Hdst1 : 0 <= bi_size (clamp_dst c dst src)
                  /\ bi_size (clamp_dst c dst src) mod block_bytes c = 0).
  { unfold clamp_dst. cbn [bi_size set_bi_size].
    destruct (Z.min_spec (bi_size dst) (bi_size (clamp_src c src)))
      as [(Hc & ->) | (Hc & ->)]; split; try lia; assumption. }
  destruct Hdst1 as (Hd1 & Hd1a).
  assert (Hinner : exists out,
             __bio_compress lib mem (S (Z.to_nat (bi_size src))) c
               (clamp_dst c dst src) dst_len (clamp_src c src) src_len t'
             = Some out
             /\ forall r, out = Ret r -> decreasing (k_attempts r)).
  { unfold __bio_compress.
    destruct (negb _); [eexists; split; [reflexivity | discriminate] |].
    destruct (_ <=? _).
    { eexists. split; [reflexivity |]. intros r [= <-]. constructor. }
    destruct (bio_map_or_bounce mem c (clamp_dst c dst src) WRITE) as [dd |] eqn:Hdd;
      [| eexists; split; [reflexivity | discriminate]].
    destruct (bio_map_or_bounce mem c (clamp_src c src) READ) as [sd |];
      [| eexists; split; [reflexivity | discriminate]].
    destruct (compress_loop_total lib (k + 9) (block_bytes c)
                (bi_size (clamp_dst c dst src)) t' (b sd)
                ltac:(lia) HK9 Hd1 (aligned_plus_one _ _ Hbig Hd1a)
                (Z.to_nat (bi_size src))
                (mk_loop (bi_size (clamp_src c src)) (bi_size (clamp_dst c dst src))
                   (b dd) []))
      as (out & -> & Hdec).
    - unfold loop_inv. cbn [l_dst_len l_src_len l_attempts].
      repeat split; try lia; constructor.
    - cbn [l_src_len]. lia.
    - destruct out as [[e st] |]; [| eexists; split; [reflexivity | discriminate]].
      eexists. split; [reflexivity |].
      intros r Hr.
      apply compress_finish_inv in Hr as (_ & -> & _).
      now apply (Hdec e st). }
  destruct Hinner as (out & -> & Hdec).
  destruct out as [r |].
  - eexists. split; [reflexivity |].
    intros r' [= <-]. cbn [k_attempts]. now apply Hdec.
  - eexists. split; [reflexivity | discriminate].
Qed.

Lemma aligned_compress_always_ends_witness :
  exists out,
    bch2_bio_compress Toy.lib Toy.mem (S (Z.to_nat (bi_size dense_blocks))) Toy.fs
      roomy 0 dense_blocks 0 BCH_COMPRESSION_GZIP = Some out.
Proof.
  destruct (aligned_compress_always_ends Toy.lib Toy.mem Toy.fs 0
              roomy 0 dense_blocks 0 BCH_COMPRESSION_GZIP
              ltac:(lia) eq_refl
              ltac:(vm_compute; discriminate)
              ltac:(vm_compute; split; [discriminate | reflexivity])
              ltac:(vm_compute; reflexivity) ltac:(vm_compute; reflexivity)
              ltac:(vm_compute; reflexivity))
    as (out & Hrun & _).
  exists out. exact Hrun.
Defined.

(** * The scan for page runs *)

Lemma to_unsigned_succ (n m : Z) :
  to_unsigned (to_unsigned (n + 1) + m) = to_unsigned (n + (1 + m)).
Proof.
  unfold to_unsigned, wrap. rewrite Z.add_mod_idemp_l by lia. f_equal. lia.
Qed.

Lemma scan_segments_step (PAGE_SIZE prev_end nr_pages : Z) (bv : bio_vec)
    (rest : list bio_vec) :
  scan_segments PAGE_SIZE true prev_end nr_pages (bv :: rest)
  = if prev_end =? PAGE_SIZE
    then scan_segments PAGE_SIZE true (to_unsigned (bv_offset bv + bv_len bv))
           (to_unsigned (nr_pages + 1)) rest
    else None.
Proof. cbn [scan_segments negb andb orb]. now destruct (prev_end =? PAGE_SIZE). Qed.

Lemma scan_segments_ends (PAGE_SIZE : Z) :
  forall (segs : list bio_vec) (prev_end nr_pages : Z),
    segs <> [] ->
    scan_segments PAGE_SIZE true prev_end nr_pages segs
    = if (prev_end =? PAGE_SIZE) && forallb (ends_page PAGE_SIZE) (removelast segs)
      then Some (to_unsigned (nr_pages + Z.of_nat (length segs)))
      else None.
Proof.
  induction segs as [| bv rest IH]; intros prev_end nr_pages Hne; [contradiction |].
  rewrite scan_segments_step.
  destruct (prev_end =? PAGE_SIZE); [| reflexivity]. cbn [andb].
  destruct rest as [| bv' rest'].
  - reflexivity.
  - rewrite IH by discriminate.
    change (removelast (bv :: bv' :: rest')) with (bv :: removelast (bv' :: rest')).
    cbn [forallb]. unfold ends_page at 2.
    destruct (_ && _); [| reflexivity].
    rewrite to_unsigned_succ. do 2 f_equal.
    change (length (bv :: bv' :: rest')) with (S (length (bv' :: rest'))). lia.
Qed.

Lemma scan_segments_same_end (PAGE_SIZE : Z) (bv bv' : bio_vec)
    (post : list bio_vec) :
  to_unsigned (bv_offset bv + bv_len bv) = to_unsigned (bv_offset bv' + bv_len bv') ->
  forall (pre : list bio_vec) (prev_end nr_pages : Z),
    scan_segments PAGE_SIZE true prev_end nr_pages (pre ++ bv :: post)
    = scan_segments PAGE_SIZE true prev_end nr_pages (pre ++ bv' :: post).
Proof.
  intros Hend. induction pre as [| p pre IH]; intros prev_end nr_pages.
  - cbn [app]. rewrite !scan_segments_step, Hend. reflexivity.
  - cbn [app]. rewrite !scan_segments_step.
    destruct (prev_end =? PAGE_SIZE); [apply IH | reflexivity].
Qed.

Lemma page_run_scan_ends_closed (PAGE_SIZE : Z) (segs : list bio_vec) :
  0 <= PAGE_SIZE < 2 ^ 32 ->
  page_run_scan PAGE_SIZE segs
  = if forallb (ends_page PAGE_SIZE) (removelast segs)
    then Some (to_unsigned (Z.of_nat (length segs)))
    else None.
Proof.
  intros HP. unfold page_run_scan. rewrite (to_unsigned_small PAGE_SIZE HP).
  destruct segs as [| bv rest]; [reflexivity |].
  rewrite scan_segments_ends by discriminate.
  rewrite Z.eqb_refl. reflexivity.
Qed.

(** X24: what the scan for page runs tests.  [first] is never
    cleared, so the scan does not look at where a fragment begins: it
    sends the bio to the bounce path exactly when a fragment other
    than the last does not end at the end of its page, and counts the
    fragments otherwise.  Two bios whose fragments end at the same
    places get the same answer, wherever their fragments begin. *)
Theorem page_run_scan_tests_ends_only (PAGE_SIZE : Z) (segs : list bio_vec) :
  0 <= PAGE_SIZE < 2 ^ 32 ->
  page_run_scan PAGE_SIZE segs
  = (if forallb (ends_page PAGE_SIZE) (removelast segs)
     then Some (to_unsigned (Z.of_nat (length segs)))
     else None)
  /\ forall (pre post : list bio_vec) (bv bv' : bio_vec),
       to_unsigned (bv_offset bv + bv_len bv)
       = to_unsigned (bv_offset bv' + bv_len bv') ->
       page_run_scan PAGE_SIZE (pre ++ bv :: post)
       = page_run_scan PAGE_SIZE (pre ++ bv' :: post).
Proof.
  intros HP. split; [now apply page_run_scan_ends_closed |].
  intros pre post bv bv' Hend. unfold page_run_scan.
  now apply scan_segments_same_end.
Qed.

Lemma page_run_scan_tests_ends_only_witness :
  page_run_scan 4096 [mk_bvec [] 0 4096; mk_bvec [] 100 50] = Some 2
  /\ page_run_scan 4096 [mk_bvec [] 0 4096; mk_bvec [] 0 150] = Some 2.
Proof.
  destruct (page_run_scan_tests_ends_only 4096
              [mk_bvec [] 0 4096; mk_bvec [] 100 50] ltac:(lia)) as (Hrun & Hsame).
  split.
  - exact Hrun.
  - pose proof (Hsame [mk_bvec [] 0 4096] [] (mk_bvec [] 100 50) (mk_bvec [] 0 150)
                  eq_refl) as H.
    cbn [app] in H. rewrite <- H. exact Hrun.
Defined.

Lemma window_in_page (PAGE_SIZE : Z) (bv : bio_vec) :
  in_page PAGE_SIZE bv ->
  length (window (bv_offset bv) (bv_len bv) (bv_page bv)) = Z.to_nat (bv_len bv).
Proof.
  intros (Hp & Ho & Hl & Hend). unfold window.
  rewrite length_firstn, length_skipn. lia.
Qed.

Lemma segment_bytes_cons (bv : bio_vec) (rest : list bio_vec) :
  segment_bytes (bv :: rest)
  = window (bv_offset bv) (bv_len bv) (bv_page bv) ++ segment_bytes rest.
Proof. reflexivity. Qed.

Lemma segment_bytes_length (PAGE_SIZE : Z) (segs : list bio_vec) :
  Forall (in_page PAGE_SIZE) segs ->
  Z.of_nat (length (segment_bytes segs)) <= PAGE_SIZE * Z.of_nat (length segs).
Proof.
  induction 1 as [| bv rest Hbv _ IH]; [cbn; lia |].
  rewrite segment_bytes_cons, length_app, (window_in_page PAGE_SIZE bv Hbv).
  destruct Hbv as (_ & Ho & Hl & Hend).
  change (length (bv :: rest)) with (S (length rest)).
  rewrite Nat2Z.inj_succ, Z.mul_succ_r. lia.
Qed.

(** Behind the first fragment: fragments that begin where their page
    begins, each but the last ending where its page ends, lie in the
    row of their pages as they lie in the bio. *)
Lemma page_runs_tail (PAGE_SIZE : Z) :
  0 < PAGE_SIZE < 2 ^ 32 ->
  forall (rest : list bio_vec) (nr_pages m : Z),
    Forall (in_page PAGE_SIZE) rest ->
    Forall (fun bv => bv_offset bv = 0) rest ->
    scan_segments PAGE_SIZE true PAGE_SIZE nr_pages rest = Some m ->
    firstn (length (segment_bytes rest)) (concat (map bv_page rest))
    = segment_bytes rest.
Proof.
  intros HP. induction rest as [| bv rest IH]; intros nr_pages m Hin Hzero Hscan.
  - reflexivity.
  - inversion Hin as [| ? ? Hbv Hin']; subst.
    inversion Hzero as [| ? ? Ho Hzero']; subst.
    pose proof (window_in_page PAGE_SIZE bv Hbv) as Hwl.
    destruct Hbv as (Hp & _ & Hl & Hend).
    rewrite scan_segments_step, Z.eqb_refl in Hscan.
    rewrite segment_bytes_cons. cbn [map concat].
    rewrite Ho in *. unfold window in *. change (Z.to_nat 0) with 0%nat in *.
    cbn [skipn] in *.
    destruct rest as [| bv' rest'].
    + cbn [segment_bytes flat_map map concat]. rewrite !app_nil_r.
      rewrite Hwl. reflexivity.
    + assert (E : to_unsigned (0 + bv_len bv) = PAGE_SIZE).
      { pose proof Hscan as H. rewrite scan_segments_step in H.
        destruct (Z.eqb_spec (to_unsigned (0 + bv_len bv)) PAGE_SIZE);
          [assumption | discriminate]. }
      rewrite E in Hscan.
      rewrite to_unsigned_small in E by lia.
      assert (Hall : firstn (Z.to_nat (bv_len bv)) (bv_page bv) = bv_page bv)
        by (apply firstn_all2; lia).
      rewrite Hall, length_app, firstn_app_2. f_equal.
      exact (IH _ _ Hin' Hzero' Hscan).
Qed.

(** X25: on the bios the scan is meant for, a [vmap] shows the bio.
    When every fragment lies inside its page, every fragment but the
    first begins where its page begins and the scan does not send the
    bio to the bounce path, the memory at
    [data + bio_iter_offset(bio, start)] holds the bytes of the bio
    in their order; [nr_pages] is the number of fragments, and
    [BUG_ON(DIV_ROUND_UP(start.bi_size, PAGE_SIZE) > nr_pages)] does
    not fire. *)
Theorem vmap_shows_page_runs (PAGE_SIZE : Z) (segs : list bio_vec) (n : Z) :
  0 < PAGE_SIZE < 2 ^ 32 ->
  Forall (in_page PAGE_SIZE) segs ->
  Forall (fun bv => bv_offset bv = 0) (tl segs) ->
  Z.of_nat (length segs) < 2 ^ 32 ->
  page_run_scan PAGE_SIZE segs = Some n ->
  firstn (length (segment_bytes segs)) (vmap_view segs) = segment_bytes segs
  /\ n = Z.of_nat (length segs)
  /\ DIV_ROUND_UP (Z.of_nat (length (segment_bytes segs))) PAGE_SIZE <= n.
Proof.
  intros HP Hin Hzero Hshort Hscan.
  pose proof (segment_bytes_length PAGE_SIZE segs Hin) as Hlen.
  assert (Hn : n = Z.of_nat (length segs)).
  { rewrite page_run_scan_ends_closed in Hscan by lia.
    destruct (forallb _ _); [| discriminate].
    injection Hscan as <-. apply to_unsigned_small. lia. }
  split; [| split; [exact Hn |]].
  - unfold page_run_scan in Hscan.
    rewrite (to_unsigned_small PAGE_SIZE) in Hscan by lia.
    destruct segs as [| bv rest]; [reflexivity |].
    inversion Hin as [| ? ? Hbv Hin']; subst. cbn [tl] in Hzero.
    pose proof (window_in_page PAGE_SIZE bv Hbv) as Hwl.
    destruct Hbv as (Hp & Ho & Hl & Hend).
    rewrite scan_segments_step, Z.eqb_refl in Hscan.
    unfold vmap_view. cbn [map concat].
    rewrite skipn_app.
    replace (Z.to_nat (bv_offset bv) - length (bv_page bv))%nat with 0%nat by lia.
    cbn [skipn]. rewrite segment_bytes_cons.
    unfold window in *.
    destruct rest as [| bv' rest'].
    + cbn [segment_bytes flat_map map concat]. rewrite !app_nil_r.
      rewrite Hwl. reflexivity.
    + assert (E : to_unsigned (bv_offset bv + bv_len bv) = PAGE_SIZE).
      { pose proof Hscan as H. rewrite scan_segments_step in H.
        destruct (Z.eqb_spec (to_unsigned (bv_offset bv + bv_len bv)) PAGE_SIZE);
          [assumption | discriminate]. }
      rewrite E in Hscan.
      rewrite to_unsigned_small in E by lia.
      assert (Hall : firstn (Z.to_nat (bv_len bv))
                       (skipn (Z.to_nat (bv_offset bv)) (bv_page bv))
                     = skipn (Z.to_nat (bv_offset bv)) (bv_page bv))
        by (apply firstn_all2; rewrite length_skipn; lia).
      rewrite Hall, length_app, firstn_app_2. f_equal.
      exact (page_runs_tail PAGE_SIZE HP (bv' :: rest') _ _ Hin' Hzero Hscan).
  - rewrite Hn. unfold DIV_ROUND_UP.
    apply Z.lt_succ_r. apply Z.div_lt_upper_bound; lia.
Qed.

Lemma vmap_shows_page_runs_witness :
  page_run_scan 4 [mk_bvec page_a 1 3; mk_bvec page_b 0 2] = Some 2
  /\ firstn 5 (vmap_view [mk_bvec page_a 1 3; mk_bvec page_b 0 2])
     = segment_bytes [mk_bvec page_a 1 3; mk_bvec page_b 0 2].
Proof.
  assert (Hscan : page_run_scan 4 [mk_bvec page_a 1 3; mk_bvec page_b 0 2] = Some 2)
    by (vm_compute; reflexivity).
  split; [exact Hscan |].
  refine (proj1 (vmap_shows_page_runs 4 [mk_bvec page_a 1 3; mk_bvec page_b 0 2] 2
                   ltac:(lia) _ _ ltac:(vm_compute; reflexivity) Hscan)).
  - repeat constructor; cbn; lia.
  - repeat constructor.
Defined.

(** X26: the scan hands a bio to [vmap] that is not a run of pages.
    A fragment that fills its page, followed by one that begins [o]
    bytes into the next page, passes the scan, the begin of the second
    fragment not being looked at.  The bio covers the second page from
    byte [o] on; the mapping shows it from byte 0 on. *)
Theorem ragged_fragment_is_vmapped
    (PAGE_SIZE : Z) (p0 p1 : list byte) (o len : Z) :
  0 < PAGE_SIZE < 2 ^ 32 ->
  Z.of_nat (length p0) = PAGE_SIZE ->
  Z.of_nat (length p1) = PAGE_SIZE ->
  0 < o ->
  0 <= len ->
  o + len <= PAGE_SIZE ->
  page_run_scan PAGE_SIZE [mk_bvec p0 0 PAGE_SIZE; mk_bvec p1 o len] = Some 2
  /\ segment_bytes [mk_bvec p0 0 PAGE_SIZE; mk_bvec p1 o len]
     = p0 ++ window o len p1
  /\ firstn (length (segment_bytes [mk_bvec p0 0 PAGE_SIZE; mk_bvec p1 o len]))
       (vmap_view [mk_bvec p0 0 PAGE_SIZE; mk_bvec p1 o len])
     = p0 ++ window 0 len p1.
Proof.
  intros HP H0 H1 Ho Hl Hend.
  assert (Hfirst : window 0 PAGE_SIZE p0 = p0)
    by (unfold window; cbn [Z.to_nat skipn]; apply firstn_all2; lia).
  assert (Hbytes : segment_bytes [mk_bvec p0 0 PAGE_SIZE; mk_bvec p1 o len]
                   = p0 ++ window o len p1).
  { unfold segment_bytes. cbn [flat_map bv_offset bv_len bv_page].
    rewrite Hfirst, app_nil_r. reflexivity. }
  split; [| split; [exact Hbytes |]].
  - rewrite page_run_scan_ends_closed by lia.
    cbn [removelast forallb]. unfold ends_page. cbn [bv_offset bv_len].
    rewrite Z.add_0_l, to_unsigned_small, Z.eqb_refl by lia. reflexivity.
  - rewrite Hbytes. unfold vmap_view. cbn [bv_offset bv_page map concat Z.to_nat skipn].
    rewrite app_nil_r, length_app, firstn_app_2. f_equal.
    unfold window. cbn [Z.to_nat skipn].
    rewrite length_firstn, length_skipn.
    replace (Nat.min (Z.to_nat len) (length p1 - Z.to_nat o)) with (Z.to_nat len)
      by lia.
    reflexivity.
Qed.

Lemma ragged_fragment_is_vmapped_witness :
  segment_bytes [mk_bvec page_a 0 4; mk_bvec page_b 2 2] = page_a ++ [x07; x08]
  /\ firstn 6 (vmap_view [mk_bvec page_a 0 4; mk_bvec page_b 2 2])
     = page_a ++ [x05; x06].
Proof.
  destruct (ragged_fragment_is_vmapped 4 page_a page_b 2 2
              ltac:(lia) eq_refl eq_refl ltac:(lia) ltac:(lia) ltac:(lia))
    as (_ & Hbytes & Hview).
  split; [exact Hbytes | exact Hview].
Defined.
